(** * ntrpRNG: entropy accumulation and dual-path seed derivation

    A shallow embedding of [ntrpRNG.js] (v1.3.0), of what v1.2.1 does
    differently (handlers, readiness, seed generation, the iterative hash),
    of the baseline generator [cgRNDV.js] and of the CSV rows written by
    [tools/dashboard.js], with the properties stated about them.

    Conventions of the embedding.
    - A JavaScript [Number] is a binary64 value, [spec_float] at precision
      53 and maximal exponent 1024.  The five event counters only ever hold
      integers (they start at 0 and grow by 1, 2 or 3); they are kept as [Z],
      which is exact as long as a counter stays below 2^53.
    - A [Uint8Array] is a [list byte]; its length is the list's length.
    - The host (DOM, clocks, [crypto], scheduler, console) is an explicit
      [Host] value threaded through every method, next to the instance.
    - A method that can throw (or an async method that can reject) returns a
      [Completion]; the state reached before the throw is kept.
    - An async method is run to completion.  Of the instance,
      [generateSeed] reads after its first suspension point only
      [iterations], which no handler and no timer callback writes: the
      pools are serialised before [combineEntropy] first awaits.
    - Only the handle a timer function returns is kept, not its delay.
    - The host delivers an event to a handler only while the handler is
      registered for the event's type, and runs a timer callback only
      while its handle is pending; a frame request and a timeout are used
      up when they fire, an interval is not. *)

From Stdlib Require Import String Ascii Strings.Byte.
From Stdlib Require Import ZArith List Bool Lia.
From Stdlib Require Import Floats.SpecFloat Numbers.DecimalString.
Import ListNotations.

Local Open Scope string_scope.
Local Open Scope list_scope.
Local Open Scope Z_scope.

(* ------------------------------------------------------------------ *)
(** ** Completions: normal return or thrown exception *)

Inductive JsError : Type :=
| Error (message : string)
| RangeError
| QuotaExceededError
| NotSupportedError.

Inductive Completion (A : Type) : Type :=
| Normal (value : A)
| Throw (exn : JsError).
Arguments Normal {A} value.
Arguments Throw {A} exn.

Definition cbind {A B} (c : Completion A) (k : A -> Completion B) : Completion B :=
  match c with
  | Normal a => k a
  | Throw e => Throw e
  end.

(* ------------------------------------------------------------------ *)
(** ** Numbers *)

Definition Number := spec_float.

Definition prec : Z := 53.
Definition emax : Z := 1024.

(** The Number denoted by an integer literal. *)
Definition num (z : Z) : Number := binary_normalize prec emax z 0 false.

Definition NaN : Number := S754_nan.

Definition num_sub (a b : Number) : Number := SFsub prec emax a b.
Definition num_mul (a b : Number) : Number := SFmul prec emax a b.
Definition num_div (a b : Number) : Number := SFdiv prec emax a b.

(** [Math.min(a, b)]: NaN if either is NaN, otherwise the smaller one,
    -0 counting as smaller than +0. *)
Definition Math_min (a b : Number) : Number :=
  match SFcompare a b with
  | None => NaN
  | Some Gt => b
  | Some Lt => a
  | Some Eq =>
      match a, b with
      | S754_zero sa, S754_zero sb => S754_zero (sa || sb)
      | _, _ => a
      end
  end.

(** [x || 0] on a Number: 0, -0 and NaN are falsy. *)
Definition or_zero (x : Number) : Number :=
  match x with
  | S754_zero _ | S754_nan => num 0
  | _ => x
  end.

(* ------------------------------------------------------------------ *)
(** ** Bytes and typed arrays *)

Definition Uint8Array := list byte.

(** Storing an integer into a [Uint8Array] element keeps it modulo 256. *)
Definition byte_of_Z (z : Z) : byte :=
  match Byte.of_N (Z.to_N (z mod 256)) with
  | Some b => b
  | None => x00
  end.

Definition Z_of_byte (b : byte) : Z := Z.of_N (Byte.to_N b).

(** [new Uint8Array(n)] / [new ArrayBuffer(n)] for a length already known to
    be a natural number: [n] zero bytes. *)
Definition zeros (n : nat) : Uint8Array := repeat x00 n.

(** [new Uint8Array(n)] for an arbitrary integer field, on a host that
    allocates arrays of at most [limit] bytes: a [RangeError] for a negative
    length and for one the host cannot allocate. *)
Definition new_Uint8Array (limit n : Z) : Completion Uint8Array :=
  if (n <? 0) || (limit <? n) then Throw RangeError
  else Normal (zeros (Z.to_nat n)).

(** Overwrite [buf] from [offset] on with [src]; the caller checks bounds. *)
Definition splice {A} (buf : list A) (offset : nat) (src : list A) : list A :=
  firstn offset buf ++ src ++ skipn (offset + length src) buf.

(** [target.set(src, offset)]. *)
Definition Uint8Array_set (target src : Uint8Array) (offset : nat)
  : Completion Uint8Array :=
  if (length target <? offset + length src)%nat
  then Throw RangeError
  else Normal (splice target offset src).

(** [a.length] as the integer JavaScript sees. *)
Definition len {A} (a : list A) : Z := Z.of_nat (length a).

(** [a.slice(-k)]: the last [k] elements, all of them if there are fewer. *)
Definition slice_last {A} (k : Z) (a : list A) : list A :=
  skipn (Z.to_nat (len a - k)) a.

(** [a.slice(0, k)]. *)
Definition slice_first {A} (k : nat) (a : list A) : list A := firstn k a.

(* ------------------------------------------------------------------ *)
(** ** binary64 encoding, as [DataView.setFloat64] writes it *)

Definition sign_bit (s : bool) : Z := if s then 1 else 0.

(** The 64-bit pattern of a Number: sign, 11-bit biased exponent, 52-bit
    fraction.  NaN is written as the canonical quiet NaN. *)
Definition float64_bits (x : Number) : Z :=
  match x with
  | S754_zero s => Z.shiftl (sign_bit s) 63
  | S754_infinity s => Z.lor (Z.shiftl (sign_bit s) 63) (Z.shiftl 0x7FF 52)
  | S754_nan => Z.shiftl 0x7FF8 48
  | S754_finite s m e =>
      if 2 ^ 52 <=? Zpos m
      then Z.lor (Z.shiftl (sign_bit s) 63)
                 (Z.lor (Z.shiftl (e + 1075) 52) (Zpos m - 2 ^ 52))
      else Z.lor (Z.shiftl (sign_bit s) 63) (Zpos m)
  end.

(** The [k]-th of the [n] bytes of [bits], most significant byte first. *)
Definition be_byte (n : nat) (bits : Z) (k : nat) : byte :=
  byte_of_Z (Z.land (Z.shiftr bits (8 * Z.of_nat (n - 1 - k))) 0xFF).

Definition be_bytes (n : nat) (bits : Z) : list byte :=
  map (be_byte n bits) (seq 0 n).

Definition float64_be (x : Number) : list byte := be_bytes 8 (float64_bits x).

(** Reading [n] bytes back as a big-endian unsigned integer. *)
Definition be_decode (bs : list byte) : Z :=
  fold_left (fun acc b => acc * 256 + Z_of_byte b) bs 0.

(** The Number a 64-bit pattern denotes, by the binary64 interchange
    format: bit 63 is the sign, bits 62 to 52 the exponent biased by 1023,
    bits 51 to 0 the fraction; exponent 0 is for zeros and subnormals,
    exponent 2047 for infinities and NaNs. *)
Definition float64_of_bits (bits : Z) : Number :=
  let sign := Z.odd (Z.shiftr bits 63) in
  let exponent := Z.land (Z.shiftr bits 52) 0x7FF in
  let fraction := Z.land bits (Z.ones 52) in
  if exponent =? 0 then
    match fraction with
    | Zpos m => S754_finite sign m (-1074)
    | _ => S754_zero sign
    end
  else if exponent =? 0x7FF then
    if fraction =? 0 then S754_infinity sign else S754_nan
  else
    match fraction + 2 ^ 52 with
    | Zpos m => S754_finite sign m (exponent - 1075)
    | _ => S754_nan
    end.

(** [view.setFloat64(offset, value, false)] on the buffer behind [view]. *)
Definition setFloat64 (buffer : list byte) (offset : nat) (value : Number)
  : Completion (list byte) :=
  if (length buffer <? offset + 8)%nat
  then Throw RangeError
  else Normal (splice buffer offset (float64_be value)).

(** [floatArray[i]] converted to a Number: a hole reads as NaN. *)
Definition float_at (floatArray : list Number) (i : nat) : Number :=
  nth i floatArray NaN.

(** The loop of [_serializeFloats], for the indices in [idx]. *)
Fixpoint serialize_loop (floatArray : list Number) (idx : list nat)
  (buffer : list byte) : Completion (list byte) :=
  match idx with
  | [] => Normal buffer
  | i :: rest =>
      cbind (setFloat64 buffer (i * 8) (float_at floatArray i))
            (serialize_loop floatArray rest)
  end.

Definition _serializeFloats (floatArray : list Number) : Completion Uint8Array :=
  let buffer := zeros (length floatArray * 8) in
  serialize_loop floatArray (seq 0 (length floatArray)) buffer.

(** The same bytes by the words of the contract: each value written as
    eight big-endian bytes, one after the other in sequence order. *)
Definition serialize_spec (floatArray : list Number) : list byte :=
  flat_map float64_be floatArray.

(* ------------------------------------------------------------------ *)
(** ** The host environment *)

Inductive EventTarget : Type := document | window.

Inductive TimerKind : Type := AnimationFrame | Interval | Timeout.

Record WindowMetrics : Type := {
  scrollX : Number;
  scrollY : Number;
  innerWidth : Number;
  innerHeight : Number
}.

(** What the instance reads from its host and what it changes there.  The
    clocks and the hardware random source are streams with a read position;
    [listeners] are the registrations of this instance's bound handlers;
    [timers] are the pending frame callbacks, intervals and timeouts;
    [maxArrayLength] is the longest typed array the engine allocates and
    [maxArguments] the largest number of arguments it passes in one call. *)
Record Host : Type := {
  performanceClock : nat -> Number;
  performanceReads : nat;
  dateClock : nat -> Number;
  dateReads : nat;
  randomSource : nat -> byte;
  randomDrawn : nat;
  metrics : WindowMetrics;
  hasDeviceMotionEvent : bool;
  maxArrayLength : Z;
  maxArguments : Z;
  listeners : list (EventTarget * string);
  nextHandle : nat;
  timers : list (TimerKind * nat);
  warnings : list string;
  yields : nat
}.

Definition set_performanceReads (v : nat) (h : Host) : Host :=
  {| performanceClock := performanceClock h; performanceReads := v;
     dateClock := dateClock h; dateReads := dateReads h;
     randomSource := randomSource h; randomDrawn := randomDrawn h;
     metrics := metrics h; hasDeviceMotionEvent := hasDeviceMotionEvent h;
     maxArrayLength := maxArrayLength h; maxArguments := maxArguments h;
     listeners := listeners h; nextHandle := nextHandle h;
     timers := timers h; warnings := warnings h; yields := yields h |}.

Definition set_dateReads (v : nat) (h : Host) : Host :=
  {| performanceClock := performanceClock h; performanceReads := performanceReads h;
     dateClock := dateClock h; dateReads := v;
     randomSource := randomSource h; randomDrawn := randomDrawn h;
     metrics := metrics h; hasDeviceMotionEvent := hasDeviceMotionEvent h;
     maxArrayLength := maxArrayLength h; maxArguments := maxArguments h;
     listeners := listeners h; nextHandle := nextHandle h;
     timers := timers h; warnings := warnings h; yields := yields h |}.

Definition set_randomDrawn (v : nat) (h : Host) : Host :=
  {| performanceClock := performanceClock h; performanceReads := performanceReads h;
     dateClock := dateClock h; dateReads := dateReads h;
     randomSource := randomSource h; randomDrawn := v;
     metrics := metrics h; hasDeviceMotionEvent := hasDeviceMotionEvent h;
     maxArrayLength := maxArrayLength h; maxArguments := maxArguments h;
     listeners := listeners h; nextHandle := nextHandle h;
     timers := timers h; warnings := warnings h; yields := yields h |}.

Definition set_listeners (v : list (EventTarget * string)) (h : Host) : Host :=
  {| performanceClock := performanceClock h; performanceReads := performanceReads h;
     dateClock := dateClock h; dateReads := dateReads h;
     randomSource := randomSource h; randomDrawn := randomDrawn h;
     metrics := metrics h; hasDeviceMotionEvent := hasDeviceMotionEvent h;
     maxArrayLength := maxArrayLength h; maxArguments := maxArguments h;
     listeners := v; nextHandle := nextHandle h;
     timers := timers h; warnings := warnings h; yields := yields h |}.

Definition set_timers (next : nat) (v : list (TimerKind * nat)) (h : Host) : Host :=
  {| performanceClock := performanceClock h; performanceReads := performanceReads h;
     dateClock := dateClock h; dateReads := dateReads h;
     randomSource := randomSource h; randomDrawn := randomDrawn h;
     metrics := metrics h; hasDeviceMotionEvent := hasDeviceMotionEvent h;
     maxArrayLength := maxArrayLength h; maxArguments := maxArguments h;
     listeners := listeners h; nextHandle := next;
     timers := v; warnings := warnings h; yields := yields h |}.

Definition set_warnings (v : list string) (h : Host) : Host :=
  {| performanceClock := performanceClock h; performanceReads := performanceReads h;
     dateClock := dateClock h; dateReads := dateReads h;
     randomSource := randomSource h; randomDrawn := randomDrawn h;
     metrics := metrics h; hasDeviceMotionEvent := hasDeviceMotionEvent h;
     maxArrayLength := maxArrayLength h; maxArguments := maxArguments h;
     listeners := listeners h; nextHandle := nextHandle h;
     timers := timers h; warnings := v; yields := yields h |}.

Definition set_yields (v : nat) (h : Host) : Host :=
  {| performanceClock := performanceClock h; performanceReads := performanceReads h;
     dateClock := dateClock h; dateReads := dateReads h;
     randomSource := randomSource h; randomDrawn := randomDrawn h;
     metrics := metrics h; hasDeviceMotionEvent := hasDeviceMotionEvent h;
     maxArrayLength := maxArrayLength h; maxArguments := maxArguments h;
     listeners := listeners h; nextHandle := nextHandle h;
     timers := timers h; warnings := warnings h; yields := v |}.

(** The two limits differ from engine to engine.  Every host is taken to
    allocate 65536 bytes, the most [crypto.getRandomValues] fills, and to
    pass 65536 arguments, the lowest hard limit among the engines; no
    typed array has 2^53 elements or more. *)
Definition arrayLimit (h : Host) : Z :=
  Z.max 65536 (Z.min (2 ^ 53 - 1) (maxArrayLength h)).

Definition argumentLimit (h : Host) : Z := Z.max 65536 (maxArguments h).

(* ------------------------------------------------------------------ *)
(** ** Methods: state over the host and the instance, with exceptions *)

Definition JS (T A : Type) : Type := Host * T -> Completion A * (Host * T).

Definition ret {T A} (a : A) : JS T A := fun w => (Normal a, w).

Definition throw {T A} (e : JsError) : JS T A := fun w => (Throw e, w).

Definition bind {T A B} (c : JS T A) (k : A -> JS T B) : JS T B :=
  fun w =>
    match c w with
    | (Normal a, w') => k a w'
    | (Throw e, w') => (Throw e, w')
    end.

Notation "x <- c ;; k" := (bind c (fun x => k))
  (at level 61, c at next level, right associativity).
Notation "c ;; k" := (bind c (fun _ => k))
  (at level 61, right associativity).

(** A pure computation that may throw. *)
Definition lift {T A} (c : Completion A) : JS T A := fun w => (c, w).

(** [this.field] and [this.field = v]. *)
Definition gets {T A} (f : T -> A) : JS T A := fun w => (Normal (f (snd w)), w).
Definition modify {T} (f : T -> T) : JS T unit :=
  fun w => (Normal tt, (fst w, f (snd w))).

Definition host_gets {T A} (f : Host -> A) : JS T A :=
  fun w => (Normal (f (fst w)), w).
Definition host_modify {T} (f : Host -> Host) : JS T unit :=
  fun w => (Normal tt, (f (fst w), snd w)).

Definition when {T} (b : bool) (c : JS T unit) : JS T unit :=
  if b then c else ret tt.

(** [for (const x of l) body(x)]. *)
Fixpoint forEach {T A} (l : list A) (body : A -> JS T unit) : JS T unit :=
  match l with
  | [] => ret tt
  | x :: rest => body x ;; forEach rest body
  end.

(** [performance.now()] and [Date.now()]. *)
Definition performance_now {T} : JS T Number :=
  h <- host_gets (fun h => h) ;;
  host_modify (set_performanceReads (S (performanceReads h))) ;;
  ret (performanceClock h (performanceReads h)).

Definition Date_now {T} : JS T Number :=
  h <- host_gets (fun h => h) ;;
  host_modify (set_dateReads (S (dateReads h))) ;;
  ret (dateClock h (dateReads h)).

(** [crypto.getRandomValues(array)]: at most 65536 bytes per call; the
    array is filled with the next bytes of the hardware source. *)
Definition getRandomValues {T} (array : Uint8Array) : JS T Uint8Array :=
  if 65536 <? len array then throw QuotaExceededError
  else
    h <- host_gets (fun h => h) ;;
    host_modify (set_randomDrawn (randomDrawn h + length array)) ;;
    ret (map (randomSource h) (seq (randomDrawn h) (length array))).

Definition eq_listener (a b : EventTarget * string) : bool :=
  match fst a, fst b with
  | document, document | window, window => String.eqb (snd a) (snd b)
  | _, _ => false
  end.

(** [target.addEventListener(type, handler, ...)]: registering the same
    handler twice keeps one registration. *)
Definition addEventListener {T} (target : EventTarget) (type : string) : JS T unit :=
  host_modify (fun h =>
    if existsb (eq_listener (target, type)) (listeners h) then h
    else set_listeners (listeners h ++ [(target, type)]) h).

Definition removeEventListener {T} (target : EventTarget) (type : string) : JS T unit :=
  host_modify (fun h =>
    set_listeners
      (filter (fun l => negb (eq_listener (target, type) l)) (listeners h)) h).

(** [requestAnimationFrame], [setInterval], [setTimeout]: a fresh non-zero
    handle. *)
Definition schedule {T} (kind : TimerKind) : JS T nat :=
  h <- host_gets (fun h => h) ;;
  let id := S (nextHandle h) in
  host_modify (set_timers id (timers h ++ [(kind, id)])) ;;
  ret id.

Definition eq_timer (a b : TimerKind * nat) : bool :=
  match fst a, fst b with
  | AnimationFrame, AnimationFrame | Interval, Interval | Timeout, Timeout =>
      Nat.eqb (snd a) (snd b)
  | _, _ => false
  end.

(** [cancelAnimationFrame], [clearInterval], [clearTimeout]. *)
Definition cancel {T} (kind : TimerKind) (id : nat) : JS T unit :=
  host_modify (fun h =>
    set_timers (nextHandle h)
      (filter (fun t => negb (eq_timer (kind, id) t)) (timers h)) h).

(** [await new Promise(resolve => setTimeout(resolve, 0))]. *)
Definition yield_to_scheduler {T} : JS T unit :=
  host_modify (fun h => set_yields (S (yields h)) h).

Definition console_warn {T} (message : string) : JS T unit :=
  host_modify (fun h => set_warnings (warnings h ++ [message]) h).

(** [crypto.subtle.digest]: SHA-256 gives 32 bytes, SHA-512 gives 64; what
    the host does for any other algorithm name is [digest_other]. *)
Class WebCrypto : Type := {
  sha256 : list byte -> list byte;
  sha512 : list byte -> list byte;
  digest_other : string -> list byte -> Completion (list byte);
  sha256_length : forall data, length (sha256 data) = 32%nat;
  sha512_length : forall data, length (sha512 data) = 64%nat
}.

Definition digest `{WebCrypto} (algorithm : string) (data : Uint8Array)
  : Completion Uint8Array :=
  if String.eqb algorithm "SHA-256" then Normal (sha256 data)
  else if String.eqb algorithm "SHA-512" then Normal (sha512 data)
  else digest_other algorithm data.

(** [await crypto.subtle.digest(algorithm, data)]. *)
Definition subtle_digest `{WebCrypto} {T} (algorithm : string) (data : Uint8Array)
  : JS T Uint8Array :=
  lift (digest algorithm data).

(** A stand-in digest of the right output sizes, to run the model on
    concrete inputs: a byte sum spread over the output. *)
Definition checksum (data : list byte) : Z :=
  fold_left (fun acc b => (acc * 31 + Z_of_byte b + 7) mod 65521) data 1.

Definition toy_digest (size : nat) (data : list byte) : list byte :=
  let c := checksum data in
  map (fun i => byte_of_Z (c * (Z.of_nat i + 3))) (seq 0 size).

Definition toy_digest_length (size : nat) (data : list byte)
  : length (toy_digest size data) = size :=
  eq_trans (length_map _ _) (length_seq _ _).

#[local] Instance toy_crypto : WebCrypto := {|
  sha256 := toy_digest 32;
  sha512 := toy_digest 64;
  digest_other := fun _ _ => Throw NotSupportedError;
  sha256_length := toy_digest_length 32;
  sha512_length := toy_digest_length 64
|}.

(* ------------------------------------------------------------------ *)
(** ** Event objects *)

Module MouseEvent.
Record t : Type := {
  clientX : Number; clientY : Number;
  movementX : Number; movementY : Number;
  screenX : Number; screenY : Number;
  button : Number; buttons : Number
}.
End MouseEvent.

Module KeyboardEvent.
Record t : Type := { keyCode : Number; which : Number; repeat : bool }.
End KeyboardEvent.

Module Touch.
Record t : Type := {
  clientX : Number; clientY : Number;
  force : Number; radiusX : Number; radiusY : Number
}.
End Touch.

Module TouchEvent.
Record t : Type := { touches : list Touch.t }.
End TouchEvent.

Module DeviceMotionEvent.
Record Acceleration : Type := { x : Number; y : Number; z : Number }.
Record RotationRate : Type := { alpha : Number; beta : Number; gamma : Number }.
Record t : Type := {
  accelerationIncludingGravity : option Acceleration;
  rotationRate : option RotationRate
}.
End DeviceMotionEvent.

(* ------------------------------------------------------------------ *)
(** ** The four threshold constants of the anti-tampering check *)

Record Consts : Type := {
  REQUIRED_MIN_EVENTS : Z;
  _VERIFY_A : Z;
  _VERIFY_B : Z;
  _VERIFY_C : Z
}.

(** The constants as the source declares them. *)
Definition builtin : Consts :=
  {| REQUIRED_MIN_EVENTS := 500;
     _VERIFY_A := 0x1F4;
     _VERIFY_B := 500;
     _VERIFY_C := 250 * 2 |}.

(** [REQUIRED_MIN_EVENTS !== _VERIFY_A || REQUIRED_MIN_EVENTS !== _VERIFY_B
     || REQUIRED_MIN_EVENTS !== _VERIFY_C]. *)
Definition constants_disagree (K : Consts) : bool :=
  negb (REQUIRED_MIN_EVENTS K =? _VERIFY_A K)
  || negb (REQUIRED_MIN_EVENTS K =? _VERIFY_B K)
  || negb (REQUIRED_MIN_EVENTS K =? _VERIFY_C K).

Definition integrity_error : JsError :=
  Error "Security integrity check failed: minimum events constant tampered".

(** A number inside a template literal. *)
Definition show (n : Z) : string := NilZero.string_of_int (Z.to_int n).

Definition insufficient_entropy_message (totalEvents pool timer : Z) : string :=
  String.append "Insufficient entropy. Weighted events: "
    (String.append (show totalEvents)
      (String.append "/500, "
        (String.append "Pool: "
          (String.append (show pool)
            (String.append ", Timer: " (show timer)))))).

Definition override_warning : string :=
  "ntrpRNG: minEvents override ignored. Hardcoded to 500 for security.".

(** [a[i] ^ b[i]] stored into a [Uint8Array]. *)
Definition byte_xor (a b : byte) : byte :=
  byte_of_Z (Z.lxor (Z_of_byte a) (Z_of_byte b)).

(* ------------------------------------------------------------------ *)
(** ** ntrpRNG.js, v1.3.0 *)

Module EventCount.
Record t : Type := {
  mouse : Z; keyboard : Z; touch : Z; scroll : Z; other : Z
}.
Definition zero : t :=
  {| mouse := 0; keyboard := 0; touch := 0; scroll := 0; other := 0 |}.
End EventCount.

Module Options.
Record t : Type := {
  iterations : option Z;
  saltSize : option Z;
  autoCollect : option bool;
  minEvents : option Z
}.
Definition empty : t :=
  {| iterations := None; saltSize := None; autoCollect := None;
     minEvents := None |}.
End Options.

Module Progress.
Record t : Type := {
  currentEvents : Z;
  requiredEvents : Z;
  percentage : Number;
  ready : bool
}.
End Progress.

Module Stats.
Record t : Type := {
  entropyPoolSize : Z;
  timerDeltasSize : Z;
  isCollecting : bool;
  eventCount : EventCount.t;
  totalEvents : Z;
  minEvents : Z;
  hasMinimumEntropy : bool
}.
End Stats.

Module ntrpRNG.

Record t : Type := {
  iterations : Z;
  saltSize : Z;
  autoCollect : bool;
  minEvents : Z;
  entropyPool : list Number;
  timerDeltas : list Number;
  lastTimestamp : Number;
  isCollecting : bool;
  eventCount : EventCount.t;
  timerId1 : option nat;
  timerId2 : option nat;
  rafId : option nat
}.

Definition set_entropyPool (v : list Number) (o : t) : t :=
  {| iterations := iterations o; saltSize := saltSize o;
     autoCollect := autoCollect o; minEvents := minEvents o;
     entropyPool := v; timerDeltas := timerDeltas o;
     lastTimestamp := lastTimestamp o; isCollecting := isCollecting o;
     eventCount := eventCount o; timerId1 := timerId1 o;
     timerId2 := timerId2 o; rafId := rafId o |}.

Definition set_timerDeltas (v : list Number) (o : t) : t :=
  {| iterations := iterations o; saltSize := saltSize o;
     autoCollect := autoCollect o; minEvents := minEvents o;
     entropyPool := entropyPool o; timerDeltas := v;
     lastTimestamp := lastTimestamp o; isCollecting := isCollecting o;
     eventCount := eventCount o; timerId1 := timerId1 o;
     timerId2 := timerId2 o; rafId := rafId o |}.

Definition set_lastTimestamp (v : Number) (o : t) : t :=
  {| iterations := iterations o; saltSize := saltSize o;
     autoCollect := autoCollect o; minEvents := minEvents o;
     entropyPool := entropyPool o; timerDeltas := timerDeltas o;
     lastTimestamp := v; isCollecting := isCollecting o;
     eventCount := eventCount o; timerId1 := timerId1 o;
     timerId2 := timerId2 o; rafId := rafId o |}.

Definition set_isCollecting (v : bool) (o : t) : t :=
  {| iterations := iterations o; saltSize := saltSize o;
     autoCollect := autoCollect o; minEvents := minEvents o;
     entropyPool := entropyPool o; timerDeltas := timerDeltas o;
     lastTimestamp := lastTimestamp o; isCollecting := v;
     eventCount := eventCount o; timerId1 := timerId1 o;
     timerId2 := timerId2 o; rafId := rafId o |}.

Definition set_eventCount (v : EventCount.t) (o : t) : t :=
  {| iterations := iterations o; saltSize := saltSize o;
     autoCollect := autoCollect o; minEvents := minEvents o;
     entropyPool := entropyPool o; timerDeltas := timerDeltas o;
     lastTimestamp := lastTimestamp o; isCollecting := isCollecting o;
     eventCount := v; timerId1 := timerId1 o;
     timerId2 := timerId2 o; rafId := rafId o |}.

Definition set_timerId1 (v : option nat) (o : t) : t :=
  {| iterations := iterations o; saltSize := saltSize o;
     autoCollect := autoCollect o; minEvents := minEvents o;
     entropyPool := entropyPool o; timerDeltas := timerDeltas o;
     lastTimestamp := lastTimestamp o; isCollecting := isCollecting o;
     eventCount := eventCount o; timerId1 := v;
     timerId2 := timerId2 o; rafId := rafId o |}.

Definition set_timerId2 (v : option nat) (o : t) : t :=
  {| iterations := iterations o; saltSize := saltSize o;
     autoCollect := autoCollect o; minEvents := minEvents o;
     entropyPool := entropyPool o; timerDeltas := timerDeltas o;
     lastTimestamp := lastTimestamp o; isCollecting := isCollecting o;
     eventCount := eventCount o; timerId1 := timerId1 o;
     timerId2 := v; rafId := rafId o |}.

Definition set_rafId (v : option nat) (o : t) : t :=
  {| iterations := iterations o; saltSize := saltSize o;
     autoCollect := autoCollect o; minEvents := minEvents o;
     entropyPool := entropyPool o; timerDeltas := timerDeltas o;
     lastTimestamp := lastTimestamp o; isCollecting := isCollecting o;
     eventCount := eventCount o; timerId1 := timerId1 o;
     timerId2 := timerId2 o; rafId := v |}.

(** [this.eventCount.<category> += weight]. *)
Definition add_mouse (w : Z) (c : EventCount.t) : EventCount.t :=
  {| EventCount.mouse := EventCount.mouse c + w;
     EventCount.keyboard := EventCount.keyboard c;
     EventCount.touch := EventCount.touch c;
     EventCount.scroll := EventCount.scroll c;
     EventCount.other := EventCount.other c |}.

Definition add_keyboard (w : Z) (c : EventCount.t) : EventCount.t :=
  {| EventCount.mouse := EventCount.mouse c;
     EventCount.keyboard := EventCount.keyboard c + w;
     EventCount.touch := EventCount.touch c;
     EventCount.scroll := EventCount.scroll c;
     EventCount.other := EventCount.other c |}.

Definition add_touch (w : Z) (c : EventCount.t) : EventCount.t :=
  {| EventCount.mouse := EventCount.mouse c;
     EventCount.keyboard := EventCount.keyboard c;
     EventCount.touch := EventCount.touch c + w;
     EventCount.scroll := EventCount.scroll c;
     EventCount.other := EventCount.other c |}.

Definition add_scroll (w : Z) (c : EventCount.t) : EventCount.t :=
  {| EventCount.mouse := EventCount.mouse c;
     EventCount.keyboard := EventCount.keyboard c;
     EventCount.touch := EventCount.touch c;
     EventCount.scroll := EventCount.scroll c + w;
     EventCount.other := EventCount.other c |}.

Definition add_other (w : Z) (c : EventCount.t) : EventCount.t :=
  {| EventCount.mouse := EventCount.mouse c;
     EventCount.keyboard := EventCount.keyboard c;
     EventCount.touch := EventCount.touch c;
     EventCount.scroll := EventCount.scroll c;
     EventCount.other := EventCount.other c + w |}.

Definition bump (f : EventCount.t -> EventCount.t) : JS t unit :=
  modify (fun o => set_eventCount (f (eventCount o)) o).

(** A handle field tested as a condition: [null] and 0 are falsy. *)
Definition truthy (id : option nat) : bool :=
  match id with
  | Some (S _) => true
  | _ => false
  end.

(** *** Timer jitter *)

Definition _collectTimerDelta : JS t unit :=
  now <- performance_now ;;
  last <- gets lastTimestamp ;;
  let delta := num_sub now last in
  modify (set_lastTimestamp now) ;;
  dateNow <- Date_now ;;
  modify (fun o => set_timerDeltas (timerDeltas o ++ [delta; dateNow]) o) ;;
  deltas <- gets timerDeltas ;;
  when (1000 <? len deltas)
    (modify (set_timerDeltas (slice_last 500 deltas))).

(** The three callbacks installed by [_startTimerJitter]. *)
Definition rafCollect : JS t unit :=
  collecting <- gets isCollecting ;;
  if negb collecting then ret tt
  else
    _collectTimerDelta ;;
    id <- schedule AnimationFrame ;;
    modify (set_rafId (Some id)).

Definition intervalCollect : JS t unit :=
  collecting <- gets isCollecting ;;
  when collecting _collectTimerDelta.

Definition recursiveTimeout : JS t unit :=
  collecting <- gets isCollecting ;;
  if negb collecting then ret tt
  else
    _collectTimerDelta ;;
    id <- schedule Timeout ;;
    modify (set_timerId2 (Some id)).

Definition _startTimerJitter : JS t unit :=
  raf <- schedule AnimationFrame ;;
  modify (set_rafId (Some raf)) ;;
  id1 <- schedule Interval ;;
  modify (set_timerId1 (Some id1)) ;;
  id2 <- schedule Timeout ;;
  modify (set_timerId2 (Some id2)).

Definition _stopTimerJitter : JS t unit :=
  id1 <- gets timerId1 ;;
  when (truthy id1)
    (cancel Interval (match id1 with Some i => i | None => O end) ;;
     modify (set_timerId1 None)) ;;
  id2 <- gets timerId2 ;;
  when (truthy id2)
    (cancel Timeout (match id2 with Some i => i | None => O end) ;;
     modify (set_timerId2 None)) ;;
  raf <- gets rafId ;;
  when (truthy raf)
    (cancel AnimationFrame (match raf with Some i => i | None => O end) ;;
     modify (set_rafId None)).

(** *** Collection control *)

Definition startCollecting : JS t unit :=
  collecting <- gets isCollecting ;;
  if collecting then ret tt
  else
    modify (set_isCollecting true) ;;
    addEventListener document "mousemove" ;;
    addEventListener document "mousedown" ;;
    addEventListener document "keydown" ;;
    addEventListener document "touchstart" ;;
    addEventListener document "touchmove" ;;
    addEventListener window "scroll" ;;
    supported <- host_gets hasDeviceMotionEvent ;;
    when supported (addEventListener window "devicemotion") ;;
    _startTimerJitter.

Definition stopCollecting : JS t unit :=
  collecting <- gets isCollecting ;;
  if negb collecting then ret tt
  else
    modify (set_isCollecting false) ;;
    removeEventListener document "mousemove" ;;
    removeEventListener document "mousedown" ;;
    removeEventListener document "keydown" ;;
    removeEventListener document "touchstart" ;;
    removeEventListener document "touchmove" ;;
    removeEventListener window "scroll" ;;
    supported <- host_gets hasDeviceMotionEvent ;;
    when supported (removeEventListener window "devicemotion") ;;
    _stopTimerJitter.

(** *** Behavioural entropy *)

(** [for (i ...) this.entropyPool.push(values[i])]. *)
Definition push_all (pool values : list Number) : list Number :=
  fold_left (fun p v => p ++ [v]) values pool.

Definition _addEntropy (values : list Number) : JS t unit :=
  modify (fun o => set_entropyPool (push_all (entropyPool o) values) o) ;;
  pool <- gets entropyPool ;;
  when (5000 <? len pool)
    (modify (set_entropyPool (slice_last 2500 pool))).

Definition _onMouseMove (e : MouseEvent.t) : JS t unit :=
  now <- performance_now ;;
  _addEntropy [now; MouseEvent.clientX e; MouseEvent.clientY e;
               or_zero (MouseEvent.movementX e);
               or_zero (MouseEvent.movementY e);
               MouseEvent.screenX e; MouseEvent.screenY e] ;;
  bump (add_mouse 1).

Definition _onMouseDown (e : MouseEvent.t) : JS t unit :=
  now <- performance_now ;;
  _addEntropy [now; MouseEvent.clientX e; MouseEvent.clientY e;
               MouseEvent.button e; MouseEvent.buttons e] ;;
  bump (add_mouse 2).

Definition _onKeyDown (e : KeyboardEvent.t) : JS t unit :=
  now <- performance_now ;;
  _addEntropy [now; KeyboardEvent.keyCode e; KeyboardEvent.which e;
               if KeyboardEvent.repeat e then num 1 else num 0] ;;
  bump (add_keyboard 3).

Definition _onTouchStart (e : TouchEvent.t) : JS t unit :=
  forEach (TouchEvent.touches e) (fun touch =>
    now <- performance_now ;;
    _addEntropy [now; Touch.clientX touch; Touch.clientY touch;
                 or_zero (Touch.force touch);
                 or_zero (Touch.radiusX touch);
                 or_zero (Touch.radiusY touch)]) ;;
  bump (add_touch 2).

Definition _onTouchMove (e : TouchEvent.t) : JS t unit :=
  forEach (TouchEvent.touches e) (fun touch =>
    now <- performance_now ;;
    _addEntropy [now; Touch.clientX touch; Touch.clientY touch]) ;;
  bump (add_touch 1).

Definition _onScroll : JS t unit :=
  now <- performance_now ;;
  m <- host_gets metrics ;;
  _addEntropy [now; scrollX m; scrollY m; innerWidth m; innerHeight m] ;;
  bump (add_scroll 1).

Definition _onDeviceMotion (e : DeviceMotionEvent.t) : JS t unit :=
  match DeviceMotionEvent.accelerationIncludingGravity e with
  | Some a =>
      now <- performance_now ;;
      let rate (f : DeviceMotionEvent.RotationRate -> Number) :=
        match DeviceMotionEvent.rotationRate e with
        | Some r => or_zero (f r)
        | None => num 0
        end in
      _addEntropy [now;
                   or_zero (DeviceMotionEvent.x a);
                   or_zero (DeviceMotionEvent.y a);
                   or_zero (DeviceMotionEvent.z a);
                   rate DeviceMotionEvent.alpha;
                   rate DeviceMotionEvent.beta;
                   rate DeviceMotionEvent.gamma] ;;
      bump (add_other 2)
  | None => ret tt
  end.

(** *** Salt, serialisation, combination *)

Definition generateSalt : JS t Uint8Array :=
  size <- gets saltSize ;;
  limit <- host_gets arrayLimit ;;
  salt <- lift (new_Uint8Array limit size) ;;
  getRandomValues salt.

Section Hashing.
Context `{WebCrypto}.

Definition combineEntropy (salt : Uint8Array) : JS t Uint8Array :=
  pool <- gets entropyPool ;;
  entropyBytes <- lift (_serializeFloats pool) ;;
  deltas <- gets timerDeltas ;;
  timerBytes <- lift (_serializeFloats deltas) ;;
  entropyHash <- subtle_digest "SHA-256" entropyBytes ;;
  timerHash <- subtle_digest "SHA-256" timerBytes ;;
  let totalLength :=
    (length entropyHash + length timerHash + length salt)%nat in
  let combined := zeros totalLength in
  let offset := O in
  combined <- lift (Uint8Array_set combined entropyHash offset) ;;
  let offset := (offset + length entropyHash)%nat in
  combined <- lift (Uint8Array_set combined timerHash offset) ;;
  let offset := (offset + length timerHash)%nat in
  combined <- lift (Uint8Array_set combined salt offset) ;;
  ret combined.

Definition batchSize : Z := 100.

(** The loop of [_iterativeHash] from index [i] on, [rounds] rounds
    being left. *)
Fixpoint iterate {T} (algorithm : string) (rounds : nat) (i : Z)
  (hash : Uint8Array) : JS T Uint8Array :=
  match rounds with
  | O => ret hash
  | S rounds' =>
      hash' <- subtle_digest algorithm hash ;;
      when ((i + 1) mod batchSize =? 0) yield_to_scheduler ;;
      iterate algorithm rounds' (i + 1) hash'
  end.

Definition _iterativeHash {T} (data : Uint8Array) (algorithm : string)
  (iterations : Z) : JS T Uint8Array :=
  iterate algorithm (Z.to_nat iterations) 0 data.

Definition _xorArrays (a b : Uint8Array) : Uint8Array :=
  map (fun p => byte_xor (fst p) (snd p)) (combine a b).

Definition _truncate512 (hash512 : Uint8Array) : Uint8Array :=
  slice_first 32 hash512.

(** *** Readiness *)

Definition _getWeightedEventCount : JS t Z :=
  c <- gets eventCount ;;
  ret (EventCount.mouse c + EventCount.keyboard c + EventCount.touch c
       + EventCount.scroll c + EventCount.other c).

Definition hasMinimumEntropy (K : Consts) : JS t bool :=
  threshold <- gets minEvents ;;
  if constants_disagree K || negb (threshold =? 500)
  then throw integrity_error
  else
    weightedEvents <- _getWeightedEventCount ;;
    pool <- gets entropyPool ;;
    deltas <- gets timerDeltas ;;
    ret ((500 <=? weightedEvents) && (0 <? len pool) && (0 <? len deltas)).

Definition getProgress : JS t Progress.t :=
  currentEvents <- _getWeightedEventCount ;;
  ret {| Progress.currentEvents := currentEvents;
         Progress.requiredEvents := 500;
         Progress.percentage :=
           Math_min (num 100)
             (num_mul (num_div (num currentEvents) (num 500)) (num 100));
         Progress.ready := 500 <=? currentEvents |}.

Definition getStats (K : Consts) : JS t Stats.t :=
  pool <- gets entropyPool ;;
  deltas <- gets timerDeltas ;;
  collecting <- gets isCollecting ;;
  counts <- gets eventCount ;;
  total <- _getWeightedEventCount ;;
  threshold <- gets minEvents ;;
  enough <- hasMinimumEntropy K ;;
  ret {| Stats.entropyPoolSize := len pool;
         Stats.timerDeltasSize := len deltas;
         Stats.isCollecting := collecting;
         Stats.eventCount := counts;
         Stats.totalEvents := total;
         Stats.minEvents := threshold;
         Stats.hasMinimumEntropy := enough |}.

Definition clearEntropy : JS t unit :=
  modify (set_entropyPool []) ;;
  modify (set_timerDeltas []) ;;
  modify (set_eventCount EventCount.zero).

(** *** Seed generation *)

Definition generateSeed (K : Consts) (skipValidation : bool)
  : JS t Uint8Array :=
  threshold <- gets minEvents ;;
  if constants_disagree K || negb (threshold =? 500)
  then throw integrity_error
  else
    insufficient <-
      (if negb skipValidation
       then (enough <- hasMinimumEntropy K ;; ret (negb enough))
       else ret false) ;;
    if insufficient : bool
    then
      stats <- getStats K ;;
      pool <- gets entropyPool ;;
      deltas <- gets timerDeltas ;;
      throw (Error (insufficient_entropy_message
                      (Stats.totalEvents stats) (len pool) (len deltas)))
    else
      salt <- generateSalt ;;
      (* Path A *)
      combined <- combineEntropy salt ;;
      preHash <- subtle_digest "SHA-256" combined ;;
      rounds <- gets iterations ;;
      hash256_A <- _iterativeHash preHash "SHA-256" rounds ;;
      rounds <- gets iterations ;;
      hash512_A_full <- _iterativeHash preHash "SHA-512" rounds ;;
      let hash512_A := _truncate512 hash512_A_full in
      let user_final := _xorArrays hash256_A hash512_A in
      (* Path B *)
      random_bytes <- getRandomValues (zeros 64) ;;
      hash256_B <- subtle_digest "SHA-256" random_bytes ;;
      hash512_B_full <- subtle_digest "SHA-512" random_bytes ;;
      let hash512_B := _truncate512 hash512_B_full in
      let csprng_final := _xorArrays hash256_B hash512_B in
      (* Final mixing *)
      let finalInputLength :=
        (length user_final + length csprng_final + length salt)%nat in
      let finalInput := zeros finalInputLength in
      let offset := O in
      finalInput <- lift (Uint8Array_set finalInput user_final offset) ;;
      let offset := (offset + length user_final)%nat in
      finalInput <- lift (Uint8Array_set finalInput csprng_final offset) ;;
      let offset := (offset + length csprng_final)%nat in
      finalInput <- lift (Uint8Array_set finalInput salt offset) ;;
      intermediate <- subtle_digest "SHA-512" finalInput ;;
      finalSeed <- subtle_digest "SHA-512" intermediate ;;
      ret finalSeed.
End Hashing.

(** *** Construction *)

(** [option || fallback] for a numeric option. *)
Definition or_default (o : option Z) (fallback : Z) : Z :=
  match o with
  | Some v => if v =? 0 then fallback else v
  | None => fallback
  end.

(** [options.minEvents !== undefined && options.minEvents !== 500]. *)
Definition override_requested (options : Options.t) : bool :=
  match Options.minEvents options with
  | Some v => negb (v =? 500)
  | None => false
  end.

(** The fields as the constructor assigns them before it reads the clock
    and, with [autoCollect], starts collecting. *)
Definition fields (options : Options.t) : t :=
  {| iterations := or_default (Options.iterations options) 5000;
     saltSize := or_default (Options.saltSize options) 32;
     autoCollect :=
       match Options.autoCollect options with
       | Some false => false
       | _ => true
       end;
     minEvents := 500;
     entropyPool := [];
     timerDeltas := [];
     lastTimestamp := NaN;
     isCollecting := false;
     eventCount := EventCount.zero;
     timerId1 := None;
     timerId2 := None;
     rafId := None |}.

Definition constructor_body (options : Options.t) : JS t unit :=
  when (override_requested options) (console_warn override_warning) ;;
  now <- performance_now ;;
  modify (set_lastTimestamp now) ;;
  auto <- gets autoCollect ;;
  when auto startCollecting.

Definition constructor (K : Consts) (options : Options.t) (h : Host)
  : Completion t * Host :=
  if constants_disagree K then (Throw integrity_error, h)
  else
    match constructor_body options (h, fields options) with
    | (Normal _, (h', this)) => (Normal this, h')
    | (Throw e, (h', _)) => (Throw e, h')
    end.

(** *** Encodings *)

(** The digit that [Number.prototype.toString(16)] writes for a value
    below 16. *)
Definition hex_digit (d : Z) : ascii :=
  if d <? 10 then ascii_of_N (Z.to_N (48 + d))
  else ascii_of_N (Z.to_N (87 + d)).

(** [b.toString(16)] for an element of a [Uint8Array]: one or two digits. *)
Definition toString16 (b : byte) : string :=
  let n := Z_of_byte b in
  if n <? 16 then String (hex_digit n) EmptyString
  else String (hex_digit (n / 16)) (String (hex_digit (n mod 16)) EmptyString).

(** [s.padStart(2, '0')]. *)
Definition padStart2 (s : string) : string :=
  match String.length s with
  | O => String "0" (String "0" EmptyString)
  | S O => String "0" s
  | _ => s
  end.

Definition toHex (bytes : Uint8Array) : string :=
  String.concat EmptyString (map (fun b => padStart2 (toString16 b)) bytes).

(** [String.fromCharCode(...bytes)]: one character per byte, of that
    code.  The bytes are spread as the arguments of one call, which the
    engine refuses with a [RangeError] beyond its argument limit. *)
Definition String_fromCharCode {T} (bytes : Uint8Array) : JS T string :=
  limit <- host_gets argumentLimit ;;
  if limit <? len bytes then throw RangeError
  else ret (string_of_list_byte bytes).

Definition char_code (c : ascii) : Z := Z.of_N (N_of_ascii c).

(** The base64 alphabet. *)
Definition base64_char (n : Z) : ascii :=
  if n <? 26 then ascii_of_N (Z.to_N (65 + n))
  else if n <? 52 then ascii_of_N (Z.to_N (97 + (n - 26)))
  else if n <? 62 then ascii_of_N (Z.to_N (48 + (n - 52)))
  else if n =? 62 then "+"%char
  else "/"%char.

(** [btoa(s)] on a string of characters with codes up to 255: base64 with
    [=] padding. *)
Fixpoint btoa (s : string) : string :=
  match s with
  | EmptyString => EmptyString
  | String a EmptyString =>
      let a := char_code a in
      String (base64_char (a / 4))
        (String (base64_char (a mod 4 * 16))
           (String "=" (String "=" EmptyString)))
  | String a (String b EmptyString) =>
      let a := char_code a in
      let b := char_code b in
      String (base64_char (a / 4))
        (String (base64_char (a mod 4 * 16 + b / 16))
           (String (base64_char (b mod 16 * 4))
              (String "=" EmptyString)))
  | String a (String b (String c rest)) =>
      let a := char_code a in
      let b := char_code b in
      let c := char_code c in
      String (base64_char (a / 4))
        (String (base64_char (a mod 4 * 16 + b / 16))
           (String (base64_char (b mod 16 * 4 + c / 64))
              (String (base64_char (c mod 64)) (btoa rest))))
  end.

Definition toBase64 {T} (bytes : Uint8Array) : JS T string :=
  binary <- String_fromCharCode bytes ;;
  ret (btoa binary).

Definition generateSeedHex `{WebCrypto} (K : Consts) (skipValidation : bool)
  : JS t string :=
  seed <- generateSeed K skipValidation ;;
  ret (toHex seed).

Definition generateSeedBase64 `{WebCrypto} (K : Consts) (skipValidation : bool)
  : JS t string :=
  seed <- generateSeed K skipValidation ;;
  toBase64 seed.

End ntrpRNG.

(** *** Sequences of events and of operations on an instance *)

Inductive Event : Type :=
| MouseMove (e : MouseEvent.t)
| MouseDown (e : MouseEvent.t)
| KeyDown (e : KeyboardEvent.t)
| TouchStart (e : TouchEvent.t)
| TouchMove (e : TouchEvent.t)
| Scroll
| DeviceMotion (e : DeviceMotionEvent.t).

(** The handler bound to each event type. *)
Definition handle (ev : Event) : JS ntrpRNG.t unit :=
  match ev with
  | MouseMove e => ntrpRNG._onMouseMove e
  | MouseDown e => ntrpRNG._onMouseDown e
  | KeyDown e => ntrpRNG._onKeyDown e
  | TouchStart e => ntrpRNG._onTouchStart e
  | TouchMove e => ntrpRNG._onTouchMove e
  | Scroll => ntrpRNG._onScroll
  | DeviceMotion e => ntrpRNG._onDeviceMotion e
  end.

(** Everything that can run against an instance once it is constructed:
    the event handlers, the three timer callbacks and the public methods
    ([generateSeedHex] and [generateSeedBase64] are [generateSeed] followed
    by a re-encoding of its result). *)
Inductive Operation : Type :=
| Dispatch (ev : Event)
| FrameCallback
| IntervalCallback
| TimeoutCallback
| StartCollecting
| StopCollecting
| ClearEntropy
| GenerateSalt
| CombineEntropy (salt : Uint8Array)
| HasMinimumEntropy
| GetProgress
| GetStats
| GenerateSeed (skipValidation : bool).

Definition discard {T A} (c : JS T A) : JS T unit := fun w =>
  match c w with
  | (Normal _, w') => (Normal tt, w')
  | (Throw e, w') => (Throw e, w')
  end.

Definition perform `{WebCrypto} (op : Operation) : JS ntrpRNG.t unit :=
  match op with
  | Dispatch ev => handle ev
  | FrameCallback => ntrpRNG.rafCollect
  | IntervalCallback => ntrpRNG.intervalCollect
  | TimeoutCallback => ntrpRNG.recursiveTimeout
  | StartCollecting => ntrpRNG.startCollecting
  | StopCollecting => ntrpRNG.stopCollecting
  | ClearEntropy => ntrpRNG.clearEntropy
  | GenerateSalt => discard ntrpRNG.generateSalt
  | CombineEntropy salt => discard (ntrpRNG.combineEntropy salt)
  | HasMinimumEntropy => discard (ntrpRNG.hasMinimumEntropy builtin)
  | GetProgress => discard ntrpRNG.getProgress
  | GetStats => discard (ntrpRNG.getStats builtin)
  | GenerateSeed skip => discard (ntrpRNG.generateSeed builtin skip)
  end.

(** The state after a computation, whether it returned or threw. *)
Definition after {T A} (c : JS T A) (w : Host * T) : Host * T := snd (c w).

(** The state after a sequence of operations; one that throws leaves the
    state it reached and the caller goes on. *)
Definition perform_all `{WebCrypto} (ops : list Operation)
  (w : Host * ntrpRNG.t) : Host * ntrpRNG.t :=
  fold_left (fun w op => after (perform op) w) ops w.

Definition dispatch_all (evs : list Event) (w : Host * ntrpRNG.t)
  : Host * ntrpRNG.t :=
  fold_left (fun w ev => after (handle ev) w) evs w.

(** Weights and occurrence counts, by the words of the documentation:
    key = 3; press, touch start and device motion = 2; moves and scroll = 1.
    A device-motion event without [accelerationIncludingGravity] records
    nothing. *)
Inductive Category : Type :=
| keydown | mousedown | touchstart | devicemotion
| mousemove | touchmove | scroll_.

Definition weight (c : Category) : Z :=
  match c with
  | keydown => 3
  | mousedown | touchstart | devicemotion => 2
  | mousemove | touchmove | scroll_ => 1
  end.

Definition recorded_as (c : Category) (ev : Event) : bool :=
  match c, ev with
  | keydown, KeyDown _ => true
  | mousedown, MouseDown _ => true
  | touchstart, TouchStart _ => true
  | devicemotion, DeviceMotion e =>
      match DeviceMotionEvent.accelerationIncludingGravity e with
      | Some _ => true
      | None => false
      end
  | mousemove, MouseMove _ => true
  | touchmove, TouchMove _ => true
  | scroll_, Scroll => true
  | _, _ => false
  end.

Definition occurrences (c : Category) (evs : list Event) : Z :=
  len (filter (recorded_as c) evs).

Definition categories : list Category :=
  [keydown; mousedown; touchstart; devicemotion; mousemove; touchmove; scroll_].

Definition weighted_sum (evs : list Event) : Z :=
  fold_right (fun c acc => occurrences c evs * weight c + acc) 0 categories.

Definition weightedTotal (o : ntrpRNG.t) : Z :=
  let c := ntrpRNG.eventCount o in
  EventCount.mouse c + EventCount.keyboard c + EventCount.touch c
  + EventCount.scroll c + EventCount.other c.

(* ------------------------------------------------------------------ *)
(** ** ntrpRNG.js, v1.2.1: the iterative hash without batching *)

Module ntrpRNG_1_2_1.
Section Hashing.
Context `{WebCrypto}.

Fixpoint iterate {T} (algorithm : string) (rounds : nat)
  (hash : Uint8Array) : JS T Uint8Array :=
  match rounds with
  | O => ret hash
  | S rounds' =>
      hash' <- subtle_digest algorithm hash ;;
      iterate algorithm rounds' hash'
  end.

Definition _iterativeHash {T} (data : Uint8Array) (algorithm : string)
  (iterations : Z) : JS T Uint8Array :=
  iterate algorithm (Z.to_nat iterations) data.
End Hashing.
(** *** The rest of the class

    The instance has the same fields as in v1.3.0, and [startCollecting],
    [stopCollecting], the timer functions, [_collectTimerDelta],
    [_addEntropy], [generateSalt], [_serializeFloats], [combineEntropy],
    [_xorArrays], [_truncate512], [clearEntropy] and the encodings read the
    same in both versions: they are taken from [ntrpRNG].  The handlers
    differ in that every counter moves by one. *)

Definition _onMouseMove (e : MouseEvent.t) : JS ntrpRNG.t unit :=
  now <- performance_now ;;
  ntrpRNG._addEntropy [now; MouseEvent.clientX e; MouseEvent.clientY e;
                       or_zero (MouseEvent.movementX e);
                       or_zero (MouseEvent.movementY e);
                       MouseEvent.screenX e; MouseEvent.screenY e] ;;
  ntrpRNG.bump (ntrpRNG.add_mouse 1).

Definition _onMouseDown (e : MouseEvent.t) : JS ntrpRNG.t unit :=
  now <- performance_now ;;
  ntrpRNG._addEntropy [now; MouseEvent.clientX e; MouseEvent.clientY e;
                       MouseEvent.button e; MouseEvent.buttons e] ;;
  ntrpRNG.bump (ntrpRNG.add_mouse 1).

Definition _onKeyDown (e : KeyboardEvent.t) : JS ntrpRNG.t unit :=
  now <- performance_now ;;
  ntrpRNG._addEntropy [now; KeyboardEvent.keyCode e; KeyboardEvent.which e;
                       if KeyboardEvent.repeat e then num 1 else num 0] ;;
  ntrpRNG.bump (ntrpRNG.add_keyboard 1).

Definition _onTouchStart (e : TouchEvent.t) : JS ntrpRNG.t unit :=
  forEach (TouchEvent.touches e) (fun touch =>
    now <- performance_now ;;
    ntrpRNG._addEntropy [now; Touch.clientX touch; Touch.clientY touch;
                         or_zero (Touch.force touch);
                         or_zero (Touch.radiusX touch);
                         or_zero (Touch.radiusY touch)]) ;;
  ntrpRNG.bump (ntrpRNG.add_touch 1).

Definition _onTouchMove (e : TouchEvent.t) : JS ntrpRNG.t unit :=
  forEach (TouchEvent.touches e) (fun touch =>
    now <- performance_now ;;
    ntrpRNG._addEntropy [now; Touch.clientX touch; Touch.clientY touch]) ;;
  ntrpRNG.bump (ntrpRNG.add_touch 1).

Definition _onScroll : JS ntrpRNG.t unit :=
  now <- performance_now ;;
  m <- host_gets metrics ;;
  ntrpRNG._addEntropy [now; scrollX m; scrollY m; innerWidth m; innerHeight m] ;;
  ntrpRNG.bump (ntrpRNG.add_scroll 1).

Definition _onDeviceMotion (e : DeviceMotionEvent.t) : JS ntrpRNG.t unit :=
  match DeviceMotionEvent.accelerationIncludingGravity e with
  | Some a =>
      now <- performance_now ;;
      let rate (f : DeviceMotionEvent.RotationRate -> Number) :=
        match DeviceMotionEvent.rotationRate e with
        | Some r => or_zero (f r)
        | None => num 0
        end in
      ntrpRNG._addEntropy [now;
                           or_zero (DeviceMotionEvent.x a);
                           or_zero (DeviceMotionEvent.y a);
                           or_zero (DeviceMotionEvent.z a);
                           rate DeviceMotionEvent.alpha;
                           rate DeviceMotionEvent.beta;
                           rate DeviceMotionEvent.gamma] ;;
      ntrpRNG.bump (ntrpRNG.add_other 1)
  | None => ret tt
  end.

(** [Object.values(this.eventCount).reduce((a, b) => a + b, 0)]. *)
Definition totalEvents : JS ntrpRNG.t Z :=
  c <- gets ntrpRNG.eventCount ;;
  ret (fold_left Z.add
         [EventCount.mouse c; EventCount.keyboard c; EventCount.touch c;
          EventCount.scroll c; EventCount.other c] 0).

Definition hasMinimumEntropy : JS ntrpRNG.t bool :=
  total <- totalEvents ;;
  threshold <- gets ntrpRNG.minEvents ;;
  pool <- gets ntrpRNG.entropyPool ;;
  deltas <- gets ntrpRNG.timerDeltas ;;
  ret ((threshold <=? total) && (0 <? len pool) && (0 <? len deltas)).

Definition getStats : JS ntrpRNG.t Stats.t :=
  pool <- gets ntrpRNG.entropyPool ;;
  deltas <- gets ntrpRNG.timerDeltas ;;
  collecting <- gets ntrpRNG.isCollecting ;;
  counts <- gets ntrpRNG.eventCount ;;
  total <- totalEvents ;;
  threshold <- gets ntrpRNG.minEvents ;;
  enough <- hasMinimumEntropy ;;
  ret {| Stats.entropyPoolSize := len pool;
         Stats.timerDeltasSize := len deltas;
         Stats.isCollecting := collecting;
         Stats.eventCount := counts;
         Stats.totalEvents := total;
         Stats.minEvents := threshold;
         Stats.hasMinimumEntropy := enough |}.

Definition insufficient_entropy_message (totalEvents minEvents pool timer : Z)
  : string :=
  String.append "Insufficient entropy. Events: "
    (String.append (show totalEvents)
      (String.append "/"
        (String.append (show minEvents)
          (String.append ", "
            (String.append "Pool: "
              (String.append (show pool)
                (String.append ", Timer: " (show timer)))))))).

Definition generateSeed `{WebCrypto} (skipValidation : bool)
  : JS ntrpRNG.t Uint8Array :=
  insufficient <-
    (if negb skipValidation
     then (enough <- hasMinimumEntropy ;; ret (negb enough))
     else ret false) ;;
  if insufficient : bool
  then
    stats <- getStats ;;
    threshold <- gets ntrpRNG.minEvents ;;
    pool <- gets ntrpRNG.entropyPool ;;
    deltas <- gets ntrpRNG.timerDeltas ;;
    throw (Error (insufficient_entropy_message
                    (Stats.totalEvents stats) threshold
                    (len pool) (len deltas)))
  else
    salt <- ntrpRNG.generateSalt ;;
    combined <- ntrpRNG.combineEntropy salt ;;
    preHash <- subtle_digest "SHA-256" combined ;;
    rounds <- gets ntrpRNG.iterations ;;
    hash256 <- _iterativeHash preHash "SHA-256" rounds ;;
    rounds <- gets ntrpRNG.iterations ;;
    hash512Full <- _iterativeHash preHash "SHA-512" rounds ;;
    let hash512 := ntrpRNG._truncate512 hash512Full in
    let xorResult := ntrpRNG._xorArrays hash256 hash512 in
    let finalInputLength :=
      (length xorResult + length hash256 + length hash512)%nat in
    let finalInput := zeros finalInputLength in
    let offset := O in
    finalInput <- lift (Uint8Array_set finalInput xorResult offset) ;;
    let offset := (offset + length xorResult)%nat in
    finalInput <- lift (Uint8Array_set finalInput hash256 offset) ;;
    let offset := (offset + length hash256)%nat in
    finalInput <- lift (Uint8Array_set finalInput hash512 offset) ;;
    finalSeed <- subtle_digest "SHA-512" finalInput ;;
    ret finalSeed.

Definition fields (options : Options.t) : ntrpRNG.t :=
  {| ntrpRNG.iterations := ntrpRNG.or_default (Options.iterations options) 5000;
     ntrpRNG.saltSize := ntrpRNG.or_default (Options.saltSize options) 32;
     ntrpRNG.autoCollect :=
       match Options.autoCollect options with
       | Some false => false
       | _ => true
       end;
     ntrpRNG.minEvents := ntrpRNG.or_default (Options.minEvents options) 0;
     ntrpRNG.entropyPool := [];
     ntrpRNG.timerDeltas := [];
     ntrpRNG.lastTimestamp := NaN;
     ntrpRNG.isCollecting := false;
     ntrpRNG.eventCount := EventCount.zero;
     ntrpRNG.timerId1 := None;
     ntrpRNG.timerId2 := None;
     ntrpRNG.rafId := None |}.

Definition constructor_body : JS ntrpRNG.t unit :=
  now <- performance_now ;;
  modify (ntrpRNG.set_lastTimestamp now) ;;
  auto <- gets ntrpRNG.autoCollect ;;
  when auto ntrpRNG.startCollecting.

Definition constructor (options : Options.t) (h : Host)
  : Completion ntrpRNG.t * Host :=
  match constructor_body (h, fields options) with
  | (Normal _, (h', this)) => (Normal this, h')
  | (Throw e, (h', _)) => (Throw e, h')
  end.

(** The handler bound to each event type. *)
Definition handle (ev : Event) : JS ntrpRNG.t unit :=
  match ev with
  | MouseMove e => _onMouseMove e
  | MouseDown e => _onMouseDown e
  | KeyDown e => _onKeyDown e
  | TouchStart e => _onTouchStart e
  | TouchMove e => _onTouchMove e
  | Scroll => _onScroll
  | DeviceMotion e => _onDeviceMotion e
  end.

Definition dispatch_all (evs : list Event) (w : Host * ntrpRNG.t)
  : Host * ntrpRNG.t :=
  fold_left (fun w ev => after (handle ev) w) evs w.

End ntrpRNG_1_2_1.

(* ------------------------------------------------------------------ *)
(** ** cgRNDV.js: the baseline over [crypto.getRandomValues] *)

Module cgRNDV.

Record t : Type := {
  iterations : Z;
  saltSize : Z;
  autoCollect : bool;
  minEvents : Z;
  isCollecting : bool;
  entropyPool : list Number;
  timerDeltas : list Number;
  eventCount : EventCount.t
}.

Definition set_isCollecting (v : bool) (o : t) : t :=
  {| iterations := iterations o; saltSize := saltSize o;
     autoCollect := autoCollect o; minEvents := minEvents o;
     isCollecting := v; entropyPool := entropyPool o;
     timerDeltas := timerDeltas o; eventCount := eventCount o |}.

Definition cleared (o : t) : t :=
  {| iterations := iterations o; saltSize := saltSize o;
     autoCollect := autoCollect o; minEvents := minEvents o;
     isCollecting := isCollecting o; entropyPool := [];
     timerDeltas := []; eventCount := EventCount.zero |}.

Definition startCollecting : JS t unit := modify (set_isCollecting true).

Definition stopCollecting : JS t unit := modify (set_isCollecting false).

Definition constructor (options : Options.t) (h : Host) : Completion t * Host :=
  let this :=
    {| iterations := ntrpRNG.or_default (Options.iterations options) 5000;
       saltSize := ntrpRNG.or_default (Options.saltSize options) 32;
       autoCollect :=
         match Options.autoCollect options with
         | Some false => false
         | _ => true
         end;
       minEvents := ntrpRNG.or_default (Options.minEvents options) 0;
       isCollecting := false;
       entropyPool := [];
       timerDeltas := [];
       eventCount := EventCount.zero |} in
  match when (autoCollect this) startCollecting (h, this) with
  | (Normal _, (h', this')) => (Normal this', h')
  | (Throw e, (h', _)) => (Throw e, h')
  end.

Definition generateSalt : JS t Uint8Array :=
  size <- gets saltSize ;;
  limit <- host_gets arrayLimit ;;
  salt <- lift (new_Uint8Array limit size) ;;
  getRandomValues salt.

Definition combineEntropy (salt : Uint8Array) : JS t Uint8Array := ret salt.

Definition hasMinimumEntropy : JS t bool := ret true.

Definition generateSeed (skipValidation : bool) : JS t Uint8Array :=
  getRandomValues (zeros 64).

Definition getStats : JS t Stats.t :=
  collecting <- gets isCollecting ;;
  counts <- gets eventCount ;;
  threshold <- gets minEvents ;;
  ret {| Stats.entropyPoolSize := 0;
         Stats.timerDeltasSize := 0;
         Stats.isCollecting := collecting;
         Stats.eventCount := counts;
         Stats.totalEvents := 0;
         Stats.minEvents := threshold;
         Stats.hasMinimumEntropy := true |}.

Definition clearEntropy : JS t unit := modify cleared.

(** The calls a client can make on a constructed instance
    ([generateSeedHex] and [generateSeedBase64] are [generateSeed]
    followed by a re-encoding of its result). *)
Inductive Call : Type :=
| StartCollecting
| StopCollecting
| GenerateSalt
| CombineEntropy (salt : Uint8Array)
| HasMinimumEntropy
| GenerateSeed (skipValidation : bool)
| GetStats
| ClearEntropy.

Definition perform (c : Call) : JS t unit :=
  match c with
  | StartCollecting => startCollecting
  | StopCollecting => stopCollecting
  | GenerateSalt => discard generateSalt
  | CombineEntropy salt => discard (combineEntropy salt)
  | HasMinimumEntropy => discard hasMinimumEntropy
  | GenerateSeed skip => discard (generateSeed skip)
  | GetStats => discard getStats
  | ClearEntropy => clearEntropy
  end.

Definition perform_all (calls : list Call) (w : Host * t) : Host * t :=
  fold_left (fun w c => after (perform c) w) calls w.

(** *** Encodings: the same text as in [ntrpRNG] *)

Definition toHex (bytes : Uint8Array) : string := ntrpRNG.toHex bytes.

Definition toBase64 (bytes : Uint8Array) : JS t string :=
  ntrpRNG.toBase64 bytes.

Definition generateSeedHex (skipValidation : bool) : JS t string :=
  seed <- generateSeed skipValidation ;;
  ret (toHex seed).

Definition generateSeedBase64 (skipValidation : bool) : JS t string :=
  seed <- generateSeed skipValidation ;;
  toBase64 seed.

End cgRNDV.

(* ------------------------------------------------------------------ *)
(** ** tools/dashboard.js: a row of the CSV export *)

Module dashboard.

Definition quote : ascii := "034"%char.

(** [s.replace(/QUOTE/g, QUOTE QUOTE)]: every quote is doubled. *)
Fixpoint double_quotes (s : string) : string :=
  match s with
  | EmptyString => EmptyString
  | String c rest =>
      if Ascii.eqb c quote
      then String quote (String quote (double_quotes rest))
      else String c (double_quotes rest)
  end.

(** [escapeCsvField]: the field between quotes, its own quotes doubled. *)
Definition escapeCsvField (field : string) : string :=
  String quote (String.append (double_quotes field) (String quote EmptyString)).

(** [array.join(sep)]. *)
Fixpoint join (sep : string) (l : list string) : string :=
  match l with
  | [] => EmptyString
  | x :: rest =>
      match rest with
      | [] => x
      | _ => String.append x (String.append sep (join sep rest))
      end
  end.

(** [fields.map(escapeCsvField).join(',')], the text of one row. *)
Definition row (fields : list string) : string :=
  join "," (map escapeCsvField fields).

End dashboard.

(** A host to run the model on. *)
Definition sample_host : Host :=
  {| performanceClock :=
       fun n => nth n [num 1000; num 1016; num 1033; num 1049] (num 1066);
     performanceReads := 0;
     dateClock :=
       fun n => nth n [num 1700000000000; num 1700000000016]
                  (num 1700000000033);
     dateReads := 0;
     randomSource :=
       fun n => nth n [x9e; x37; x79; xb9; x7f; x4a; x7c; x15;
                       xf3; x9c; xc0; x60; x5c; xed; xc8; x34]
                  (if Nat.even n then x5a else xc3);
     randomDrawn := 0;
     metrics := {| scrollX := num 0; scrollY := num 120;
                   innerWidth := num 1280; innerHeight := num 720 |};
     hasDeviceMotionEvent := true;
     maxArrayLength := 4294967296;
     maxArguments := 120000;
     listeners := [];
     nextHandle := 0;
     timers := [];
     warnings := [];
     yields := 0 |}.

(** An instance on that host, part of the way through a collection. *)
Definition sample_instance : ntrpRNG.t :=
  {| ntrpRNG.iterations := 3;
     ntrpRNG.saltSize := 32;
     ntrpRNG.autoCollect := false;
     ntrpRNG.minEvents := 500;
     ntrpRNG.entropyPool := [num 1000; num 65; num 65; num 0];
     ntrpRNG.timerDeltas := [num 16; num 1700000000000];
     ntrpRNG.lastTimestamp := num 1000;
     ntrpRNG.isCollecting := true;
     ntrpRNG.eventCount :=
       {| EventCount.mouse := 120; EventCount.keyboard := 300;
          EventCount.touch := 0; EventCount.scroll := 80;
          EventCount.other := 0 |};
     ntrpRNG.timerId1 := Some 2%nat;
     ntrpRNG.timerId2 := Some 3%nat;
     ntrpRNG.rafId := Some 1%nat |}.

(* ------------------------------------------------------------------ *)
(** ** Notions used to state the properties *)

(** An observation of the state that a computation leaves unchanged,
    whether it returns or throws. *)
Definition stable {T A X} (f : Host * T -> X) (c : JS T A) : Prop :=
  forall w, f (snd (c w)) = f w.

(** An invariant of the state that a computation preserves. *)
Definition maintains {T A} (I : Host * T -> Prop) (c : JS T A) : Prop :=
  forall w, I w -> I (snd (c w)).

(** A computation that always returns normally. *)
Definition never_throws {T A} (c : JS T A) : Prop :=
  forall w, exists a, fst (c w) = Normal a.

(** [n] rounds of a hash function, each over the previous output. *)
Fixpoint hash_chain (f : Uint8Array -> Uint8Array) (n : nat) (x : Uint8Array)
  : Uint8Array :=
  match n with
  | O => x
  | S n' => hash_chain f n' (f x)
  end.

(** The same rounds through [crypto.subtle.digest], which may reject. *)
Fixpoint digest_chain `{WebCrypto} (algorithm : string) (n : nat)
  (x : Uint8Array) : Completion Uint8Array :=
  match n with
  | O => Normal x
  | S n' => cbind (digest algorithm x) (digest_chain algorithm n')
  end.

(** The number of rounds, among [rounds] rounds from index [i] on, after
    which the batched loop yields. *)
Fixpoint batches (i : Z) (rounds : nat) : nat :=
  match rounds with
  | O => O
  | S rounds' =>
      let yielded := if (i + 1) mod 100 =? 0 then 1%nat else 0%nat in
      (yielded + batches (i + 1) rounds')%nat
  end.

(** The seed by the words of the design: Path A from the two pools and the
    salt, Path B from 64 hardware-random bytes, then the double hash. *)
Definition derived_seed `{WebCrypto} (pool deltas : list Number)
  (salt random_bytes : Uint8Array) (iterations : Z) : Uint8Array :=
  let combined :=
    sha256 (serialize_spec pool) ++ sha256 (serialize_spec deltas) ++ salt in
  let preHash := sha256 combined in
  let h256 := hash_chain sha256 (Z.to_nat iterations) preHash in
  let h512t := firstn 32 (hash_chain sha512 (Z.to_nat iterations) preHash) in
  let userFinal := ntrpRNG._xorArrays h256 h512t in
  let digest1 := sha256 random_bytes in
  let digest2 := firstn 32 (sha512 random_bytes) in
  let csprngFinal := ntrpRNG._xorArrays digest1 digest2 in
  let mix := userFinal ++ csprngFinal ++ salt in
  sha512 (sha512 mix).

(** The next [n] bytes of the hardware random source. *)
Definition next_random (h : Host) (n : nat) : Uint8Array :=
  map (randomSource h) (seq (randomDrawn h) n).

(** The readiness conditions, as [getProgress] and [hasMinimumEntropy]
    compute them. *)
Definition ready (o : ntrpRNG.t) : bool := 500 <=? weightedTotal o.

Definition enough (o : ntrpRNG.t) : bool :=
  ready o && (0 <? len (ntrpRNG.entropyPool o))
  && (0 <? len (ntrpRNG.timerDeltas o)).

(** A pool after the overflow check made at the end of a recording. *)
Definition trimmed (limit keep : Z) (pool : list Number) : list Number :=
  if limit <? len pool then slice_last keep pool else pool.

Definition capped (o : ntrpRNG.t) : Prop :=
  len (ntrpRNG.entropyPool o) <= 5000 /\ len (ntrpRNG.timerDeltas o) <= 1000.

(** The events of a sequence that a handler records: all but the
    device-motion events without [accelerationIncludingGravity]. *)
Definition recorded_events (evs : list Event) : Z :=
  fold_right (fun c acc => occurrences c evs + acc) 0 categories.

(** The text [toBase64] returns when it returns: [btoa] of the string whose
    character codes are the bytes. *)
Definition base64_text (bytes : Uint8Array) : string :=
  ntrpRNG.btoa (string_of_list_byte bytes).

(** An instance with its counters left out; two states that differ in the
    counters at most; and two computations that, from such states, end in
    such states with the same completion. *)
Definition besides_counters (o : ntrpRNG.t) : ntrpRNG.t :=
  ntrpRNG.set_eventCount EventCount.zero o.

Definition same_recording (w1 w2 : Host * ntrpRNG.t) : Prop :=
  fst w1 = fst w2 /\ besides_counters (snd w1) = besides_counters (snd w2).

Definition alike {A} (c1 c2 : JS ntrpRNG.t A) : Prop :=
  forall w1 w2,
    same_recording w1 w2 ->
    fst (c1 w1) = fst (c2 w2) /\ same_recording (snd (c1 w1)) (snd (c2 w2)).

(** The seed of v1.2.1 by the words of its comments: the XOR of the two
    iterated hashes, followed by the two hashes, under SHA-512. *)
Definition derived_seed_1_2_1 `{WebCrypto} (pool deltas : list Number)
  (salt : Uint8Array) (iterations : Z) : Uint8Array :=
  let combined :=
    sha256 (serialize_spec pool) ++ sha256 (serialize_spec deltas) ++ salt in
  let preHash := sha256 combined in
  let hash256 := hash_chain sha256 (Z.to_nat iterations) preHash in
  let hash512 := firstn 32 (hash_chain sha512 (Z.to_nat iterations) preHash) in
  sha512 (ntrpRNG._xorArrays hash256 hash512 ++ hash256 ++ hash512).

(* ------------------------------------------------------------------ *)
(** ** Decoders, to state the round trips of the encodings *)

Definition hex_value (c : ascii) : option Z :=
  let n := ntrpRNG.char_code c in
  if (48 <=? n) && (n <=? 57) then Some (n - 48)
  else if (97 <=? n) && (n <=? 102) then Some (n - 87)
  else None.

(** Two lowercase hexadecimal digits for each byte. *)
Fixpoint fromHex (s : string) : option Uint8Array :=
  match s with
  | EmptyString => Some []
  | String hi (String lo rest) =>
      match hex_value hi, hex_value lo, fromHex rest with
      | Some h, Some l, Some bytes => Some (byte_of_Z (h * 16 + l) :: bytes)
      | _, _, _ => None
      end
  | String _ EmptyString => None
  end.

Definition base64_value (c : ascii) : option Z :=
  let n := ntrpRNG.char_code c in
  if (65 <=? n) && (n <=? 90) then Some (n - 65)
  else if (97 <=? n) && (n <=? 122) then Some (n - 97 + 26)
  else if (48 <=? n) && (n <=? 57) then Some (n - 48 + 52)
  else if n =? 43 then Some 62
  else if n =? 47 then Some 63
  else None.

Definition char_of_code (n : Z) : ascii := ascii_of_N (Z.to_N (n mod 256)).

(** [atob(s)] on padded base64: four characters give three characters,
    the last group one or two when it ends in [=]. *)
Fixpoint atob (s : string) : option string :=
  match s with
  | EmptyString => Some EmptyString
  | String c1 (String c2 (String c3 (String c4 rest))) =>
      match base64_value c1, base64_value c2 with
      | Some v1, Some v2 =>
          let b1 := char_of_code (v1 * 4 + v2 / 16) in
          if Ascii.eqb c3 "=" then
            match rest with
            | EmptyString =>
                if Ascii.eqb c4 "=" then Some (String b1 EmptyString) else None
            | _ => None
            end
          else
            match base64_value c3 with
            | Some v3 =>
                let b2 := char_of_code (v2 mod 16 * 16 + v3 / 4) in
                if Ascii.eqb c4 "=" then
                  match rest with
                  | EmptyString => Some (String b1 (String b2 EmptyString))
                  | _ => None
                  end
                else
                  match base64_value c4, atob rest with
                  | Some v4, Some tail =>
                      let b3 := char_of_code (v3 mod 4 * 64 + v4) in
                      Some (String b1 (String b2 (String b3 tail)))
                  | _, _ => None
                  end
            | None => None
            end
      | _, _ => None
      end
  | _ => None
  end.

Definition fromBase64 (s : string) : option Uint8Array :=
  option_map list_byte_of_string (atob s).

(** [view.getFloat64(i * 8, false)] for each group of eight bytes, in
    order. *)
Fixpoint read_floats (bytes : list byte) : list Number :=
  match bytes with
  | b0 :: b1 :: b2 :: b3 :: b4 :: b5 :: b6 :: b7 :: rest =>
      float64_of_bits (be_decode [b0; b1; b2; b3; b4; b5; b6; b7])
      :: read_floats rest
  | _ => []
  end.

(** A reader of one CSV record whose fields are all quoted: inside a
    field two quotes stand for one, and a single quote ends the field; a
    comma then starts the next field. *)
Inductive CsvState : Type :=
| FieldStart
| InField (seen : list ascii)
| AfterQuote (seen : list ascii).

Fixpoint read_row (s : string) (st : CsvState) (done : list string)
  : option (list string) :=
  match s with
  | EmptyString =>
      match st with
      | AfterQuote seen =>
          Some (rev (string_of_list_ascii (rev seen) :: done))
      | _ => None
      end
  | String c rest =>
      match st with
      | FieldStart =>
          if Ascii.eqb c dashboard.quote then read_row rest (InField []) done
          else None
      | InField seen =>
          if Ascii.eqb c dashboard.quote then read_row rest (AfterQuote seen) done
          else read_row rest (InField (c :: seen)) done
      | AfterQuote seen =>
          if Ascii.eqb c dashboard.quote
          then read_row rest (InField (dashboard.quote :: seen)) done
          else if Ascii.eqb c ","
               then read_row rest FieldStart
                      (string_of_list_ascii (rev seen) :: done)
               else None
      end
  end.

(* ------------------------------------------------------------------ *)
(** ** The host's side of a collection session *)

Definition listener_of (ev : Event) : EventTarget * string :=
  match ev with
  | MouseMove _ => (document, "mousemove")
  | MouseDown _ => (document, "mousedown")
  | KeyDown _ => (document, "keydown")
  | TouchStart _ => (document, "touchstart")
  | TouchMove _ => (document, "touchmove")
  | Scroll => (window, "scroll")
  | DeviceMotion _ => (window, "devicemotion")
  end.

(** The host hands an event to its handler only while the handler is
    registered for the event's type. *)
Definition deliver (ev : Event) : JS ntrpRNG.t unit :=
  registered <- host_gets listeners ;;
  if existsb (eq_listener (listener_of ev)) registered
  then handle ev
  else ret tt.

(** The handles of one kind that are pending. *)
Definition pending (kind : TimerKind) (h : Host) : list nat :=
  map snd (filter (fun t => eq_timer (kind, snd t) t) (timers h)).

(** The host runs a pending callback.  A frame request and a timeout are
    used up by the call; an interval stays pending. *)
Definition fire (kind : TimerKind) : JS ntrpRNG.t unit :=
  ids <- host_gets (pending kind) ;;
  match ids with
  | [] => ret tt
  | id :: _ =>
      match kind with
      | AnimationFrame => cancel AnimationFrame id ;; ntrpRNG.rafCollect
      | Interval => ntrpRNG.intervalCollect
      | Timeout => cancel Timeout id ;; ntrpRNG.recursiveTimeout
      end
  end.

(** An operation as it happens in a page: events and timer callbacks come
    from the host, methods from the caller. *)
Definition happen `{WebCrypto} (op : Operation) : JS ntrpRNG.t unit :=
  match op with
  | Dispatch ev => deliver ev
  | FrameCallback => fire AnimationFrame
  | IntervalCallback => fire Interval
  | TimeoutCallback => fire Timeout
  | _ => perform op
  end.

Definition happen_all `{WebCrypto} (ops : list Operation)
  (w : Host * ntrpRNG.t) : Host * ntrpRNG.t :=
  fold_left (fun w op => after (happen op) w) ops w.

(** The listeners [startCollecting] registers on this host. *)
Definition session_listeners (h : Host) : list (EventTarget * string) :=
  [(document, "mousemove"); (document, "mousedown"); (document, "keydown");
   (document, "touchstart"); (document, "touchmove"); (window, "scroll")]
  ++ (if hasDeviceMotionEvent h then [(window, "devicemotion")] else []).

(** The instance and the host agree: while collecting, the session's
    listeners are registered and the pending timers are the three whose
    handles the instance holds; otherwise nothing is registered and
    nothing is pending. *)
Definition in_step (w : Host * ntrpRNG.t) : Prop :=
  let h := fst w in
  let o := snd w in
  if ntrpRNG.isCollecting o
  then
    listeners h = session_listeners h
    /\ ntrpRNG.truthy (ntrpRNG.rafId o) = true
    /\ ntrpRNG.truthy (ntrpRNG.timerId1 o) = true
    /\ ntrpRNG.truthy (ntrpRNG.timerId2 o) = true
    /\ forall kind id,
         In (kind, id) (timers h) <->
         match kind with
         | AnimationFrame => ntrpRNG.rafId o = Some id
         | Interval => ntrpRNG.timerId1 o = Some id
         | Timeout => ntrpRNG.timerId2 o = Some id
         end
  else listeners h = [] /\ timers h = [].

(** Operations that come from the host alone. *)
Definition from_host (op : Operation) : bool :=
  match op with
  | Dispatch _ | FrameCallback | IntervalCallback | TimeoutCallback => true
  | _ => false
  end.

(* ================================================================== *)
(** * Properties *)

(** ** Lists, typed arrays and the serialiser *)

Lemma zeros_length n : length (zeros n) = n.
Proof. apply repeat_length. Qed.

Lemma zeros_app n m : zeros (n + m) = zeros n ++ zeros m.
Proof. apply repeat_app. Qed.

Lemma len_app {A} (a b : list A) : len (a ++ b) = len a + len b.
Proof. unfold len. rewrite length_app. lia. Qed.

Lemma len_nonneg {A} (a : list A) : 0 <= len a.
Proof. unfold len. lia. Qed.

(** Writing [src] right after a prefix [pre], over bytes that are there. *)
Lemma splice_after_prefix {A} (pre src old rest : list A) :
  length old = length src ->
  splice (pre ++ old ++ rest) (length pre) src = pre ++ src ++ rest.
Proof.
  intros Hlen. unfold splice.
  rewrite firstn_app, firstn_all, Nat.sub_diag, firstn_O, app_nil_r.
  f_equal. f_equal.
  rewrite skipn_app.
  rewrite (skipn_all2 pre) by lia.
  replace (length pre + length src - length pre)%nat with (length old) by lia.
  rewrite skipn_app, skipn_all, Nat.sub_diag. reflexivity.
Qed.

Lemma Uint8Array_set_after_prefix (pre src : Uint8Array) (n : nat) :
  Uint8Array_set (pre ++ zeros (length src + n)) src (length pre)
  = Normal (pre ++ src ++ zeros n).
Proof.
  unfold Uint8Array_set.
  rewrite length_app, zeros_length.
  destruct (Nat.ltb_spec (length pre + (length src + n))
                         (length pre + length src)) as [Hlt | _]; [lia |].
  f_equal. rewrite zeros_app.
  apply splice_after_prefix. apply zeros_length.
Qed.

(** Three [set] calls at the running offset fill a fresh array with the
    concatenation of the three sources. *)
Lemma set_three {T A} (a b c : Uint8Array) (k : Uint8Array -> JS T A) w :
  (buf <- lift (Uint8Array_set (zeros (length a + length b + length c)) a 0) ;;
   buf <- lift (Uint8Array_set buf b (length a)) ;;
   buf <- lift (Uint8Array_set buf c (length a + length b)) ;;
   k buf) w
  = k (a ++ b ++ c) w.
Proof.
  pose proof (Uint8Array_set_after_prefix [] a (length b + length c)) as Ha.
  pose proof (Uint8Array_set_after_prefix a b (length c)) as Hb.
  pose proof (Uint8Array_set_after_prefix (a ++ b) c 0) as Hc.
  cbn [app length] in Ha. rewrite Nat.add_assoc in Ha.
  rewrite Nat.add_0_r, length_app, <- app_assoc in Hc.
  unfold bind, lift. rewrite Ha, Hb, Hc.
  cbn [zeros repeat]. now rewrite app_nil_r, <- app_assoc.
Qed.

Lemma float64_be_length x : length (float64_be x) = 8%nat.
Proof. reflexivity. Qed.

Lemma serialize_spec_length floats :
  length (serialize_spec floats) = (length floats * 8)%nat.
Proof.
  unfold serialize_spec. induction floats as [| x rest IH]; [reflexivity |].
  cbn [flat_map]. rewrite length_app, IH, float64_be_length. cbn [length]. lia.
Qed.

Lemma serialize_spec_app a b :
  serialize_spec (a ++ b) = serialize_spec a ++ serialize_spec b.
Proof. apply flat_map_app. Qed.

Lemma firstn_succ_nth {A} (l : list A) (i : nat) (d : A) :
  (i < length l)%nat -> firstn (S i) l = firstn i l ++ [nth i l d].
Proof.
  revert i. induction l as [| x l IH]; intros i Hi; [cbn in Hi; lia |].
  destruct i as [| i]; [reflexivity |].
  cbn [firstn nth app]. f_equal. apply IH. cbn in Hi. lia.
Qed.

(** Loop invariant of [_serializeFloats]: before the iteration for index
    [i] the buffer holds the encodings of the first [i] values followed by
    zero bytes. *)
Lemma serialize_loop_invariant floats :
  forall k i, (i + k = length floats)%nat ->
    serialize_loop floats (seq i k)
      (serialize_spec (firstn i floats) ++ zeros (k * 8))
    = Normal (serialize_spec floats).
Proof.
  induction k as [| k IH]; intros i Hik.
  - cbn. rewrite app_nil_r, firstn_all2 by lia. reflexivity.
  - cbn [seq serialize_loop].
    assert (Hoff : (i * 8)%nat = length (serialize_spec (firstn i floats))).
    { rewrite serialize_spec_length, length_firstn. lia. }
    unfold setFloat64.
    rewrite length_app, zeros_length, <- Hoff.
    destruct (Nat.ltb_spec (i * 8 + S k * 8) (i * 8 + 8)) as [Hlt | _]; [lia |].
    cbn [cbind].
    replace (S k * 8)%nat with (8 + k * 8)%nat by lia.
    rewrite zeros_app, Hoff.
    rewrite (splice_after_prefix _ (float64_be (float_at floats i)) (zeros 8))
      by reflexivity.
    rewrite app_assoc.
    replace (serialize_spec (firstn i floats) ++ float64_be (float_at floats i))
      with (serialize_spec (firstn (S i) floats)).
    + apply IH. lia.
    + rewrite (firstn_succ_nth floats i NaN) by lia.
      rewrite serialize_spec_app. unfold serialize_spec at 2.
      cbn [flat_map]. now rewrite app_nil_r.
Qed.

Lemma _serializeFloats_ok floats :
  _serializeFloats floats = Normal (serialize_spec floats).
Proof.
  unfold _serializeFloats.
  apply (serialize_loop_invariant floats (length floats) 0). lia.
Qed.

(** The [i]-th group of eight bytes is the encoding of the [i]-th value. *)
Lemma serialize_spec_chunk floats :
  forall i, (i < length floats)%nat ->
    firstn 8 (skipn (i * 8) (serialize_spec floats))
    = float64_be (float_at floats i).
Proof.
  induction floats as [| x rest IH]; intros i Hi; [cbn in Hi; lia |].
  destruct i as [| i].
  - reflexivity.
  - unfold serialize_spec. cbn [flat_map].
    replace (S i * 8)%nat with (length (float64_be x) + i * 8)%nat
      by (rewrite float64_be_length; lia).
    rewrite skipn_app, Nat.add_comm, Nat.add_sub.
    rewrite skipn_all2 by (rewrite float64_be_length; lia).
    cbn [app]. apply IH. cbn in Hi. lia.
Qed.

Lemma Z_of_byte_of_Z z : Z_of_byte (byte_of_Z z) = z mod 256.
Proof.
  unfold Z_of_byte, byte_of_Z.
  assert (Hr : 0 <= z mod 256 < 256) by (apply Z.mod_pos_bound; lia).
  destruct (Byte.of_N (Z.to_N (z mod 256))) as [b |] eqn:E.
  - apply Byte.to_of_N in E. rewrite E. lia.
  - apply Byte.of_N_None_iff in E. lia.
Qed.

Lemma Z_of_byte_range b : 0 <= Z_of_byte b < 256.
Proof. unfold Z_of_byte. pose proof (Byte.to_N_bounded b). lia. Qed.

(** The eight bytes, read most significant first, give back the 64-bit
    pattern. *)
Lemma be_decode_be_bytes_8 bits :
  be_decode (be_bytes 8 bits) = bits mod 2 ^ 64.
Proof.
  unfold be_decode, be_bytes, be_byte.
  cbn [seq map fold_left Nat.sub Z.of_nat Pos.of_succ_nat Pos.succ Z.mul Pos.mul].
  rewrite !Z_of_byte_of_Z.
  change 0xFF with (Z.ones 8).
  rewrite !Z.land_ones, !Z.shiftr_div_pow2 by lia.
  rewrite !Z.mod_mod by lia.
  change (2 ^ 8) with 256. change (bits / 2 ^ 0) with (bits / 1).
  rewrite Z.div_1_r.
  change (2 ^ 56) with (256 * 2 ^ 48). rewrite <- (Z.div_div bits 256) by lia.
  change (2 ^ 48) with (256 * 2 ^ 40) at 1. change (2 ^ 48) with (256 * 2 ^ 40).
  rewrite <- !(Z.div_div _ 256 (2 ^ 40)) by lia.
  change (2 ^ 40) with (256 * 2 ^ 32).
  rewrite <- !(Z.div_div _ 256 (2 ^ 32)) by lia.
  change (2 ^ 32) with (256 * 2 ^ 24).
  rewrite <- !(Z.div_div _ 256 (2 ^ 24)) by lia.
  change (2 ^ 24) with (256 * 2 ^ 16).
  rewrite <- !(Z.div_div _ 256 (2 ^ 16)) by lia.
  change (2 ^ 16) with (256 * 256).
  rewrite <- !(Z.div_div _ 256 256) by lia.
  change (2 ^ 64) with (256 * (256 * (256 * (256 * (256 * (256 * (256 * 256))))))).
  Z.div_mod_to_equations. lia.
Qed.

(** ** The bit pattern is the binary64 one *)

(** The encoding on a few values: 1, -2, 0.1, -0, NaN. *)
Example float64_be_one :
  map Z_of_byte (float64_be (num 1)) = [0x3F; 0xF0; 0; 0; 0; 0; 0; 0].
Proof. vm_compute. reflexivity. Qed.

Example float64_be_minus_two :
  map Z_of_byte (float64_be (num (-2))) = [0xC0; 0; 0; 0; 0; 0; 0; 0].
Proof. vm_compute. reflexivity. Qed.

Example float64_be_tenth :
  map Z_of_byte (float64_be (num_div (num 1) (num 10)))
  = [0x3F; 0xB9; 0x99; 0x99; 0x99; 0x99; 0x99; 0x9A].
Proof. vm_compute. reflexivity. Qed.

Example float64_be_negative_zero :
  map Z_of_byte (float64_be (SFopp (num 0))) = [0x80; 0; 0; 0; 0; 0; 0; 0].
Proof. vm_compute. reflexivity. Qed.

Example float64_be_nan :
  map Z_of_byte (float64_be NaN) = [0x7F; 0xF8; 0; 0; 0; 0; 0; 0].
Proof. vm_compute. reflexivity. Qed.

Lemma lor_shiftl_add a n b :
  0 <= n -> 0 <= b < 2 ^ n -> Z.lor (Z.shiftl a n) b = a * 2 ^ n + b.
Proof.
  intros Hn Hb.
  pose proof (Z.add_lor_land (Z.shiftl a n) b) as Hadd.
  assert (Hdisjoint : Z.land (Z.shiftl a n) b = 0).
  { apply Z.bits_inj'. intros i Hi.
    rewrite Z.land_spec, Z.bits_0.
    destruct (Z.lt_ge_cases i n) as [Hlow | Hhigh].
    - now rewrite Z.shiftl_spec_low.
    - rewrite <- (Z.mod_small b (2 ^ n)) by lia.
      rewrite Z.mod_pow2_bits_high by lia. apply andb_false_r. }
  rewrite Hdisjoint, Z.shiftl_mul_pow2 in Hadd by lia.
  rewrite Z.shiftl_mul_pow2 by lia. lia.
Qed.

Lemma digits2_pos_bounds m :
  2 ^ (Zpos (digits2_pos m) - 1) <= Zpos m < 2 ^ Zpos (digits2_pos m).
Proof.
  induction m as [m IH | m IH |]; cbn [digits2_pos].
  - rewrite Pos2Z.inj_succ.
    replace (Z.succ (Z.pos (digits2_pos m)) - 1)
      with (Z.succ (Z.pos (digits2_pos m) - 1)) by lia.
    rewrite !Z.pow_succ_r by lia. lia.
  - rewrite Pos2Z.inj_succ.
    replace (Z.succ (Z.pos (digits2_pos m)) - 1)
      with (Z.succ (Z.pos (digits2_pos m) - 1)) by lia.
    rewrite !Z.pow_succ_r by lia. lia.
  - cbn. lia.
Qed.

(** A valid finite binary64 value is normal, with a 53-bit significand, or
    subnormal, at the least exponent. *)
Lemma valid_finite_cases s m e :
  valid_binary prec emax (S754_finite s m e) = true ->
  (2 ^ 52 <= Zpos m < 2 ^ 53 /\ -1074 <= e <= 971)
  \/ (Zpos m < 2 ^ 52 /\ e = -1074).
Proof.
  cbn [valid_binary]. unfold bounded, canonical_mantissa, fexp, emin, prec, emax.
  rewrite andb_true_iff, Z.eqb_eq, Z.leb_le.
  intros [Hcanon Hmax].
  pose proof (digits2_pos_bounds m) as [Hlow Hhigh].
  set (d := Zpos (digits2_pos m)) in *.
  assert (Hd : 0 < d) by (subst d; lia).
  destruct (Z.lt_ge_cases d 53) as [Hsmall | Hbig].
  - right. split; [| lia].
    apply Z.lt_le_trans with (2 ^ d); [exact Hhigh |].
    apply Z.pow_le_mono_r; lia.
  - left. assert (d = 53) by lia. subst d.
    replace (Z.pos (digits2_pos m)) with 53 in * by lia.
    change (53 - 1) with 52 in Hlow. lia.
Qed.

Lemma decode_fields sb E f :
  0 <= sb <= 1 -> 0 <= E < 2 ^ 11 -> 0 <= f < 2 ^ 52 ->
  let bits := sb * 2 ^ 63 + E * 2 ^ 52 + f in
  Z.shiftr bits 63 = sb
  /\ Z.land (Z.shiftr bits 52) 0x7FF = E
  /\ Z.land bits (Z.ones 52) = f.
Proof.
  intros Hsb HE Hf bits. subst bits.
  change 0x7FF with (Z.ones 11).
  rewrite !Z.land_ones, !Z.shiftr_div_pow2 by lia.
  change (2 ^ 63) with 9223372036854775808 in *.
  change (2 ^ 52) with 4503599627370496 in *.
  change (2 ^ 11) with 2048 in *.
  repeat split; Z.div_mod_to_equations; lia.
Qed.

(** Decoding the pattern written for a valid binary64 value gives the
    value back. *)
Lemma float64_of_bits_of_float64 x :
  valid_binary prec emax x = true -> float64_of_bits (float64_bits x) = x.
Proof.
  destruct x as [s | s | | s m e]; intros Hvalid.
  - now destruct s.
  - now destruct s.
  - reflexivity.
  - assert (Hsb : 0 <= sign_bit s <= 1) by (destruct s; cbn; lia).
    assert (Hodd : Z.odd (sign_bit s) = s) by now destruct s.
    unfold float64_bits.
    destruct (valid_finite_cases s m e Hvalid) as [[Hm He] | [Hm He]].
    + destruct (Z.leb_spec (2 ^ 52) (Zpos m)) as [_ | Hlt]; [| lia].
      rewrite (lor_shiftl_add (e + 1075) 52) by lia.
      rewrite (lor_shiftl_add (sign_bit s) 63).
      2: lia.
      2: { change (2 ^ 63) with (2 ^ 11 * 2 ^ 52).
           change (2 ^ 53) with (2 * 2 ^ 52) in Hm. nia. }
      rewrite Z.add_assoc.
      destruct (decode_fields (sign_bit s) (e + 1075) (Zpos m - 2 ^ 52))
        as (Hsign & Hexp & Hfrac);
        [lia | change (2 ^ 11) with 2048; lia
         | change (2 ^ 53) with (2 * 2 ^ 52) in Hm; lia |].
      unfold float64_of_bits. cbv zeta. rewrite Hsign, Hexp, Hfrac, Hodd.
      destruct (Z.eqb_spec (e + 1075) 0) as [Hz | _]; [lia |].
      destruct (Z.eqb_spec (e + 1075) 0x7FF) as [Hz | _]; [lia |].
      replace (Zpos m - 2 ^ 52 + 2 ^ 52) with (Zpos m) by lia.
      f_equal. lia.
    + destruct (Z.leb_spec (2 ^ 52) (Zpos m)) as [Hge | _]; [lia |].
      rewrite (lor_shiftl_add (sign_bit s) 63).
      2: lia.
      2: { change (2 ^ 63) with (2 ^ 11 * 2 ^ 52). lia. }
      destruct (decode_fields (sign_bit s) 0 (Zpos m))
        as (Hsign & Hexp & Hfrac); [lia | cbn; lia | lia |].
      rewrite Z.mul_0_l, Z.add_0_r in *.
      unfold float64_of_bits. cbv zeta. rewrite Hsign, Hexp, Hfrac, Hodd.
      cbn [Z.eqb]. now subst e.
Qed.

(** ** Running the methods *)

Lemma bind_normal {T A B} (c : JS T A) (k : A -> JS T B) w a w' :
  c w = (Normal a, w') -> bind c k w = k a w'.
Proof. intros E. unfold bind. now rewrite E. Qed.

Lemma bind_throw {T A B} (c : JS T A) (k : A -> JS T B) w e w' :
  c w = (Throw e, w') -> bind c k w = (Throw e, w').
Proof. intros E. unfold bind. now rewrite E. Qed.

Lemma subtle_digest_sha256 `{WebCrypto} {T} data (w : Host * T) :
  subtle_digest "SHA-256" data w = (Normal (sha256 data), w).
Proof. reflexivity. Qed.

Lemma subtle_digest_sha512 `{WebCrypto} {T} data (w : Host * T) :
  subtle_digest "SHA-512" data w = (Normal (sha512 data), w).
Proof. reflexivity. Qed.

(** [combineEntropy] returns the two pool digests followed by the salt and
    changes neither the instance nor the host. *)
Lemma combineEntropy_run `{WebCrypto} salt (w : Host * ntrpRNG.t) :
  ntrpRNG.combineEntropy salt w
  = (Normal (sha256 (serialize_spec (ntrpRNG.entropyPool (snd w)))
             ++ sha256 (serialize_spec (ntrpRNG.timerDeltas (snd w)))
             ++ salt), w).
Proof.
  destruct w as [h o]. unfold ntrpRNG.combineEntropy.
  unfold bind at 1 2 3 4 5 6, gets, lift. cbn [fst snd].
  rewrite !_serializeFloats_ok.
  rewrite !subtle_digest_sha256.
  cbn zeta. cbn [Nat.add].
  apply set_three.
Qed.

(** ** C5: what [combineEntropy] and [_serializeFloats] return *)

(** C5.  For every pair of pools and every salt, [combineEntropy(salt)]
    returns SHA-256(serialize(behavioural pool)) followed by
    SHA-256(serialize(timer pool)) followed by the salt, and leaves the
    instance and the host as they were.  [_serializeFloats] never throws; it
    returns, for [N] values, exactly [N * 8] bytes: the eight-byte
    big-endian binary64 encodings of the values, in sequence order (the
    value at index [length pre] of [pre ++ x :: post] occupies bytes
    [8 * length pre] to [8 * length pre + 7], most significant byte first),
    and no byte at all for the empty sequence.  The eight bytes are the
    binary64 interchange encoding: decoded by the format's rules (sign bit,
    11-bit biased exponent, 52-bit fraction) they give back every valid
    binary64 value, NaN as the canonical quiet NaN.  Both results are
    functions of the pools and the salt alone. *)
Theorem C5_combineEntropy_digests_then_salt :
  forall (crypto : WebCrypto) (salt : Uint8Array) (w : Host * ntrpRNG.t),
    ntrpRNG.combineEntropy salt w
    = (Normal (sha256 (serialize_spec (ntrpRNG.entropyPool (snd w)))
               ++ sha256 (serialize_spec (ntrpRNG.timerDeltas (snd w)))
               ++ salt), w)
    /\ (forall floats : list Number,
          _serializeFloats floats = Normal (serialize_spec floats)
          /\ length (serialize_spec floats) = (length floats * 8)%nat)
    /\ (forall (pre post : list Number) (x : Number),
          firstn 8 (skipn (length pre * 8) (serialize_spec (pre ++ x :: post)))
          = float64_be x
          /\ be_decode (float64_be x) = float64_bits x mod 2 ^ 64
          /\ (valid_binary prec emax x = true ->
              float64_of_bits (float64_bits x) = x))
    /\ _serializeFloats [] = Normal [].
Proof.
  intros crypto salt w. split; [apply combineEntropy_run |].
  split; [| split].
  - intros floats. split.
    + apply _serializeFloats_ok.
    + apply serialize_spec_length.
  - intros pre post x. split.
    + rewrite (serialize_spec_chunk (pre ++ x :: post) (length pre)).
      * unfold float_at. now rewrite nth_middle.
      * rewrite length_app. cbn [length]. lia.
    + split; [apply be_decode_be_bytes_8 | apply float64_of_bits_of_float64].
  - reflexivity.
Qed.

(** C5 on the pools of the sample instance and on the value 0.1. *)
Lemma C5_combineEntropy_digests_then_salt_witness :
  valid_binary prec emax (num_div (num 1) (num 10)) = true
  /\ float64_of_bits (float64_bits (num_div (num 1) (num 10)))
     = num_div (num 1) (num 10)
  /\ length (serialize_spec (ntrpRNG.entropyPool sample_instance)) = 32%nat.
Proof.
  pose proof (C5_combineEntropy_digests_then_salt toy_crypto []
                (sample_host, sample_instance)) as (_ & Hser & Hval & _).
  split; [reflexivity |]. split.
  - apply (Hval [] [] (num_div (num 1) (num 10))). reflexivity.
  - apply (Hser (ntrpRNG.entropyPool sample_instance)).
Defined.

(** ** Frames: what a computation leaves unchanged or preserves *)

Section Frames.
Context {T : Type}.

Lemma stable_ret {A X} (f : Host * T -> X) (a : A) : stable f (ret a).
Proof. now intros w. Qed.

Lemma stable_throw {A X} (f : Host * T -> X) e : stable f (@throw T A e).
Proof. now intros w. Qed.

Lemma stable_lift {A X} (f : Host * T -> X) (c : Completion A) :
  stable f (lift c).
Proof. now intros w. Qed.

Lemma stable_gets {A X} (f : Host * T -> X) (g : T -> A) : stable f (gets g).
Proof. now intros w. Qed.

Lemma stable_host_gets {A X} (f : Host * T -> X) (g : Host -> A) :
  stable f (host_gets g).
Proof. now intros w. Qed.

Lemma stable_bind {A B X} (f : Host * T -> X) (c : JS T A) (k : A -> JS T B) :
  stable f c -> (forall a, stable f (k a)) -> stable f (bind c k).
Proof.
  intros Hc Hk w. unfold bind. specialize (Hc w).
  destruct (c w) as [[a | e] w']; cbn [snd] in *.
  - now rewrite Hk.
  - exact Hc.
Qed.

Lemma stable_when {X} (f : Host * T -> X) b (c : JS T unit) :
  stable f c -> stable f (when b c).
Proof. intros Hc. destruct b; [exact Hc | apply stable_ret]. Qed.

Lemma stable_discard {A X} (f : Host * T -> X) (c : JS T A) :
  stable f c -> stable f (discard c).
Proof.
  intros Hc w. unfold discard. specialize (Hc w).
  now destruct (c w) as [[a | e] w'].
Qed.

Lemma stable_forEach {A X} (f : Host * T -> X) (l : list A) body :
  (forall x, stable f (body x)) -> stable f (forEach l body).
Proof.
  intros Hb. induction l as [| x l IH]; cbn [forEach].
  - apply stable_ret.
  - apply stable_bind; [apply Hb | intros _; exact IH].
Qed.

(** Assignments: to a field of the instance, or to a part of the host. *)
Lemma stable_modify {X} (f : Host * T -> X) (g : T -> T) :
  (forall h o, f (h, g o) = f (h, o)) -> stable f (modify g).
Proof. intros Hg [h o]. apply Hg. Qed.

Lemma stable_host_modify {X} (f : Host * T -> X) (g : Host -> Host) :
  (forall h o, f (g h, o) = f (h, o)) -> stable f (@host_modify T g).
Proof. intros Hg [h o]. apply Hg. Qed.

(** What leaves the instance alone leaves every observation of it alone. *)
Lemma stable_of_instance {A X} (f : T -> X) (c : JS T A) :
  stable snd c -> stable (fun w => f (snd w)) c.
Proof. intros Hc w. now rewrite Hc. Qed.

Lemma maintains_bind {A B} (I : Host * T -> Prop) (c : JS T A) (k : A -> JS T B) :
  maintains I c -> (forall a, maintains I (k a)) -> maintains I (bind c k).
Proof.
  intros Hc Hk w Hw. unfold bind. specialize (Hc w Hw).
  destruct (c w) as [[a | e] w']; cbn [snd] in *.
  - now apply Hk.
  - exact Hc.
Qed.

Lemma maintains_ret {A} (I : Host * T -> Prop) (a : A) : maintains I (ret a).
Proof. now intros w. Qed.

Lemma maintains_forEach {A} (I : Host * T -> Prop) (l : list A) body :
  (forall x, maintains I (body x)) -> maintains I (forEach l body).
Proof.
  intros Hb. induction l as [| x l IH]; cbn [forEach].
  - apply maintains_ret.
  - apply maintains_bind; [apply Hb | intros _; exact IH].
Qed.

(** An invariant that only looks at the instance is preserved by whatever
    leaves the instance alone. *)
Lemma maintains_of_stable {A} (P : T -> Prop) (c : JS T A) :
  stable snd c -> maintains (fun w => P (snd w)) c.
Proof. intros Hc w Hw. now rewrite Hc. Qed.

Lemma maintains_modify (P : T -> Prop) (g : T -> T) :
  (forall o, P o -> P (g o)) -> maintains (fun w => P (snd w)) (modify g).
Proof. intros Hg w Hw. now apply Hg. Qed.

Lemma maintains_when (I : Host * T -> Prop) b (c : JS T unit) :
  maintains I c -> maintains I (when b c).
Proof. intros Hc. destruct b; [exact Hc | apply maintains_ret]. Qed.

Lemma never_throws_bind {A B} (c : JS T A) (k : A -> JS T B) :
  never_throws c -> (forall a, never_throws (k a)) -> never_throws (bind c k).
Proof.
  intros Hc Hk w. unfold bind. destruct (Hc w) as [a Ha].
  destruct (c w) as [r w']. cbn [fst] in Ha. subst r. apply Hk.
Qed.

Lemma never_throws_ret {A} (a : A) : never_throws (@ret T A a).
Proof. intros w. now exists a. Qed.

Lemma never_throws_gets {A} (g : T -> A) : never_throws (gets g).
Proof. intros w. now eexists. Qed.

Lemma never_throws_host_gets {A} (g : Host -> A) :
  never_throws (@host_gets T A g).
Proof. intros w. now eexists. Qed.

Lemma never_throws_modify (g : T -> T) : never_throws (modify g).
Proof. intros w. now exists tt. Qed.

Lemma never_throws_host_modify (g : Host -> Host) :
  never_throws (@host_modify T g).
Proof. intros w. now exists tt. Qed.

Lemma never_throws_forEach {A} (l : list A) (body : A -> JS T unit) :
  (forall x, never_throws (body x)) -> never_throws (forEach l body).
Proof.
  intros Hb. induction l as [| x l IH]; cbn [forEach].
  - apply never_throws_ret.
  - apply never_throws_bind; [apply Hb | intros _; exact IH].
Qed.

Lemma never_throws_when b (c : JS T unit) :
  never_throws c -> never_throws (when b c).
Proof. intros Hc. destruct b; [exact Hc |]. intros w. now exists tt. Qed.

Lemma maintains_discard {A} (I : Host * T -> Prop) (c : JS T A) :
  maintains I c -> maintains I (discard c).
Proof.
  intros Hc w Hw. unfold discard. specialize (Hc w Hw).
  now destruct (c w) as [[a | e] w'].
Qed.

End Frames.

Create HintDb frame.

Ltac head_of c :=
  lazymatch c with
  | ?f _ => head_of f
  | _ => c
  end.

(** Close a side condition on an assignment. *)
Ltac frame_leaf :=
  intros; cbn;
  repeat match goal with
         | |- context [if ?b then _ else _] => destruct b
         end;
  reflexivity.

(** Decompose a computation along its structure and close the leaves; a
    call of a method is settled by a lemma in [frame], or else unfolded. *)
Ltac frame :=
  repeat first
    [ progress intros
    | match goal with
      | |- stable _ (ret _) => apply stable_ret
      | |- stable _ (throw _) => apply stable_throw
      | |- stable _ (lift _) => apply stable_lift
      | |- stable _ (gets _) => apply stable_gets
      | |- stable _ (host_gets _) => apply stable_host_gets
      | |- stable _ (bind _ _) => apply stable_bind
      | |- stable _ (forEach _ _) => apply stable_forEach
      | |- stable _ (when _ _) => apply stable_when
      | |- stable _ (discard _) => apply stable_discard
      | |- stable _ (modify _) => apply stable_modify; frame_leaf
      | |- stable _ (host_modify _) => apply stable_host_modify; frame_leaf
      | |- stable _ (if ?b then _ else _) => destruct b
      | |- stable _ (match ?x with _ => _ end) => destruct x
      | |- stable _ _ => solve [auto with frame]
      | |- stable _ ?c => let h := head_of c in progress unfold h
      end ].

Ltac returns :=
  repeat first
    [ progress intros
    | match goal with
      | |- never_throws (ret _) => apply never_throws_ret
      | |- never_throws (gets _) => apply never_throws_gets
      | |- never_throws (host_gets _) => apply never_throws_host_gets
      | |- never_throws (modify _) => apply never_throws_modify
      | |- never_throws (host_modify _) => apply never_throws_host_modify
      | |- never_throws (bind _ _) => apply never_throws_bind
      | |- never_throws (forEach _ _) => apply never_throws_forEach
      | |- never_throws (when _ _) => apply never_throws_when
      | |- never_throws (if ?b then _ else _) => destruct b
      | |- never_throws (match ?x with _ => _ end) => destruct x
      | |- never_throws ?c => let h := head_of c in progress unfold h
      end ].

(** ** C6: the pools are capped and keep the most recent values *)

Lemma push_all_app pool values : ntrpRNG.push_all pool values = pool ++ values.
Proof.
  unfold ntrpRNG.push_all. revert pool.
  induction values as [| v values IH]; intros pool; cbn [fold_left].
  - now rewrite app_nil_r.
  - rewrite IH, <- app_assoc. reflexivity.
Qed.

(** [slice(-k)] of an array of at least [k] elements: exactly [k] elements,
    and they are the end of the array. *)
Lemma slice_last_tail {A} (k : Z) (l : list A) :
  0 <= k <= len l ->
  len (slice_last k l) = k
  /\ l = firstn (Z.to_nat (len l - k)) l ++ slice_last k l.
Proof.
  intros Hk. unfold slice_last. split.
  - unfold len in *. rewrite length_skipn. lia.
  - symmetry. apply firstn_skipn.
Qed.

Lemma trimmed_capped limit keep pool :
  0 <= keep <= limit -> len (trimmed limit keep pool) <= limit.
Proof.
  intros Hk. unfold trimmed.
  destruct (Z.ltb_spec limit (len pool)) as [Hover | Hfits]; [| exact Hfits].
  destruct (slice_last_tail keep pool) as [Hlen _]; lia.
Qed.

Lemma _addEntropy_run values h o :
  ntrpRNG._addEntropy values (h, o)
  = (Normal tt,
     (h, ntrpRNG.set_entropyPool
           (trimmed 5000 2500 (ntrpRNG.entropyPool o ++ values)) o)).
Proof.
  unfold ntrpRNG._addEntropy, bind, modify, gets, when, trimmed.
  cbn [fst snd ntrpRNG.entropyPool ntrpRNG.set_entropyPool].
  rewrite push_all_app.
  now destruct (5000 <? len (ntrpRNG.entropyPool o ++ values)).
Qed.

Lemma _collectTimerDelta_run h o :
  ntrpRNG._collectTimerDelta (h, o)
  = let now := performanceClock h (performanceReads h) in
    let delta := num_sub now (ntrpRNG.lastTimestamp o) in
    let dateNow := dateClock h (dateReads h) in
    (Normal tt,
     (set_dateReads (S (dateReads h))
        (set_performanceReads (S (performanceReads h)) h),
      ntrpRNG.set_timerDeltas
        (trimmed 1000 500 (ntrpRNG.timerDeltas o ++ [delta; dateNow]))
        (ntrpRNG.set_lastTimestamp now o))).
Proof.
  unfold ntrpRNG._collectTimerDelta, performance_now, Date_now.
  unfold bind, modify, gets, host_gets, host_modify, ret, when, trimmed.
  cbn [fst snd ntrpRNG.timerDeltas ntrpRNG.set_timerDeltas
       ntrpRNG.set_lastTimestamp ntrpRNG.lastTimestamp
       dateReads dateClock set_performanceReads].
  now destruct (1000 <? len _).
Qed.

(** The methods that only read the instance. *)

Lemma iterate_keeps_instance `{WebCrypto} {T} algorithm rounds :
  forall i hash, stable snd (@ntrpRNG.iterate _ T algorithm rounds i hash).
Proof.
  induction rounds as [| rounds IH]; intros i hash; cbn [ntrpRNG.iterate].
  - apply stable_ret.
  - frame.
Qed.
#[local] Hint Resolve iterate_keeps_instance : frame.

Lemma generateSalt_keeps_instance : stable snd ntrpRNG.generateSalt.
Proof. unfold ntrpRNG.generateSalt. frame. Qed.

Lemma combineEntropy_keeps_instance `{WebCrypto} salt :
  stable snd (ntrpRNG.combineEntropy salt).
Proof. intros w. now rewrite combineEntropy_run. Qed.

Lemma hasMinimumEntropy_keeps_instance K :
  stable snd (ntrpRNG.hasMinimumEntropy K).
Proof. unfold ntrpRNG.hasMinimumEntropy, ntrpRNG._getWeightedEventCount. frame. Qed.

Lemma getProgress_keeps_instance : stable snd ntrpRNG.getProgress.
Proof. unfold ntrpRNG.getProgress, ntrpRNG._getWeightedEventCount. frame. Qed.

Lemma getStats_keeps_instance K : stable snd (ntrpRNG.getStats K).
Proof.
  unfold ntrpRNG.getStats, ntrpRNG._getWeightedEventCount. frame.
Qed.

Lemma generateSeed_keeps_instance `{WebCrypto} K skip :
  stable snd (ntrpRNG.generateSeed K skip).
Proof.
  unfold ntrpRNG.generateSeed, ntrpRNG._iterativeHash.
  frame.
Qed.

(** Recording keeps both pools within their caps. *)

Lemma _addEntropy_capped values :
  maintains (fun w => capped (snd w)) (ntrpRNG._addEntropy values).
Proof.
  intros [h o] [_ Htimer]. rewrite _addEntropy_run. split.
  - apply trimmed_capped. lia.
  - exact Htimer.
Qed.

Lemma _collectTimerDelta_capped :
  maintains (fun w => capped (snd w)) ntrpRNG._collectTimerDelta.
Proof.
  intros [h o] [Hpool _]. rewrite _collectTimerDelta_run. split.
  - exact Hpool.
  - apply trimmed_capped. lia.
Qed.

Ltac keeps_caps :=
  repeat first
    [ progress intros
    | match goal with
      | |- maintains _ (ntrpRNG._addEntropy _) => apply _addEntropy_capped
      | |- maintains _ ntrpRNG._collectTimerDelta =>
          apply _collectTimerDelta_capped
      | |- maintains _ (ret _) => apply maintains_ret
      | |- maintains _ (bind _ _) => apply maintains_bind
      | |- maintains _ (forEach _ _) => apply maintains_forEach
      | |- maintains _ (when _ _) => apply maintains_when
      | |- maintains _ (discard _) => apply maintains_discard
      | |- maintains _ (modify _) =>
          apply (maintains_modify capped); intros o Ho; exact Ho
      | |- maintains _ (if ?b then _ else _) => destruct b
      | |- maintains _ (match ?x with _ => _ end) => destruct x
      end
    | solve [apply (maintains_of_stable capped); frame] ].

Lemma handle_capped ev : maintains (fun w => capped (snd w)) (handle ev).
Proof.
  destruct ev; cbn [handle];
    [ unfold ntrpRNG._onMouseMove | unfold ntrpRNG._onMouseDown
    | unfold ntrpRNG._onKeyDown | unfold ntrpRNG._onTouchStart
    | unfold ntrpRNG._onTouchMove | unfold ntrpRNG._onScroll
    | unfold ntrpRNG._onDeviceMotion ];
    unfold ntrpRNG.bump; keeps_caps.
Qed.

Lemma clearEntropy_capped :
  maintains (fun w => capped (snd w)) ntrpRNG.clearEntropy.
Proof. intros w _. split; cbn; lia. Qed.

Lemma perform_capped `{WebCrypto} op :
  maintains (fun w => capped (snd w)) (perform op).
Proof.
  destruct op; cbn [perform].
  - apply handle_capped.
  - unfold ntrpRNG.rafCollect. keeps_caps.
  - unfold ntrpRNG.intervalCollect. keeps_caps.
  - unfold ntrpRNG.recursiveTimeout. keeps_caps.
  - unfold ntrpRNG.startCollecting, ntrpRNG._startTimerJitter. keeps_caps.
  - unfold ntrpRNG.stopCollecting, ntrpRNG._stopTimerJitter. keeps_caps.
  - apply clearEntropy_capped.
  - apply maintains_discard, (maintains_of_stable capped),
      generateSalt_keeps_instance.
  - apply maintains_discard, (maintains_of_stable capped),
      combineEntropy_keeps_instance.
  - apply maintains_discard, (maintains_of_stable capped),
      hasMinimumEntropy_keeps_instance.
  - apply maintains_discard, (maintains_of_stable capped),
      getProgress_keeps_instance.
  - apply maintains_discard, (maintains_of_stable capped),
      getStats_keeps_instance.
  - apply maintains_discard, (maintains_of_stable capped),
      generateSeed_keeps_instance.
Qed.

Lemma perform_all_capped `{WebCrypto} ops :
  forall w, capped (snd w) -> capped (snd (perform_all ops w)).
Proof.
  unfold perform_all.
  induction ops as [| op ops IH]; intros w Hw; cbn [fold_left]; [exact Hw |].
  apply IH. unfold after. now apply perform_capped.
Qed.

(** ** Construction *)

Lemma constructor_body_returns options :
  never_throws (ntrpRNG.constructor_body options).
Proof. unfold ntrpRNG.constructor_body. returns. Qed.

(** The constructor's body, after the fields are assigned, changes neither
    the configuration nor the pools nor the counters. *)
Lemma constructor_body_keeps options :
  stable (fun w : Host * ntrpRNG.t =>
            (ntrpRNG.minEvents (snd w), ntrpRNG.iterations (snd w),
             ntrpRNG.saltSize (snd w), ntrpRNG.entropyPool (snd w),
             ntrpRNG.timerDeltas (snd w), ntrpRNG.eventCount (snd w)))
    (ntrpRNG.constructor_body options).
Proof. unfold ntrpRNG.constructor_body. frame. Qed.

(** It warns once if an override was requested, and not otherwise. *)
Lemma constructor_body_warnings options h o :
  warnings (fst (snd (ntrpRNG.constructor_body options (h, o))))
  = warnings h ++ (if ntrpRNG.override_requested options
                   then [override_warning] else []).
Proof.
  assert (Hrest : forall w : Host * ntrpRNG.t,
    warnings (fst (snd
      ((now <- performance_now ;;
        modify (ntrpRNG.set_lastTimestamp now) ;;
        auto <- gets ntrpRNG.autoCollect ;;
        when auto ntrpRNG.startCollecting) w)))
    = warnings (fst w)).
  { apply (@stable_bind _ _ _ _ (fun w => warnings (fst w))); frame. }
  unfold ntrpRNG.constructor_body.
  destruct (ntrpRNG.override_requested options).
  - unfold bind at 1, when, console_warn, host_modify. cbn [fst snd].
    rewrite Hrest. reflexivity.
  - unfold bind at 1, when, ret. rewrite Hrest. cbn [fst]. now rewrite app_nil_r.
Qed.

Lemma constructor_returns K options h :
  constants_disagree K = false ->
  exists o h',
    ntrpRNG.constructor K options h = (Normal o, h')
    /\ ntrpRNG.minEvents o = 500
    /\ ntrpRNG.iterations o
       = ntrpRNG.or_default (Options.iterations options) 5000
    /\ ntrpRNG.saltSize o = ntrpRNG.or_default (Options.saltSize options) 32
    /\ ntrpRNG.entropyPool o = []
    /\ ntrpRNG.timerDeltas o = []
    /\ ntrpRNG.eventCount o = EventCount.zero
    /\ warnings h'
       = warnings h ++ (if ntrpRNG.override_requested options
                        then [override_warning] else []).
Proof.
  intros HK. unfold ntrpRNG.constructor. rewrite HK.
  pose proof (constructor_body_returns options (h, ntrpRNG.fields options))
    as [u Hu].
  pose proof (constructor_body_keeps options (h, ntrpRNG.fields options))
    as Hkeep.
  pose proof (constructor_body_warnings options h (ntrpRNG.fields options))
    as Hwarn.
  destruct (ntrpRNG.constructor_body options (h, ntrpRNG.fields options))
    as [r [h' o]].
  cbn [fst snd] in *. subst r.
  exists o, h'. injection Hkeep as -> -> -> -> -> ->.
  repeat split. exact Hwarn.
Qed.

Lemma trimmed_most_recent limit keep all :
  0 <= keep <= limit ->
  len (trimmed limit keep all) <= limit
  /\ exists dropped,
       all = dropped ++ trimmed limit keep all
       /\ if limit <? len all
          then len (trimmed limit keep all) = keep
          else dropped = [].
Proof.
  intros Hk. split; [now apply trimmed_capped |].
  unfold trimmed.
  destruct (Z.ltb_spec limit (len all)) as [Hover | Hfits].
  - destruct (slice_last_tail keep all) as [Hlen Htail]; [lia |].
    eexists. split; [exact Htail | exact Hlen].
  - exists []. now split.
Qed.

(** C6.  [_addEntropy] leaves the behavioural pool with at most 5000
    values and [_collectTimerDelta] leaves the timer pool with at most 1000,
    whatever the pool held before.  What is left is always the end, in
    order, of the old pool followed by the new values: all of it if that is
    within the cap, and otherwise exactly its last 2500 (respectively 500)
    values.  From construction on, after any sequence of event handlers,
    timer callbacks and method calls, the behavioural pool holds at most
    5000 values and the timer pool at most 1000. *)
Theorem C6_pools_capped_most_recent :
  forall (crypto : WebCrypto),
    (forall (values : list Number) (w : Host * ntrpRNG.t),
       let all := ntrpRNG.entropyPool (snd w) ++ values in
       let pool' :=
         ntrpRNG.entropyPool (snd (after (ntrpRNG._addEntropy values) w)) in
       pool' = trimmed 5000 2500 all
       /\ len pool' <= 5000
       /\ exists dropped,
            all = dropped ++ pool'
            /\ if 5000 <? len all then len pool' = 2500 else dropped = [])
    /\ (forall w : Host * ntrpRNG.t,
          let now := performanceClock (fst w) (performanceReads (fst w)) in
          let delta := num_sub now (ntrpRNG.lastTimestamp (snd w)) in
          let dateNow := dateClock (fst w) (dateReads (fst w)) in
          let all := ntrpRNG.timerDeltas (snd w) ++ [delta; dateNow] in
          let deltas' :=
            ntrpRNG.timerDeltas (snd (after ntrpRNG._collectTimerDelta w)) in
          deltas' = trimmed 1000 500 all
          /\ len deltas' <= 1000
          /\ exists dropped,
               all = dropped ++ deltas'
               /\ if 1000 <? len all then len deltas' = 500 else dropped = [])
    /\ (forall (options : Options.t) (h : Host),
          exists o h',
            ntrpRNG.constructor builtin options h = (Normal o, h')
            /\ forall ops : list Operation,
                 capped (snd (perform_all ops (h', o)))).
Proof.
  intros crypto. split; [| split].
  - intros values [h o]. unfold after. rewrite _addEntropy_run.
    cbn [fst snd ntrpRNG.entropyPool ntrpRNG.set_entropyPool].
    split; [reflexivity |]. apply trimmed_most_recent. lia.
  - intros [h o]. unfold after. rewrite _collectTimerDelta_run.
    cbn [fst snd ntrpRNG.timerDeltas ntrpRNG.set_timerDeltas
         ntrpRNG.lastTimestamp].
    split; [reflexivity |]. apply trimmed_most_recent. lia.
  - intros options h.
    destruct (constructor_returns builtin options h eq_refl)
      as (o & h' & Hnew & _ & _ & _ & Hpool & Htimer & _).
    exists o, h'. split; [exact Hnew |].
    intros ops. apply perform_all_capped. cbn [snd].
    unfold capped. rewrite Hpool, Htimer. cbn. lia.
Qed.

(** ** C3: the weighted total *)

Lemma counts_bind {A B} (c : JS ntrpRNG.t A) (k : A -> JS ntrpRNG.t B)
  (g : EventCount.t -> EventCount.t) :
  never_throws c ->
  stable (fun w => ntrpRNG.eventCount (snd w)) c ->
  (forall a w, ntrpRNG.eventCount (snd (snd (k a w)))
               = g (ntrpRNG.eventCount (snd w))) ->
  forall w, ntrpRNG.eventCount (snd (snd (bind c k w)))
            = g (ntrpRNG.eventCount (snd w)).
Proof.
  intros Hret Hst Hk w. unfold bind.
  destruct (Hret w) as [a Ha]. specialize (Hst w).
  destruct (c w) as [r w']. cbn [fst snd] in *. subst r.
  now rewrite Hk, Hst.
Qed.

Ltac counts :=
  repeat (apply counts_bind; [returns | frame | intros]); reflexivity.

Lemma handle_counts ev w :
  ntrpRNG.eventCount (snd (after (handle ev) w))
  = match ev with
    | MouseMove _ => ntrpRNG.add_mouse 1
    | MouseDown _ => ntrpRNG.add_mouse 2
    | KeyDown _ => ntrpRNG.add_keyboard 3
    | TouchStart _ => ntrpRNG.add_touch 2
    | TouchMove _ => ntrpRNG.add_touch 1
    | Scroll => ntrpRNG.add_scroll 1
    | DeviceMotion e =>
        match DeviceMotionEvent.accelerationIncludingGravity e with
        | Some _ => ntrpRNG.add_other 2
        | None => fun c => c
        end
    end (ntrpRNG.eventCount (snd w)).
Proof.
  unfold after. revert w.
  destruct ev; cbn [handle];
    [ unfold ntrpRNG._onMouseMove | unfold ntrpRNG._onMouseDown
    | unfold ntrpRNG._onKeyDown | unfold ntrpRNG._onTouchStart
    | unfold ntrpRNG._onTouchMove | unfold ntrpRNG._onScroll
    | unfold ntrpRNG._onDeviceMotion ]; try counts.
  destruct (DeviceMotionEvent.accelerationIncludingGravity e); [counts |].
  reflexivity.
Qed.

Lemma occurrences_cons c ev evs :
  occurrences c (ev :: evs)
  = (if recorded_as c ev then 1 else 0) + occurrences c evs.
Proof.
  unfold occurrences, len. cbn [filter].
  destruct (recorded_as c ev); cbn [length]; lia.
Qed.

Lemma weighted_sum_cons ev evs :
  weighted_sum (ev :: evs) = weighted_sum [ev] + weighted_sum evs.
Proof.
  unfold weighted_sum, categories. cbn [fold_right weight].
  rewrite !(occurrences_cons _ ev evs), !(occurrences_cons _ ev []).
  unfold occurrences at 8 9 10 11 12 13 14. cbn [filter len length Z.of_nat].
  lia.
Qed.

Lemma handle_weight ev w :
  weightedTotal (snd (after (handle ev) w))
  = weightedTotal (snd w) + weighted_sum [ev].
Proof.
  unfold weightedTotal. rewrite handle_counts.
  destruct ev as [e | e | e | e | e | | e]; cbn; try lia.
  unfold occurrences. cbn [filter recorded_as].
  destruct (DeviceMotionEvent.accelerationIncludingGravity e); cbn; lia.
Qed.

Lemma dispatch_all_weight evs :
  forall w, weightedTotal (snd (dispatch_all evs w))
            = weightedTotal (snd w) + weighted_sum evs.
Proof.
  unfold dispatch_all.
  induction evs as [| ev evs IH]; intros w; cbn [fold_left].
  - cbn. lia.
  - rewrite IH, handle_weight, (weighted_sum_cons ev evs). lia.
Qed.

Lemma _getWeightedEventCount_run w :
  ntrpRNG._getWeightedEventCount w = (Normal (weightedTotal (snd w)), w).
Proof. reflexivity. Qed.

Example getProgress_half_way :
  fst (ntrpRNG.getProgress
         (sample_host,
          ntrpRNG.set_eventCount
            {| EventCount.mouse := 100; EventCount.keyboard := 150;
               EventCount.touch := 0; EventCount.scroll := 0;
               EventCount.other := 0 |} sample_instance))
  = Normal {| Progress.currentEvents := 250;
              Progress.requiredEvents := 500;
              Progress.percentage := num 50;
              Progress.ready := false |}.
Proof. vm_compute. reflexivity. Qed.

Lemma getProgress_run w :
  ntrpRNG.getProgress w
  = (Normal {| Progress.currentEvents := weightedTotal (snd w);
               Progress.requiredEvents := 500;
               Progress.percentage :=
                 Math_min (num 100)
                   (num_mul (num_div (num (weightedTotal (snd w))) (num 500))
                            (num 100));
               Progress.ready := 500 <=? weightedTotal (snd w) |}, w).
Proof. reflexivity. Qed.

(** C3.  After any sequence of dispatched events the weighted total has
    grown by the sum, over the categories, of occurrence count times weight
    (key 3; press, touch start and device motion 2; moves and scroll 1; a
    device-motion event that carries no acceleration records nothing and is
    not an occurrence), so that on a new instance it equals that sum.  One
    hundred key, one hundred press and one hundred move events give 600;
    five hundred key events give a progress of 1500 current events out of
    500, 100 percent, ready. *)
Theorem C3_weighted_total :
  (forall (evs : list Event) (w : Host * ntrpRNG.t),
     fst (ntrpRNG._getWeightedEventCount (dispatch_all evs w))
     = Normal (weightedTotal (snd w) + weighted_sum evs)
     /\ weighted_sum evs
        = 3 * occurrences keydown evs
          + 2 * (occurrences mousedown evs + occurrences touchstart evs
                 + occurrences devicemotion evs)
          + 1 * (occurrences mousemove evs + occurrences touchmove evs
                 + occurrences scroll_ evs))
  /\ (forall (options : Options.t) (h : Host),
        exists o h',
          ntrpRNG.constructor builtin options h = (Normal o, h')
          /\ (forall evs : list Event,
                fst (ntrpRNG._getWeightedEventCount (dispatch_all evs (h', o)))
                = Normal (weighted_sum evs))
          /\ (forall (keys : nat -> KeyboardEvent.t)
                     (presses moves : nat -> MouseEvent.t),
                fst (ntrpRNG._getWeightedEventCount
                       (dispatch_all
                          (map (fun i => KeyDown (keys i)) (seq 0 100)
                           ++ map (fun i => MouseDown (presses i)) (seq 0 100)
                           ++ map (fun i => MouseMove (moves i)) (seq 0 100))
                          (h', o)))
                = Normal 600)
          /\ (forall keys : nat -> KeyboardEvent.t,
                fst (ntrpRNG.getProgress
                       (dispatch_all
                          (map (fun i => KeyDown (keys i)) (seq 0 500))
                          (h', o)))
                = Normal {| Progress.currentEvents := 1500;
                            Progress.requiredEvents := 500;
                            Progress.percentage := num 100;
                            Progress.ready := true |})).
Proof.
  split.
  - intros evs w. rewrite _getWeightedEventCount_run. cbn [fst].
    rewrite dispatch_all_weight. split; [reflexivity |].
    unfold weighted_sum, categories. cbn [fold_right weight]. lia.
  - intros options h.
    destruct (constructor_returns builtin options h eq_refl)
      as (o & h' & Hnew & _ & _ & _ & _ & _ & Hcount & _).
    exists o, h'. split; [exact Hnew |].
    assert (Hzero : weightedTotal (snd (h', o)) = 0).
    { unfold weightedTotal. cbn [snd]. now rewrite Hcount. }
    split; [| split].
    + intros evs. rewrite _getWeightedEventCount_run. cbn [fst].
      now rewrite dispatch_all_weight, Hzero.
    + intros keys presses moves. rewrite _getWeightedEventCount_run.
      cbn [fst]. rewrite dispatch_all_weight, Hzero. f_equal.
    + intros keys. rewrite getProgress_run. cbn [fst].
      rewrite dispatch_all_weight, Hzero.
      replace (0 + weighted_sum (map (fun i => KeyDown (keys i)) (seq 0 500)))
        with 1500 by (vm_compute; reflexivity).
      reflexivity.
Qed.

(** ** C7: batching the iterative hash *)

Lemma set_yields_same h : set_yields (yields h) h = h.
Proof. now destruct h. Qed.

Lemma unbatched_run `{WebCrypto} {T} algorithm rounds :
  forall hash (w : Host * T),
    ntrpRNG_1_2_1.iterate algorithm rounds hash w
    = (digest_chain algorithm rounds hash, w).
Proof.
  induction rounds as [| rounds IH]; intros hash w;
    cbn [ntrpRNG_1_2_1.iterate digest_chain]; [reflexivity |].
  unfold bind, subtle_digest, lift.
  destruct (digest algorithm hash) as [hash' | e]; cbn [cbind];
    [apply IH | reflexivity].
Qed.

(** The batched loop computes the same completion; it only moves the
    host's count of yields, by one for each full batch it got through. *)
Lemma batched_run `{WebCrypto} {T} algorithm rounds :
  forall i hash h (o : T),
    exists n,
      ntrpRNG.iterate algorithm rounds i hash (h, o)
      = (digest_chain algorithm rounds hash,
         (set_yields (yields h + n) h, o))
      /\ (n <= batches i rounds)%nat
      /\ (forall v, digest_chain algorithm rounds hash = Normal v ->
                    n = batches i rounds).
Proof.
  induction rounds as [| rounds IH]; intros i hash h o;
    cbn [ntrpRNG.iterate digest_chain batches].
  - exists O. rewrite Nat.add_0_r, set_yields_same. repeat split; lia.
  - unfold bind at 1, subtle_digest, lift.
    destruct (digest algorithm hash) as [hash' | e]; cbn [cbind].
    + unfold ntrpRNG.batchSize.
      destruct ((i + 1) mod 100 =? 0).
      * destruct (IH (i + 1) hash' (set_yields (S (yields h)) h) o)
          as (n & Hrun & Hle & Hall).
        exists (S n). unfold bind, when, yield_to_scheduler, host_modify.
        cbn [fst snd]. rewrite Hrun. cbn [yields set_yields].
        replace (S (yields h) + n)%nat with (yields h + S n)%nat by lia.
        repeat split; [lia |]. intros v Hv. rewrite (Hall v Hv). lia.
      * destruct (IH (i + 1) hash' h o) as (n & Hrun & Hle & Hall).
        exists n. unfold bind, when, ret. rewrite Hrun.
        repeat split; [lia |]. intros v Hv. rewrite (Hall v Hv). lia.
    + exists O. rewrite Nat.add_0_r, set_yields_same.
      repeat split; [lia |]. discriminate.
Qed.

Lemma batches_closed_form rounds :
  forall i, 0 <= i ->
    Z.of_nat (batches i rounds) = (i + Z.of_nat rounds) / 100 - i / 100.
Proof.
  induction rounds as [| rounds IH]; intros i Hi; cbn [batches].
  - rewrite Z.add_0_r. lia.
  - rewrite Nat2Z.inj_add, IH by lia.
    replace (i + Z.of_nat (S rounds)) with (i + 1 + Z.of_nat rounds) by lia.
    destruct (Z.eqb_spec ((i + 1) mod 100) 0) as [Hz | Hnz];
      cbn [Z.of_nat Pos.of_succ_nat]; Z.div_mod_to_equations; lia.
Qed.

Lemma batches_of_iterations iterations :
  batches 0 (Z.to_nat iterations) = Z.to_nat (iterations / 100).
Proof.
  apply Nat2Z.inj. rewrite batches_closed_form by lia.
  destruct (Z.le_gt_cases 0 iterations) as [Hpos | Hneg].
  - rewrite !Z2Nat.id; [cbn; lia | apply Z.div_pos; lia | lia].
  - replace (Z.to_nat iterations) with O by lia.
    replace (Z.to_nat (iterations / 100)) with O; [reflexivity |].
    assert (iterations / 100 < 0) by (apply Z.div_lt_upper_bound; lia). lia.
Qed.

(** C7.  For every input block, algorithm name and iteration count, the
    batched iterative hash of v1.3.0 completes exactly as the unbatched one
    of v1.2.1 does: with the same bytes, or with the same rejection if the
    host does not support the algorithm.  Neither touches the instance; the
    unbatched one leaves the host as it was, and the batched one changes
    nothing in it but the number of yields to the scheduler, one for every
    100 rounds when it returns. *)
Theorem C7_batched_hash_equals_unbatched :
  forall (crypto : WebCrypto) (T : Type) (data : Uint8Array)
         (algorithm : string) (iterations : Z) (w : Host * T),
    let batched := ntrpRNG._iterativeHash data algorithm iterations w in
    let unbatched := ntrpRNG_1_2_1._iterativeHash data algorithm iterations w in
    fst batched = fst unbatched
    /\ snd unbatched = w
    /\ snd (snd batched) = snd w
    /\ set_yields (yields (fst w)) (fst (snd batched)) = fst w
    /\ match fst batched with
       | Normal _ =>
           yields (fst (snd batched))
           = (yields (fst w) + Z.to_nat (iterations / 100))%nat
       | Throw _ =>
           (yields (fst (snd batched))
            <= yields (fst w) + Z.to_nat (iterations / 100))%nat
       end.
Proof.
  intros crypto T data algorithm iterations [h o].
  unfold ntrpRNG._iterativeHash, ntrpRNG_1_2_1._iterativeHash.
  rewrite unbatched_run.
  destruct (batched_run algorithm (Z.to_nat iterations) 0 data h o)
    as (n & Hrun & Hle & Hall).
  rewrite Hrun. cbn [fst snd]. rewrite batches_of_iterations in *.
  split; [reflexivity |]. split; [reflexivity |]. split; [reflexivity |].
  split.
  - now destruct h.
  - destruct (digest_chain algorithm (Z.to_nat iterations) data) as [v | e];
      cbn [yields set_yields]; [rewrite (Hall v eq_refl) |]; lia.
Qed.

(** ** Readiness and seed generation, step by step *)

Lemma hasMinimumEntropy_run K w :
  ntrpRNG.hasMinimumEntropy K w
  = (if constants_disagree K || negb (ntrpRNG.minEvents (snd w) =? 500)
     then Throw integrity_error
     else Normal (enough (snd w)), w).
Proof.
  unfold ntrpRNG.hasMinimumEntropy. unfold bind at 1, gets. cbn [fst snd].
  now destruct (constants_disagree K || negb (ntrpRNG.minEvents (snd w) =? 500)).
Qed.

Lemma getStats_run K w :
  constants_disagree K = false -> ntrpRNG.minEvents (snd w) = 500 ->
  ntrpRNG.getStats K w
  = (Normal {| Stats.entropyPoolSize := len (ntrpRNG.entropyPool (snd w));
               Stats.timerDeltasSize := len (ntrpRNG.timerDeltas (snd w));
               Stats.isCollecting := ntrpRNG.isCollecting (snd w);
               Stats.eventCount := ntrpRNG.eventCount (snd w);
               Stats.totalEvents := weightedTotal (snd w);
               Stats.minEvents := ntrpRNG.minEvents (snd w);
               Stats.hasMinimumEntropy := enough (snd w) |}, w).
Proof.
  intros HK Hmin. unfold ntrpRNG.getStats.
  do 6 (erewrite bind_normal by reflexivity).
  erewrite bind_normal
    by (rewrite hasMinimumEntropy_run, HK, Hmin; reflexivity).
  reflexivity.
Qed.

Lemma getRandomValues_run {T} (array : Uint8Array) h (o : T) :
  getRandomValues array (h, o)
  = if 65536 <? len array then (Throw QuotaExceededError, (h, o))
    else (Normal (next_random h (length array)),
          (set_randomDrawn (randomDrawn h + length array) h, o)).
Proof.
  unfold getRandomValues. now destruct (65536 <? len array).
Qed.

Lemma arrayLimit_floor h : 65536 <= arrayLimit h.
Proof. unfold arrayLimit. lia. Qed.

Lemma argumentLimit_floor h : 65536 <= argumentLimit h.
Proof. unfold argumentLimit. lia. Qed.

Lemma len_zeros n : 0 <= n -> len (zeros (Z.to_nat n)) = n.
Proof. intros Hn. unfold len. rewrite zeros_length. lia. Qed.

Lemma new_Uint8Array_ok h n :
  0 <= n <= 65536 ->
  new_Uint8Array (arrayLimit h) n = Normal (zeros (Z.to_nat n)).
Proof.
  intros Hn. unfold new_Uint8Array. pose proof (arrayLimit_floor h).
  destruct (Z.ltb_spec n 0); [lia |].
  destruct (Z.ltb_spec (arrayLimit h) n); [lia | reflexivity].
Qed.

Lemma new_Uint8Array_throws limit n e :
  new_Uint8Array limit n = Throw e -> e = RangeError.
Proof.
  unfold new_Uint8Array. destruct ((n <? 0) || (limit <? n)); congruence.
Qed.

Lemma new_Uint8Array_length limit n blank :
  new_Uint8Array limit n = Normal blank -> length blank = Z.to_nat n.
Proof.
  unfold new_Uint8Array, zeros.
  destruct ((n <? 0) || (limit <? n)); [discriminate |].
  intros [= <-]. apply repeat_length.
Qed.

(** Split on the outcome of the allocation of the salt. *)
Ltac allocation :=
  match goal with
  | |- context [new_Uint8Array ?l ?n] =>
      let blank := fresh "blank" in
      let e := fresh "e" in
      let Hnew := fresh "Hnew" in
      destruct (new_Uint8Array l n) as [blank | e] eqn:Hnew;
      [| apply new_Uint8Array_throws in Hnew; subst e]
  end.

Lemma generateSalt_run h o :
  ntrpRNG.generateSalt (h, o)
  = match new_Uint8Array (arrayLimit h) (ntrpRNG.saltSize o) with
    | Throw e => (Throw e, (h, o))
    | Normal salt =>
        if 65536 <? len salt then (Throw QuotaExceededError, (h, o))
        else (Normal (next_random h (length salt)),
              (set_randomDrawn (randomDrawn h + length salt) h, o))
    end.
Proof.
  unfold ntrpRNG.generateSalt, bind, gets, host_gets, lift. cbn [fst snd].
  destruct (new_Uint8Array (arrayLimit h) (ntrpRNG.saltSize o)) as [salt | e];
    [apply getRandomValues_run | reflexivity].
Qed.

Lemma digest_chain_sha256 `{WebCrypto} n :
  forall x, digest_chain "SHA-256" n x = Normal (hash_chain sha256 n x).
Proof. induction n as [| n IH]; intros x; cbn; [reflexivity | apply IH]. Qed.

Lemma digest_chain_sha512 `{WebCrypto} n :
  forall x, digest_chain "SHA-512" n x = Normal (hash_chain sha512 n x).
Proof. induction n as [| n IH]; intros x; cbn; [reflexivity | apply IH]. Qed.

Lemma _iterativeHash_sha256 `{WebCrypto} {T} data iterations h (o : T) :
  ntrpRNG._iterativeHash data "SHA-256" iterations (h, o)
  = (Normal (hash_chain sha256 (Z.to_nat iterations) data),
     (set_yields (yields h + batches 0 (Z.to_nat iterations)) h, o)).
Proof.
  unfold ntrpRNG._iterativeHash.
  destruct (batched_run "SHA-256" (Z.to_nat iterations) 0 data h o)
    as (n & Hrun & _ & Hall).
  rewrite Hrun, digest_chain_sha256.
  now rewrite (Hall _ (digest_chain_sha256 _ _)).
Qed.

Lemma _iterativeHash_sha512 `{WebCrypto} {T} data iterations h (o : T) :
  ntrpRNG._iterativeHash data "SHA-512" iterations (h, o)
  = (Normal (hash_chain sha512 (Z.to_nat iterations) data),
     (set_yields (yields h + batches 0 (Z.to_nat iterations)) h, o)).
Proof.
  unfold ntrpRNG._iterativeHash.
  destruct (batched_run "SHA-512" (Z.to_nat iterations) 0 data h o)
    as (n & Hrun & _ & Hall).
  rewrite Hrun, digest_chain_sha512.
  now rewrite (Hall _ (digest_chain_sha512 _ _)).
Qed.
Ltac derive_steps :=
  rewrite generateSalt_run;
  destruct (new_Uint8Array _) as [blank | e]; [| reflexivity];
  destruct (65536 <? len blank); [reflexivity |];
  erewrite bind_normal by (apply combineEntropy_run);
  erewrite bind_normal by (apply subtle_digest_sha256);
  erewrite bind_normal by reflexivity;
  erewrite bind_normal by (apply _iterativeHash_sha256);
  erewrite bind_normal by reflexivity;
  erewrite bind_normal by (apply _iterativeHash_sha512);
  erewrite bind_normal by (rewrite getRandomValues_run; reflexivity);
  erewrite bind_normal by (apply subtle_digest_sha256);
  erewrite bind_normal by (apply subtle_digest_sha512);
  cbn [Nat.add]; rewrite set_three;
  erewrite bind_normal by (apply subtle_digest_sha512);
  erewrite bind_normal by (apply subtle_digest_sha512);
  unfold ret, derived_seed, ntrpRNG._truncate512, slice_first;
  cbn [fst snd yields set_yields set_randomDrawn randomDrawn randomSource
       next_random ntrpRNG.entropyPool ntrpRNG.timerDeltas ntrpRNG.iterations];
  rewrite <- Nat.add_assoc; reflexivity.

Lemma generateSeed_run `{WebCrypto} K skip h o :
  constants_disagree K = false -> ntrpRNG.minEvents o = 500 ->
  ntrpRNG.generateSeed K skip (h, o)
  = if negb skip && negb (enough o)
    then (Throw (Error (insufficient_entropy_message
                          (weightedTotal o)
                          (len (ntrpRNG.entropyPool o))
                          (len (ntrpRNG.timerDeltas o)))), (h, o))
    else
      match new_Uint8Array (arrayLimit h) (ntrpRNG.saltSize o) with
      | Throw e => (Throw e, (h, o))
      | Normal blank =>
          if 65536 <? len blank then (Throw QuotaExceededError, (h, o))
          else
            let salt := next_random h (length blank) in
            let h1 := set_randomDrawn (randomDrawn h + length blank) h in
            let random_bytes := next_random h1 64 in
            let rounds := Z.to_nat (ntrpRNG.iterations o) in
            (Normal (derived_seed (ntrpRNG.entropyPool o)
                       (ntrpRNG.timerDeltas o) salt random_bytes
                       (ntrpRNG.iterations o)),
             (set_randomDrawn (randomDrawn h1 + 64)
                (set_yields (yields h + batches 0 rounds + batches 0 rounds)
                   h1), o))
      end.
Proof.
  intros HK Hmin. unfold ntrpRNG.generateSeed.
  erewrite bind_normal by reflexivity. cbn [snd]. rewrite HK, Hmin.
  cbn [orb negb Z.eqb Pos.eqb].
  destruct skip; cbn [negb andb].
  - erewrite bind_normal by reflexivity. cbn iota zeta.
    unfold bind at 1. derive_steps.
  - erewrite bind_normal
      by (erewrite bind_normal
            by (rewrite hasMinimumEntropy_run; cbn [snd];
                rewrite HK, Hmin; reflexivity);
          reflexivity).
    destruct (enough o); cbn [negb].
    + unfold bind at 1. derive_steps.
    + erewrite bind_normal by (apply getStats_run; assumption).
      reflexivity.
Qed.

Lemma generateSeed_tampered `{WebCrypto} K skip w :
  constants_disagree K || negb (ntrpRNG.minEvents (snd w) =? 500) = true ->
  ntrpRNG.generateSeed K skip w = (Throw integrity_error, w).
Proof.
  intros Hbad. unfold ntrpRNG.generateSeed.
  erewrite bind_normal by reflexivity. now rewrite Hbad.
Qed.

Lemma guard_cases K (o : ntrpRNG.t) :
  (constants_disagree K = false /\ ntrpRNG.minEvents o = 500)
  \/ constants_disagree K || negb (ntrpRNG.minEvents o =? 500) = true.
Proof.
  destruct (constants_disagree K); [now right |].
  destruct (Z.eqb_spec (ntrpRNG.minEvents o) 500); [now left | now right].
Qed.

Lemma insufficient_is_not_integrity total pool timer :
  integrity_error <> Error (insufficient_entropy_message total pool timer).
Proof. unfold integrity_error, insufficient_entropy_message. cbn. discriminate. Qed.

Lemma derived_seed_length `{WebCrypto} pool deltas salt random iterations :
  length (derived_seed pool deltas salt random iterations) = 64%nat.
Proof. unfold derived_seed. apply sha512_length. Qed.

(** ** C1: validation and output size of [generateSeed] *)



(** ** C2: readiness and progress *)

(** No operation writes the threshold field: from construction on it is
    500, so the integrity guard of the two methods passes. *)
Lemma perform_keeps_threshold `{WebCrypto} op :
  stable (fun w => ntrpRNG.minEvents (snd w)) (perform op).
Proof.
  destruct op; cbn [perform];
    first [ solve [apply (stable_of_instance ntrpRNG.minEvents); frame]
          | frame ].
Qed.

Lemma threshold_field_is_500 `{WebCrypto} options h :
  exists o h',
    ntrpRNG.constructor builtin options h = (Normal o, h')
    /\ forall ops, ntrpRNG.minEvents (snd (perform_all ops (h', o))) = 500.
Proof.
  destruct (constructor_returns builtin options h eq_refl)
    as (o & h' & Hnew & Hmin & _).
  exists o, h'. split; [exact Hnew |].
  intros ops. unfold perform_all.
  assert (Hall : forall w : Host * ntrpRNG.t,
            ntrpRNG.minEvents (snd w) = 500 ->
            ntrpRNG.minEvents
              (snd (fold_left (fun w op => after (perform op) w) ops w)) = 500).
  { induction ops as [| op ops IH]; intros w Hw; cbn [fold_left];
      [exact Hw |].
    apply IH. unfold after. now rewrite perform_keeps_threshold. }
  now apply Hall.
Qed.

Lemma nonempty_len {A} (l : list A) : (0 <? len l) = true <-> l <> [].
Proof.
  unfold len. destruct l as [| x l]; cbn [length].
  - split; [discriminate | congruence].
  - split; [discriminate |]. intros _. apply Z.ltb_lt. lia.
Qed.

(** C2.  On an instance whose threshold field is intact,
    [hasMinimumEntropy()] returns, and returns true exactly when the
    weighted total is at least 500 and neither pool is empty.
    [getProgress()] returns the weighted total as [currentEvents], 500 as
    [requiredEvents], [Math.min(100, (currentEvents / 500) * 100)] in
    binary64 arithmetic as [percentage], and [currentEvents >= 500] as
    [ready]; so [hasMinimumEntropy()] is [ready] together with the two
    non-emptiness conditions.  Neither method changes the state. *)
Theorem C2_readiness_and_progress :
  forall w : Host * ntrpRNG.t,
    ntrpRNG.minEvents (snd w) = 500 ->
    (exists b,
       ntrpRNG.hasMinimumEntropy builtin w = (Normal b, w)
       /\ (b = true <->
           500 <= weightedTotal (snd w)
           /\ ntrpRNG.entropyPool (snd w) <> []
           /\ ntrpRNG.timerDeltas (snd w) <> []))
    /\ (exists p,
          ntrpRNG.getProgress w = (Normal p, w)
          /\ Progress.currentEvents p = weightedTotal (snd w)
          /\ Progress.requiredEvents p = 500
          /\ Progress.percentage p
             = Math_min (num 100)
                 (num_mul (num_div (num (Progress.currentEvents p)) (num 500))
                          (num 100))
          /\ (Progress.ready p = true <-> 500 <= Progress.currentEvents p)
          /\ (fst (ntrpRNG.hasMinimumEntropy builtin w) = Normal true <->
              Progress.ready p = true
              /\ ntrpRNG.entropyPool (snd w) <> []
              /\ ntrpRNG.timerDeltas (snd w) <> [])).
Proof.
  intros w Hmin.
  assert (Henough : enough (snd w) = true <->
            500 <= weightedTotal (snd w)
            /\ ntrpRNG.entropyPool (snd w) <> []
            /\ ntrpRNG.timerDeltas (snd w) <> []).
  { unfold enough, ready. rewrite !andb_true_iff, Z.leb_le, !nonempty_len.
    tauto. }
  assert (Hrun : ntrpRNG.hasMinimumEntropy builtin w
                 = (Normal (enough (snd w)), w)).
  { rewrite hasMinimumEntropy_run, Hmin. reflexivity. }
  split.
  - exists (enough (snd w)). split; [exact Hrun | exact Henough].
  - eexists. split; [apply getProgress_run |].
    cbn [Progress.currentEvents Progress.requiredEvents Progress.percentage
         Progress.ready].
    split; [reflexivity |]. split; [reflexivity |]. split; [reflexivity |].
    split; [apply Z.leb_le |].
    rewrite Hrun. cbn [fst]. fold (ready (snd w)).
    assert (Hsplit : enough (snd w) = true <->
              ready (snd w) = true
              /\ ntrpRNG.entropyPool (snd w) <> []
              /\ ntrpRNG.timerDeltas (snd w) <> []).
    { unfold enough. rewrite !andb_true_iff, !nonempty_len. tauto. }
    rewrite <- Hsplit. split; [intros Heq; now injection Heq | congruence].
Qed.

Lemma C2_readiness_and_progress_witness :
  ntrpRNG.minEvents (snd (sample_host, sample_instance)) = 500
  /\ fst (ntrpRNG.hasMinimumEntropy builtin (sample_host, sample_instance))
     = Normal true
  /\ fst (ntrpRNG.getProgress (sample_host, sample_instance))
     = Normal {| Progress.currentEvents := 500;
                 Progress.requiredEvents := 500;
                 Progress.percentage := num 100;
                 Progress.ready := true |}.
Proof.
  split; [reflexivity |].
  destruct (C2_readiness_and_progress (sample_host, sample_instance) eq_refl)
    as [[b [Hrun Hb]] _].
  split.
  - rewrite Hrun. cbn [fst]. f_equal. apply Hb.
    cbn. repeat split; (lia || discriminate).
  - vm_compute. reflexivity.
Defined.

(** ** C4: the integrity guard *)

Lemma constants_disagree_iff K :
  constants_disagree K = true <->
  ~ (REQUIRED_MIN_EVENTS K = _VERIFY_A K
     /\ REQUIRED_MIN_EVENTS K = _VERIFY_B K
     /\ REQUIRED_MIN_EVENTS K = _VERIFY_C K).
Proof.
  unfold constants_disagree. rewrite !orb_true_iff, !negb_true_iff.
  destruct (Z.eqb_spec (REQUIRED_MIN_EVENTS K) (_VERIFY_A K));
    destruct (Z.eqb_spec (REQUIRED_MIN_EVENTS K) (_VERIFY_B K));
    destruct (Z.eqb_spec (REQUIRED_MIN_EVENTS K) (_VERIFY_C K));
    intuition discriminate.
Qed.

Lemma guard_fails_iff K (o : ntrpRNG.t) :
  constants_disagree K || negb (ntrpRNG.minEvents o =? 500) = true <->
  constants_disagree K = true \/ ntrpRNG.minEvents o <> 500.
Proof.
  rewrite orb_true_iff, negb_true_iff.
  destruct (Z.eqb_spec (ntrpRNG.minEvents o) 500); intuition discriminate.
Qed.

(** C4.  The constructor throws the integrity error exactly when the four
    threshold constants are not all equal; [hasMinimumEntropy()] and
    [generateSeed()] throw it exactly when the constants are not all equal
    or the instance's [minEvents] field is not 500.  With the constants as
    declared, construction returns for every options object, the new
    instance has [minEvents = 500] whatever [options.minEvents] says, and
    the console receives the override warning, once, exactly when
    [options.minEvents] is present and different from 500. *)
Theorem C4_integrity_guard :
  forall (crypto : WebCrypto) (K : Consts),
    let disagree :=
      ~ (REQUIRED_MIN_EVENTS K = _VERIFY_A K
         /\ REQUIRED_MIN_EVENTS K = _VERIFY_B K
         /\ REQUIRED_MIN_EVENTS K = _VERIFY_C K) in
    (forall (options : Options.t) (h : Host),
       fst (ntrpRNG.constructor K options h) = Throw integrity_error
       <-> disagree)
    /\ (forall w : Host * ntrpRNG.t,
          fst (ntrpRNG.hasMinimumEntropy K w) = Throw integrity_error
          <-> disagree \/ ntrpRNG.minEvents (snd w) <> 500)
    /\ (forall (skipValidation : bool) (w : Host * ntrpRNG.t),
          fst (ntrpRNG.generateSeed K skipValidation w) = Throw integrity_error
          <-> disagree \/ ntrpRNG.minEvents (snd w) <> 500)
    /\ (forall (options : Options.t) (h : Host),
          exists o h',
            ntrpRNG.constructor builtin options h = (Normal o, h')
            /\ ntrpRNG.minEvents o = 500
            /\ warnings h'
               = warnings h
                 ++ (if ntrpRNG.override_requested options
                     then [override_warning] else [])
            /\ (ntrpRNG.override_requested options = true <->
                exists v, Options.minEvents options = Some v /\ v <> 500)).
Proof.
  intros crypto K disagree. subst disagree.
  split; [| split; [| split]].
  - intros options h. rewrite <- constants_disagree_iff.
    destruct (constants_disagree K) eqn:HK.
    + unfold ntrpRNG.constructor. rewrite HK. now split.
    + destruct (constructor_returns K options h HK) as (o & h' & Hnew & _).
      rewrite Hnew. cbn [fst]. split; discriminate.
  - intros w.
    rewrite hasMinimumEntropy_run, <- constants_disagree_iff, <- guard_fails_iff.
    cbn [fst].
    destruct (constants_disagree K || negb (ntrpRNG.minEvents (snd w) =? 500));
      split; (reflexivity || discriminate).
  - intros skip [h o].
    rewrite <- constants_disagree_iff, <- guard_fails_iff. cbn [snd].
    destruct (guard_cases K o) as [[HK Hmin] | Hbad].
    + rewrite generateSeed_run by assumption. rewrite HK, Hmin.
      cbn [orb negb Z.eqb Pos.eqb].
      split; [| discriminate].
      destruct (negb skip && negb (enough o)); cbn [fst].
      * intros Heq. exfalso.
        apply (insufficient_is_not_integrity
                 (weightedTotal o) (len (ntrpRNG.entropyPool o))
                 (len (ntrpRNG.timerDeltas o))).
        congruence.
      * allocation; [| discriminate].
        destruct (65536 <? len _); discriminate.
    + rewrite generateSeed_tampered by assumption. rewrite Hbad. now split.
  - intros options h.
    destruct (constructor_returns builtin options h eq_refl)
      as (o & h' & Hnew & Hmin & _ & _ & _ & _ & _ & Hwarn).
    exists o, h'. repeat split; try assumption.
    + unfold ntrpRNG.override_requested.
      destruct (Options.minEvents options) as [v |]; [| discriminate].
      intros Hne. exists v. split; [reflexivity |].
      apply negb_true_iff in Hne. now apply Z.eqb_neq.
    + intros (v & Hv & Hne). unfold ntrpRNG.override_requested. rewrite Hv.
      apply negb_true_iff. now apply Z.eqb_neq.
Qed.

(** ** C10: what [clearEntropy] changes and what it leaves *)

(** C10.  [clearEntropy()] returns, leaving both pools empty and the five
    counters at zero.  The collection flag, the iteration count, the salt
    size, the three timer handles and every other field of the instance
    are as before, and so is the host, with its registered listeners and
    pending timers: an active collection stays active. *)
Theorem C10_clearEntropy_frame :
  forall w : Host * ntrpRNG.t,
    let o := snd w in
    let o' := snd (after ntrpRNG.clearEntropy w) in
    fst (ntrpRNG.clearEntropy w) = Normal tt
    /\ ntrpRNG.entropyPool o' = []
    /\ ntrpRNG.timerDeltas o' = []
    /\ ntrpRNG.eventCount o'
       = {| EventCount.mouse := 0; EventCount.keyboard := 0;
            EventCount.touch := 0; EventCount.scroll := 0;
            EventCount.other := 0 |}
    /\ ntrpRNG.isCollecting o' = ntrpRNG.isCollecting o
    /\ ntrpRNG.iterations o' = ntrpRNG.iterations o
    /\ ntrpRNG.saltSize o' = ntrpRNG.saltSize o
    /\ ntrpRNG.timerId1 o' = ntrpRNG.timerId1 o
    /\ ntrpRNG.timerId2 o' = ntrpRNG.timerId2 o
    /\ ntrpRNG.rafId o' = ntrpRNG.rafId o
    /\ ntrpRNG.autoCollect o' = ntrpRNG.autoCollect o
    /\ ntrpRNG.minEvents o' = ntrpRNG.minEvents o
    /\ ntrpRNG.lastTimestamp o' = ntrpRNG.lastTimestamp o
    /\ fst (after ntrpRNG.clearEntropy w) = fst w
    /\ listeners (fst (after ntrpRNG.clearEntropy w)) = listeners (fst w)
    /\ timers (fst (after ntrpRNG.clearEntropy w)) = timers (fst w).
Proof.
  intros [h o]. cbn. repeat split.
Qed.

(** ** C9: the baseline generator *)

Lemma next_random_length h n : length (next_random h n) = n.
Proof. unfold next_random. now rewrite length_map, length_seq. Qed.

Lemma baseline_call_keeps_zero c :
  maintains (fun w : Host * cgRNDV.t =>
               cgRNDV.entropyPool (snd w) = []
               /\ cgRNDV.timerDeltas (snd w) = []
               /\ cgRNDV.eventCount (snd w) = EventCount.zero)
    (cgRNDV.perform c).
Proof.
  destruct c; cbn [cgRNDV.perform];
    try solve [apply (maintains_of_stable
                        (fun o => cgRNDV.entropyPool o = []
                                  /\ cgRNDV.timerDeltas o = []
                                  /\ cgRNDV.eventCount o = EventCount.zero));
               frame];
    intros [h o] Hzero; cbn in *; tauto.
Qed.

Lemma baseline_calls_keep_zero calls :
  forall w : Host * cgRNDV.t,
    cgRNDV.entropyPool (snd w) = []
    /\ cgRNDV.timerDeltas (snd w) = []
    /\ cgRNDV.eventCount (snd w) = EventCount.zero ->
    cgRNDV.eventCount (snd (cgRNDV.perform_all calls w)) = EventCount.zero.
Proof.
  unfold cgRNDV.perform_all.
  induction calls as [| c calls IH]; intros w Hzero; cbn [fold_left].
  - tauto.
  - apply IH. now apply baseline_call_keeps_zero.
Qed.

(** C9.  The baseline's constructor returns for every options object, and
    after any sequence of calls on the new instance [getStats()] reports
    every counter at zero.  In the state reached from any state by any
    sequence of calls: [hasMinimumEntropy()] returns true; [generateSeed],
    with either flag, returns the next 64 bytes of the hardware random
    source and moves the source on by 64, touching nothing else;
    [startCollecting()] and [stopCollecting()] set the flag to true and to
    false, and change no other field and nothing in the host; and
    [getStats()] reports [totalEvents] 0, both pool sizes 0 and
    [hasMinimumEntropy] true. *)
Theorem C9_baseline_generator :
  (forall (options : Options.t) (h : Host),
     exists o h',
       cgRNDV.constructor options h = (Normal o, h')
       /\ forall calls : list cgRNDV.Call,
            let w := cgRNDV.perform_all calls (h', o) in
            exists stats,
              cgRNDV.getStats w = (Normal stats, w)
              /\ Stats.eventCount stats = EventCount.zero)
  /\ (forall (calls : list cgRNDV.Call) (w0 : Host * cgRNDV.t),
        let w := cgRNDV.perform_all calls w0 in
        cgRNDV.hasMinimumEntropy w = (Normal true, w)
        /\ (forall skipValidation : bool,
              cgRNDV.generateSeed skipValidation w
              = (Normal (next_random (fst w) 64),
                 (set_randomDrawn (randomDrawn (fst w) + 64) (fst w), snd w))
              /\ length (next_random (fst w) 64) = 64%nat)
        /\ (forall flag : bool,
              (if flag then cgRNDV.startCollecting else cgRNDV.stopCollecting) w
              = (Normal tt,
                 (fst w,
                  {| cgRNDV.iterations := cgRNDV.iterations (snd w);
                     cgRNDV.saltSize := cgRNDV.saltSize (snd w);
                     cgRNDV.autoCollect := cgRNDV.autoCollect (snd w);
                     cgRNDV.minEvents := cgRNDV.minEvents (snd w);
                     cgRNDV.isCollecting := flag;
                     cgRNDV.entropyPool := cgRNDV.entropyPool (snd w);
                     cgRNDV.timerDeltas := cgRNDV.timerDeltas (snd w);
                     cgRNDV.eventCount := cgRNDV.eventCount (snd w) |})))
        /\ (exists stats,
              cgRNDV.getStats w = (Normal stats, w)
              /\ Stats.totalEvents stats = 0
              /\ Stats.entropyPoolSize stats = 0
              /\ Stats.timerDeltasSize stats = 0
              /\ Stats.hasMinimumEntropy stats = true)).
Proof.
  split.
  - intros options h.
    assert (Hnew : exists o h',
              cgRNDV.constructor options h = (Normal o, h')
              /\ cgRNDV.entropyPool o = []
              /\ cgRNDV.timerDeltas o = []
              /\ cgRNDV.eventCount o = EventCount.zero).
    { unfold cgRNDV.constructor.
      destruct (Options.autoCollect options) as [[|] |]; cbn;
        eexists; eexists; repeat split. }
    destruct Hnew as (o & h' & Hnew & Hzero).
    exists o, h'. split; [exact Hnew |].
    intros calls w. eexists. split; [reflexivity |].
    cbn [Stats.eventCount]. subst w.
    now apply baseline_calls_keep_zero.
  - intros calls w0 w. clearbody w. destruct w as [h o].
    split; [reflexivity |]. split; [| split].
    + intros skip. split; [| apply next_random_length].
      unfold cgRNDV.generateSeed. now rewrite getRandomValues_run.
    + intros [|]; reflexivity.
    + eexists. split; [reflexivity |]. cbn. repeat split.
Qed.

(** ** Successive derivations *)

(** Two derivations in a row on an unchanged instance take their salts and
    their Path B inputs from four successive, disjoint stretches of the
    hardware random source; each seed is the derived seed of its own
    stretches.  Whether the two seeds then differ is a matter of the source
    and of the digests, not of this program. *)
Lemma generateSeed_twice_fresh_draws `{WebCrypto} h o :
  ntrpRNG.minEvents o = 500 ->
  0 <= ntrpRNG.saltSize o <= 65536 ->
  let size := Z.to_nat (ntrpRNG.saltSize o) in
  let from n k := map (randomSource h) (seq (randomDrawn h + n) k) in
  let seed salt random_bytes :=
    derived_seed (ntrpRNG.entropyPool o) (ntrpRNG.timerDeltas o)
      salt random_bytes (ntrpRNG.iterations o) in
  exists h1 h2,
    ntrpRNG.generateSeed builtin true (h, o)
    = (Normal (seed (from O size) (from size 64%nat)), (h1, o))
    /\ ntrpRNG.generateSeed builtin true (h1, o)
       = (Normal (seed (from (size + 64)%nat size)
                       (from (size + 64 + size)%nat 64%nat)), (h2, o)).
Proof.
  intros Hmin Hsalt size from seed.
  assert (Hblank : new_Uint8Array (arrayLimit h) (ntrpRNG.saltSize o)
                   = Normal (zeros size))
    by (now apply new_Uint8Array_ok).
  assert (Hquota : (65536 <? len (zeros size)) = false).
  { unfold len. rewrite zeros_length. apply Z.ltb_ge. subst size. lia. }
  eexists. eexists.
  rewrite !generateSeed_run by (reflexivity || exact Hmin).
  cbn [negb andb]. rewrite !new_Uint8Array_ok by exact Hsalt.
  fold size. rewrite !Hquota. cbv zeta.
  rewrite zeros_length.
  cbn [randomDrawn randomSource set_randomDrawn set_yields next_random].
  unfold next_random.
  cbn [randomDrawn randomSource set_randomDrawn set_yields].
  subst from seed. cbv beta.
  rewrite Nat.add_0_r, !Nat.add_assoc.
  split; reflexivity.
Qed.

(* ================================================================== *)
(** * Further properties of the code *)

(** ** The encodings *)

Lemma concat_empty_cons x l :
  String.concat EmptyString (x :: l)
  = String.append x (String.concat EmptyString l).
Proof.
  destruct l as [| y l]; cbn [String.concat].
  - induction x as [| c x IH]; cbn; [reflexivity | now rewrite <- IH].
  - reflexivity.
Qed.

(** The two digits written for a byte read back as that byte. *)
Lemma fromHex_one_byte b rest :
  fromHex (String.append (ntrpRNG.padStart2 (ntrpRNG.toString16 b)) rest)
  = option_map (cons b) (fromHex rest).
Proof. destruct b; cbn; now destruct (fromHex rest). Qed.

Lemma hex_pair_shape b :
  exists hi lo,
    ntrpRNG.padStart2 (ntrpRNG.toString16 b) = String hi (String lo EmptyString)
    /\ hex_value hi <> None /\ hex_value lo <> None.
Proof. destruct b; eexists; eexists; cbn; repeat split; discriminate. Qed.

Lemma list_ascii_of_string_append a b :
  list_ascii_of_string (String.append a b)
  = list_ascii_of_string a ++ list_ascii_of_string b.
Proof. induction a as [| c a IH]; cbn; [reflexivity | now rewrite IH]. Qed.

Lemma length_append a b :
  String.length (String.append a b) = (String.length a + String.length b)%nat.
Proof. induction a as [| c a IH]; cbn; [reflexivity | now rewrite IH]. Qed.

Lemma fromHex_toHex bytes : fromHex (ntrpRNG.toHex bytes) = Some bytes.
Proof.
  unfold ntrpRNG.toHex.
  induction bytes as [| b bytes IH]; [reflexivity |].
  cbn [map]. rewrite concat_empty_cons, fromHex_one_byte, IH. reflexivity.
Qed.

Lemma toHex_length bytes :
  String.length (ntrpRNG.toHex bytes) = (2 * length bytes)%nat.
Proof.
  unfold ntrpRNG.toHex. induction bytes as [| b bytes IH]; [reflexivity |].
  cbn [map]. rewrite concat_empty_cons, length_append, IH.
  destruct (hex_pair_shape b) as (hi & lo & -> & _). cbn [String.length length].
  lia.
Qed.

Lemma toHex_alphabet bytes c :
  In c (list_ascii_of_string (ntrpRNG.toHex bytes)) -> hex_value c <> None.
Proof.
  unfold ntrpRNG.toHex. induction bytes as [| b bytes IH]; intros Hc.
  - destruct Hc.
  - cbn [map] in Hc.
    rewrite concat_empty_cons, list_ascii_of_string_append in Hc.
    destruct (hex_pair_shape b) as (hi & lo & Hpair & Hhi & Hlo).
    rewrite Hpair in Hc. cbn [list_ascii_of_string app In] in Hc.
    destruct Hc as [<- | [<- | Hc]]; [exact Hhi | exact Hlo | now apply IH].
Qed.

(** X1.  [toHex] writes two characters for each byte, all of them digits
    or lowercase letters a to f, and reading the characters back two by
    two gives the bytes again; so [toHex] loses nothing and two different
    byte arrays never get the same text. *)
Theorem X1_toHex_round_trip :
  forall bytes : Uint8Array,
    fromHex (ntrpRNG.toHex bytes) = Some bytes
    /\ String.length (ntrpRNG.toHex bytes) = (2 * length bytes)%nat
    /\ (forall c, In c (list_ascii_of_string (ntrpRNG.toHex bytes)) ->
                  hex_value c <> None)
    /\ (forall other : Uint8Array,
          ntrpRNG.toHex other = ntrpRNG.toHex bytes -> other = bytes).
Proof.
  intros bytes. split; [apply fromHex_toHex |].
  split; [apply toHex_length |]. split; [apply toHex_alphabet |].
  intros other Hsame.
  pose proof (fromHex_toHex other) as Hother.
  rewrite Hsame, fromHex_toHex in Hother. now injection Hother.
Qed.

Lemma char_code_range c : 0 <= ntrpRNG.char_code c < 256.
Proof.
  unfold ntrpRNG.char_code. pose proof (N_ascii_bounded c). lia.
Qed.

Lemma char_of_code_of_char c n :
  n = ntrpRNG.char_code c -> char_of_code n = c.
Proof.
  intros ->. unfold char_of_code.
  rewrite Z.mod_small by apply char_code_range.
  unfold ntrpRNG.char_code. rewrite N2Z.id. apply ascii_N_embedding.
Qed.

(** The alphabet is one to one on the 64 values and never writes [=]. *)
Lemma base64_value_char n :
  0 <= n < 64 ->
  base64_value (ntrpRNG.base64_char n) = Some n
  /\ Ascii.eqb (ntrpRNG.base64_char n) "=" = false.
Proof.
  intros Hn. rewrite <- (Z2Nat.id n) by lia.
  assert (Hk : (Z.to_nat n < 64)%nat) by lia.
  generalize dependent (Z.to_nat n). clear n Hn. intros k Hk.
  do 64 (destruct k as [| k]; [split; reflexivity |]). lia.
Qed.

(** Four sextets carry three bytes. *)
Lemma sextets_of_three a b c :
  0 <= a < 256 -> 0 <= b < 256 -> 0 <= c < 256 ->
  let v1 := a / 4 in
  let v2 := a mod 4 * 16 + b / 16 in
  let v3 := b mod 16 * 4 + c / 64 in
  let v4 := c mod 64 in
  (0 <= v1 < 64 /\ 0 <= v2 < 64 /\ 0 <= v3 < 64 /\ 0 <= v4 < 64)
  /\ v1 * 4 + v2 / 16 = a
  /\ v2 mod 16 * 16 + v3 / 4 = b
  /\ v3 mod 4 * 64 + v4 = c.
Proof. intros Ha Hb Hc. cbv zeta. repeat split; Z.div_mod_to_equations; lia. Qed.

Ltac use_alphabet v :=
  let Hv := fresh "Hv" in
  let He := fresh "He" in
  destruct (base64_value_char v) as [Hv He]; [lia | rewrite ?Hv, ?He].

Lemma atob_btoa_all s :
  atob (ntrpRNG.btoa s) = Some s
  /\ (forall a, atob (ntrpRNG.btoa (String a s)) = Some (String a s))
  /\ (forall a b,
        atob (ntrpRNG.btoa (String a (String b s)))
        = Some (String a (String b s))).
Proof.
  induction s as [| c s (IH0 & IH1 & IH2)].
  - split; [reflexivity |]. split.
    + intros a. pose proof (char_code_range a) as Ha.
      destruct (sextets_of_three (ntrpRNG.char_code a) 0 0)
        as ((H1 & H2 & _) & Ea & _); try lia.
      cbv zeta in *. rewrite Z.add_0_r in *.
      cbn [ntrpRNG.btoa atob].
      use_alphabet (ntrpRNG.char_code a / 4).
      use_alphabet (ntrpRNG.char_code a mod 4 * 16).
      cbn. f_equal. f_equal. apply char_of_code_of_char. exact Ea.
    + intros a b.
      pose proof (char_code_range a) as Ha. pose proof (char_code_range b) as Hb.
      destruct (sextets_of_three (ntrpRNG.char_code a) (ntrpRNG.char_code b) 0)
        as ((H1 & H2 & H3 & _) & Ea & Eb & _); try lia.
      cbv zeta in *. rewrite Z.add_0_r in *.
      cbn [ntrpRNG.btoa atob].
      use_alphabet (ntrpRNG.char_code a / 4).
      use_alphabet (ntrpRNG.char_code a mod 4 * 16 + ntrpRNG.char_code b / 16).
      use_alphabet (ntrpRNG.char_code b mod 16 * 4).
      cbn. f_equal. f_equal; [| f_equal]; now apply char_of_code_of_char.
  - split; [apply IH1 |]. split; [intros a; apply IH2 |].
    intros a b.
    pose proof (char_code_range a) as Ha. pose proof (char_code_range b) as Hb.
    pose proof (char_code_range c) as Hc.
    destruct (sextets_of_three (ntrpRNG.char_code a) (ntrpRNG.char_code b)
                (ntrpRNG.char_code c))
      as ((H1 & H2 & H3 & H4) & Ea & Eb & Ec); try lia.
    cbv zeta in *.
    cbn [ntrpRNG.btoa atob].
    use_alphabet (ntrpRNG.char_code a / 4).
    use_alphabet (ntrpRNG.char_code a mod 4 * 16 + ntrpRNG.char_code b / 16).
    use_alphabet (ntrpRNG.char_code b mod 16 * 4 + ntrpRNG.char_code c / 64).
    use_alphabet (ntrpRNG.char_code c mod 64).
    rewrite IH0.
    f_equal. f_equal; [| f_equal; [| f_equal]]; now apply char_of_code_of_char.
Qed.

Lemma btoa_length_all s :
  String.length (ntrpRNG.btoa s) = (4 * ((String.length s + 2) / 3))%nat
  /\ (forall a, String.length (ntrpRNG.btoa (String a s))
                = (4 * ((String.length s + 3) / 3))%nat)
  /\ (forall a b, String.length (ntrpRNG.btoa (String a (String b s)))
                  = (4 * ((String.length s + 4) / 3))%nat).
Proof.
  induction s as [| c s (IH0 & IH1 & IH2)].
  - repeat split.
  - split; [| split].
    + rewrite IH1. cbn [String.length]. f_equal. f_equal. lia.
    + intros a. rewrite IH2. cbn [String.length]. f_equal. f_equal. lia.
    + intros a b. cbn [ntrpRNG.btoa String.length]. rewrite IH0.
      replace (S (String.length s) + 4)%nat
        with (String.length s + 2 + 1 * 3)%nat by lia.
      rewrite Nat.div_add by lia. lia.
Qed.

Lemma string_of_list_byte_length bytes :
  String.length (string_of_list_byte bytes) = length bytes.
Proof.
  unfold string_of_list_byte.
  induction bytes as [| b bytes IH]; cbn; [reflexivity | now rewrite IH].
Qed.

Lemma fromBase64_toBase64 bytes :
  fromBase64 (base64_text bytes) = Some bytes.
Proof.
  unfold fromBase64, base64_text.
  rewrite (proj1 (atob_btoa_all _)). cbn [option_map].
  now rewrite list_byte_of_string_of_list_byte.
Qed.

Lemma toBase64_length bytes :
  String.length (base64_text bytes) = (4 * ((length bytes + 2) / 3))%nat.
Proof.
  unfold base64_text.
  now rewrite (proj1 (btoa_length_all _)), string_of_list_byte_length.
Qed.

Lemma toBase64_run {T} bytes (w : Host * T) :
  ntrpRNG.toBase64 bytes w
  = if argumentLimit (fst w) <? len bytes then (Throw RangeError, w)
    else (Normal (base64_text bytes), w).
Proof.
  unfold ntrpRNG.toBase64, ntrpRNG.String_fromCharCode, bind, host_gets.
  cbn [fst snd]. now destruct (argumentLimit (fst w) <? len bytes).
Qed.


Lemma generateSeed_seed_length `{WebCrypto} K skip w seed :
  fst (ntrpRNG.generateSeed K skip w) = Normal seed -> length seed = 64%nat.
Proof.
  destruct w as [h o]. intros Hrun.
  destruct (guard_cases K o) as [[HK Hmin] | Hbad].
  - rewrite generateSeed_run in Hrun by assumption.
    destruct (negb skip && negb (enough o)); [discriminate |].
    destruct (new_Uint8Array (arrayLimit h) (ntrpRNG.saltSize o)) as [blank | e];
      [| discriminate].
    destruct (65536 <? len blank); [discriminate |].
    injection Hrun as <-. apply derived_seed_length.
  - rewrite generateSeed_tampered in Hrun by assumption. discriminate.
Qed.

(** X3.  [generateSeedHex] and [generateSeedBase64] complete as
    [generateSeed] does from the same state: when it rejects they reject
    with the same error and the same effect, and when it resolves they
    resolve with the encoding of that seed, 128 hexadecimal characters or
    88 base64 characters. *)
Theorem X3_encoded_seed_variants :
  forall (crypto : WebCrypto) (K : Consts) (skipValidation : bool)
         (w : Host * ntrpRNG.t),
    let raw := ntrpRNG.generateSeed K skipValidation w in
    match fst raw with
    | Normal seed =>
        ntrpRNG.generateSeedHex K skipValidation w
        = (Normal (ntrpRNG.toHex seed), snd raw)
        /\ String.length (ntrpRNG.toHex seed) = 128%nat
        /\ ntrpRNG.generateSeedBase64 K skipValidation w
           = (Normal (base64_text seed), snd raw)
        /\ String.length (base64_text seed) = 88%nat
    | Throw e =>
        ntrpRNG.generateSeedHex K skipValidation w = (Throw e, snd raw)
        /\ ntrpRNG.generateSeedBase64 K skipValidation w = (Throw e, snd raw)
    end.
Proof.
  intros crypto K skip w raw.
  unfold ntrpRNG.generateSeedHex, ntrpRNG.generateSeedBase64, bind.
  pose proof (generateSeed_seed_length K skip w) as Hlen.
  fold raw in Hlen |- *.
  destruct raw as [[seed | e] w']; cbn [fst snd] in *; [| now split].
  specialize (Hlen seed eq_refl).
  rewrite toBase64_run, toHex_length, toBase64_length. unfold len.
  rewrite Hlen. pose proof (argumentLimit_floor (fst w')) as Hfloor.
  destruct (Z.ltb_spec (argumentLimit (fst w')) (Z.of_nat 64)); [lia |].
  repeat split.
Qed.

(** ** [_xorArrays] and the rounds of hashing *)

Lemma byte_of_Z_of_byte b : byte_of_Z (Z_of_byte b) = b.
Proof.
  unfold byte_of_Z, Z_of_byte.
  pose proof (Byte.to_N_bounded b) as Hb.
  rewrite Z.mod_small by lia. rewrite N2Z.id. now rewrite Byte.of_to_N.
Qed.

Lemma lxor_byte_range a b :
  0 <= a < 256 -> 0 <= b < 256 -> 0 <= Z.lxor a b < 256.
Proof.
  intros Ha Hb.
  assert (Hmod : Z.lxor a b = Z.lxor a b mod 2 ^ 8).
  { apply Z.bits_inj'. intros i Hi.
    rewrite Z.testbit_mod_pow2 by lia.
    destruct (Z.ltb_spec i 8) as [Hlow | Hhigh]; [reflexivity |].
    rewrite Z.lxor_spec.
    rewrite <- (Z.mod_small a (2 ^ 8)), <- (Z.mod_small b (2 ^ 8)) by (cbn; lia).
    now rewrite !Z.mod_pow2_bits_high by lia. }
  rewrite Hmod. apply Z.mod_pos_bound. reflexivity.
Qed.

Lemma byte_xor_comm a b : byte_xor a b = byte_xor b a.
Proof. unfold byte_xor. now rewrite Z.lxor_comm. Qed.

Lemma byte_xor_self a : byte_xor a a = x00.
Proof. unfold byte_xor. now rewrite Z.lxor_nilpotent. Qed.

Lemma byte_xor_cancel a b : byte_xor (byte_xor a b) b = a.
Proof.
  unfold byte_xor at 1. unfold byte_xor. rewrite Z_of_byte_of_Z.
  rewrite Z.mod_small
    by (apply lxor_byte_range; apply Z_of_byte_range).
  rewrite Z.lxor_assoc, Z.lxor_nilpotent, Z.lxor_0_r.
  apply byte_of_Z_of_byte.
Qed.

Lemma _xorArrays_length a b :
  length (ntrpRNG._xorArrays a b) = Nat.min (length a) (length b).
Proof. unfold ntrpRNG._xorArrays. now rewrite length_map, length_combine. Qed.

Lemma _xorArrays_self a : ntrpRNG._xorArrays a a = zeros (length a).
Proof.
  unfold ntrpRNG._xorArrays, zeros.
  induction a as [| x a IH]; [reflexivity |].
  cbn [combine map fst snd length repeat]. now rewrite byte_xor_self, IH.
Qed.

(** X4.  [_xorArrays] returns as many bytes as the shorter argument has;
    it does not depend on the order of its arguments; an array combined
    with itself gives zero bytes only; and combining the result with the
    second argument again gives back the first, cut to the common
    length. *)
Theorem X4_xorArrays :
  forall a b : Uint8Array,
    length (ntrpRNG._xorArrays a b) = Nat.min (length a) (length b)
    /\ ntrpRNG._xorArrays a b = ntrpRNG._xorArrays b a
    /\ ntrpRNG._xorArrays a a = zeros (length a)
    /\ ntrpRNG._xorArrays (ntrpRNG._xorArrays a b) b
       = firstn (length b) a.
Proof.
  intros a b. split; [apply _xorArrays_length |].
  split; [| split; [apply _xorArrays_self |]].
  - unfold ntrpRNG._xorArrays. revert b.
    induction a as [| x a IH]; intros [| y b]; try reflexivity.
    cbn [combine map fst snd]. now rewrite byte_xor_comm, IH.
  - unfold ntrpRNG._xorArrays. revert b.
    induction a as [| x a IH]; intros [| y b]; try reflexivity.
    cbn [combine map fst snd length firstn].
    now rewrite byte_xor_cancel, IH.
Qed.

Lemma derived_seed_without_rounds `{WebCrypto} pool deltas salt random rounds :
  rounds <= 0 ->
  derived_seed pool deltas salt random rounds
  = sha512 (sha512
      (zeros 32
       ++ ntrpRNG._xorArrays (sha256 random) (firstn 32 (sha512 random))
       ++ salt)).
Proof.
  intros Hle. unfold derived_seed.
  replace (Z.to_nat rounds) with O by lia. cbn [hash_chain].
  rewrite firstn_all2 by (rewrite sha256_length; lia).
  now rewrite _xorArrays_self, sha256_length.
Qed.

(** X5.  A zero or negative iteration count runs no round of either
    iterative hash.  Both Path A hashes are then the pre-hash itself, their
    XOR is 32 zero bytes, and the seed no longer depends on the pools at
    all: instances that differ only in their pools derive the same seed
    from the same host.  The constructor replaces an iteration count of 0
    by 5000 but keeps a negative one. *)
Theorem X5_no_rounds_no_user_entropy :
  forall (crypto : WebCrypto) (h : Host) (o : ntrpRNG.t)
         (pool deltas : list Number),
    ntrpRNG.iterations o <= 0 ->
    ntrpRNG.minEvents o = 500 ->
    fst (ntrpRNG.generateSeed builtin true
           (h, ntrpRNG.set_entropyPool pool (ntrpRNG.set_timerDeltas deltas o)))
    = fst (ntrpRNG.generateSeed builtin true (h, o))
    /\ (forall data algorithm (w : Host * ntrpRNG.t),
          ntrpRNG._iterativeHash data algorithm (ntrpRNG.iterations o) w
          = (Normal data, w))
    /\ (forall (n : Z) (h0 : Host),
          exists o' h',
            ntrpRNG.constructor builtin
              {| Options.iterations := Some n; Options.saltSize := None;
                 Options.autoCollect := None; Options.minEvents := None |} h0
            = (Normal o', h')
            /\ ntrpRNG.iterations o' = if n =? 0 then 5000 else n).
Proof.
  intros crypto h o pool deltas Hit Hmin. split; [| split].
  - rewrite !generateSeed_run by (reflexivity || exact Hmin).
    cbn [negb andb ntrpRNG.saltSize ntrpRNG.set_entropyPool
         ntrpRNG.set_timerDeltas ntrpRNG.iterations
         ntrpRNG.entropyPool ntrpRNG.timerDeltas].
    destruct (new_Uint8Array (arrayLimit h) (ntrpRNG.saltSize o)) as [blank | e];
      [| reflexivity].
    destruct (65536 <? len blank); [reflexivity |].
    cbv zeta. cbn [fst]. now rewrite !derived_seed_without_rounds by exact Hit.
  - intros data algorithm w. unfold ntrpRNG._iterativeHash.
    replace (Z.to_nat (ntrpRNG.iterations o)) with O by lia. reflexivity.
  - intros n h0.
    destruct (constructor_returns builtin
                {| Options.iterations := Some n; Options.saltSize := None;
                   Options.autoCollect := None; Options.minEvents := None |}
                h0 eq_refl)
      as (o' & h' & Hnew & _ & Hiter & _).
    exists o', h'. split; [exact Hnew | exact Hiter].
Qed.

Lemma X5_no_rounds_no_user_entropy_witness :
  let o := ntrpRNG.set_eventCount EventCount.zero
             {| ntrpRNG.iterations := -1; ntrpRNG.saltSize := 16;
                ntrpRNG.autoCollect := false; ntrpRNG.minEvents := 500;
                ntrpRNG.entropyPool := []; ntrpRNG.timerDeltas := [];
                ntrpRNG.lastTimestamp := num 0; ntrpRNG.isCollecting := false;
                ntrpRNG.eventCount := EventCount.zero;
                ntrpRNG.timerId1 := None; ntrpRNG.timerId2 := None;
                ntrpRNG.rafId := None |} in
  ntrpRNG.iterations o <= 0
  /\ ntrpRNG.minEvents o = 500
  /\ fst (@ntrpRNG.generateSeed toy_crypto builtin true
            (sample_host,
             ntrpRNG.set_entropyPool [num 1; num 2]
               (ntrpRNG.set_timerDeltas [num 3] o)))
     = fst (@ntrpRNG.generateSeed toy_crypto builtin true (sample_host, o)).
Proof.
  intros o.
  assert (Hit : ntrpRNG.iterations o <= 0) by (cbn; lia).
  assert (Hmin : ntrpRNG.minEvents o = 500) by reflexivity.
  split; [exact Hit |]. split; [exact Hmin |].
  exact (proj1 (X5_no_rounds_no_user_entropy toy_crypto sample_host o
                  [num 1; num 2] [num 3] Hit Hmin)).
Defined.

(** ** What [generateSeed] changes *)

(** X6.  [generateSeed] never changes the instance.  A call that rejects,
    for any reason, leaves the host as it was as well: nothing has been
    drawn from the hardware random source.  A call that resolves has drawn
    exactly [saltSize + 64] bytes from it and has yielded to the scheduler
    twice [floor(iterations / 100)] times; listeners, timers, warnings and
    the read positions of both clocks are as before. *)
Theorem X6_generateSeed_effect :
  forall (crypto : WebCrypto) (K : Consts) (skipValidation : bool)
         (w : Host * ntrpRNG.t),
    let r := ntrpRNG.generateSeed K skipValidation w in
    snd (snd r) = snd w
    /\ match fst r with
       | Throw _ => snd r = w
       | Normal _ =>
           randomDrawn (fst (snd r))
           = (randomDrawn (fst w)
              + Z.to_nat (ntrpRNG.saltSize (snd w)) + 64)%nat
           /\ yields (fst (snd r))
              = (yields (fst w)
                 + 2 * Z.to_nat (ntrpRNG.iterations (snd w) / 100))%nat
           /\ listeners (fst (snd r)) = listeners (fst w)
           /\ timers (fst (snd r)) = timers (fst w)
           /\ warnings (fst (snd r)) = warnings (fst w)
           /\ performanceReads (fst (snd r)) = performanceReads (fst w)
           /\ dateReads (fst (snd r)) = dateReads (fst w)
       end.
Proof.
  intros crypto K skip [h o]. cbv zeta.
  split; [apply generateSeed_keeps_instance |].
  destruct (guard_cases K o) as [[HK Hmin] | Hbad].
  - rewrite generateSeed_run by assumption.
    destruct (negb skip && negb (enough o)); [reflexivity |].
    destruct (new_Uint8Array (arrayLimit h) (ntrpRNG.saltSize o)) as [blank | e] eqn:Hnew;
      [| reflexivity].
    destruct (65536 <? len blank); [reflexivity |].
    cbv zeta.
    cbn [fst snd randomDrawn set_randomDrawn yields set_yields listeners
         timers warnings performanceReads dateReads].
    rewrite (new_Uint8Array_length _ _ _ Hnew), batches_of_iterations.
    repeat split; lia.
  - now rewrite generateSeed_tampered by exact Hbad.
Qed.

(** ** Readiness, once reached *)

Lemma enough_spec o :
  enough o = true
  <-> 500 <= weightedTotal o
      /\ ntrpRNG.entropyPool o <> [] /\ ntrpRNG.timerDeltas o <> [].
Proof.
  unfold enough, ready.
  rewrite !andb_true_iff, Z.leb_le, !nonempty_len. tauto.
Qed.

Lemma trimmed_nonempty limit keep pool :
  0 < keep <= limit -> pool <> [] -> trimmed limit keep pool <> [].
Proof.
  intros Hk Hne. unfold trimmed.
  destruct (Z.ltb_spec limit (len pool)) as [Hover | Hfits]; [| exact Hne].
  destruct (slice_last_tail keep pool) as [Hlen _]; [lia |].
  intros Hnil. rewrite Hnil in Hlen. cbn in Hlen. lia.
Qed.

Lemma _addEntropy_enough values :
  maintains (fun w => enough (snd w) = true) (ntrpRNG._addEntropy values).
Proof.
  intros [h o] Hw. rewrite _addEntropy_run. cbn [snd] in *.
  apply enough_spec in Hw. destruct Hw as (Hready & Hpool & Htimer).
  apply enough_spec. split; [exact Hready |]. split; [| exact Htimer].
  cbn [ntrpRNG.entropyPool ntrpRNG.set_entropyPool].
  apply trimmed_nonempty; [lia |].
  destruct (ntrpRNG.entropyPool o); [congruence | discriminate].
Qed.

Lemma _collectTimerDelta_enough :
  maintains (fun w => enough (snd w) = true) ntrpRNG._collectTimerDelta.
Proof.
  intros [h o] Hw. rewrite _collectTimerDelta_run. cbv zeta. cbn [snd] in *.
  apply enough_spec in Hw. destruct Hw as (Hready & Hpool & Htimer).
  apply enough_spec. split; [exact Hready |]. split; [exact Hpool |].
  cbn [ntrpRNG.timerDeltas ntrpRNG.set_timerDeltas].
  apply trimmed_nonempty; [lia |].
  destruct (ntrpRNG.timerDeltas o); discriminate.
Qed.

Lemma counted_enough (f : EventCount.t -> EventCount.t) :
  (forall o, weightedTotal o
             <= weightedTotal (ntrpRNG.set_eventCount
                                 (f (ntrpRNG.eventCount o)) o)) ->
  maintains (fun w => enough (snd w) = true) (ntrpRNG.bump f).
Proof.
  intros Hf. unfold ntrpRNG.bump.
  apply (maintains_modify (fun o => enough o = true)). intros o Ho.
  apply enough_spec in Ho. destruct Ho as (Hready & Hpool & Htimer).
  apply enough_spec. split; [| split; assumption].
  specialize (Hf o). lia.
Qed.

Ltac keeps_enough :=
  repeat first
    [ progress intros
    | match goal with
      | |- maintains _ (ntrpRNG._addEntropy _) => apply _addEntropy_enough
      | |- maintains _ ntrpRNG._collectTimerDelta =>
          apply _collectTimerDelta_enough
      | |- maintains _ (ntrpRNG.bump _) =>
          apply counted_enough; intros; unfold weightedTotal; cbn; lia
      | |- maintains _ (ret _) => apply maintains_ret
      | |- maintains _ (bind _ _) => apply maintains_bind
      | |- maintains _ (forEach _ _) => apply maintains_forEach
      | |- maintains _ (when _ _) => apply maintains_when
      | |- maintains _ (discard _) => apply maintains_discard
      | |- maintains _ (modify _) =>
          apply (maintains_modify (fun o => enough o = true));
          intros o Ho; exact Ho
      | |- maintains _ (if ?b then _ else _) => destruct b
      | |- maintains _ (match ?x with _ => _ end) => destruct x
      end
    | solve [apply (maintains_of_stable (fun o => enough o = true)); frame] ].

Lemma handle_enough ev :
  maintains (fun w => enough (snd w) = true) (handle ev).
Proof.
  destruct ev; cbn [handle];
    [ unfold ntrpRNG._onMouseMove | unfold ntrpRNG._onMouseDown
    | unfold ntrpRNG._onKeyDown | unfold ntrpRNG._onTouchStart
    | unfold ntrpRNG._onTouchMove | unfold ntrpRNG._onScroll
    | unfold ntrpRNG._onDeviceMotion ];
    keeps_enough.
Qed.

Lemma perform_enough `{WebCrypto} op :
  op <> ClearEntropy ->
  maintains (fun w => enough (snd w) = true) (perform op).
Proof.
  intros Hop. destruct op; cbn [perform]; try congruence.
  - apply handle_enough.
  - unfold ntrpRNG.rafCollect. keeps_enough.
  - unfold ntrpRNG.intervalCollect. keeps_enough.
  - unfold ntrpRNG.recursiveTimeout. keeps_enough.
  - unfold ntrpRNG.startCollecting, ntrpRNG._startTimerJitter. keeps_enough.
  - unfold ntrpRNG.stopCollecting, ntrpRNG._stopTimerJitter. keeps_enough.
  - apply maintains_discard, (maintains_of_stable (fun o => enough o = true)),
      generateSalt_keeps_instance.
  - apply maintains_discard, (maintains_of_stable (fun o => enough o = true)),
      combineEntropy_keeps_instance.
  - apply maintains_discard, (maintains_of_stable (fun o => enough o = true)),
      hasMinimumEntropy_keeps_instance.
  - apply maintains_discard, (maintains_of_stable (fun o => enough o = true)),
      getProgress_keeps_instance.
  - apply maintains_discard, (maintains_of_stable (fun o => enough o = true)),
      getStats_keeps_instance.
  - apply maintains_discard, (maintains_of_stable (fun o => enough o = true)),
      generateSeed_keeps_instance.
Qed.

Lemma perform_all_keeps_threshold `{WebCrypto} ops :
  forall w, ntrpRNG.minEvents (snd (perform_all ops w))
            = ntrpRNG.minEvents (snd w).
Proof.
  unfold perform_all.
  induction ops as [| op ops IH]; intros w; cbn [fold_left]; [reflexivity |].
  rewrite IH. unfold after. apply perform_keeps_threshold.
Qed.

(** X7.  Readiness is not lost by use.  Once [hasMinimumEntropy()] has
    returned true it returns true after any further sequence of events,
    timer callbacks and method calls, seed generations included, as long as
    [clearEntropy()] is not among them: the pools are trimmed but never
    emptied, and the counters only grow. *)
Theorem X7_readiness_persists :
  forall (crypto : WebCrypto) (ops : list Operation) (w : Host * ntrpRNG.t),
    Forall (fun op => op <> ClearEntropy) ops ->
    fst (ntrpRNG.hasMinimumEntropy builtin w) = Normal true ->
    fst (ntrpRNG.hasMinimumEntropy builtin (perform_all ops w)) = Normal true.
Proof.
  intros crypto ops w Hops Hready.
  rewrite hasMinimumEntropy_run in *. cbn [fst] in *.
  rewrite perform_all_keeps_threshold.
  destruct (constants_disagree builtin
            || negb (ntrpRNG.minEvents (snd w) =? 500)); [discriminate |].
  injection Hready as Hready. f_equal.
  revert w Hready. unfold perform_all.
  induction Hops as [| op ops Hop _ IH]; intros w Hready; cbn [fold_left];
    [exact Hready |].
  apply IH. unfold after. now apply perform_enough.
Qed.

Lemma X7_readiness_persists_witness :
  let ops := [Dispatch Scroll; GenerateSeed false; StopCollecting;
              IntervalCallback; GenerateSeed true; StartCollecting] in
  fst (@ntrpRNG.hasMinimumEntropy builtin
         (@perform_all toy_crypto ops (sample_host, sample_instance)))
  = Normal true.
Proof.
  intros ops. apply X7_readiness_persists.
  - unfold ops. repeat constructor; discriminate.
  - vm_compute. reflexivity.
Defined.

(** ** Events alone *)

Lemma handle_keeps_timerDeltas ev :
  stable (fun w => ntrpRNG.timerDeltas (snd w)) (handle ev).
Proof. destruct ev; cbn [handle]; frame. Qed.

Lemma handle_keeps_threshold ev :
  stable (fun w => ntrpRNG.minEvents (snd w)) (handle ev).
Proof. destruct ev; cbn [handle]; frame. Qed.

Lemma dispatch_all_keeps evs :
  forall w,
    ntrpRNG.timerDeltas (snd (dispatch_all evs w)) = ntrpRNG.timerDeltas (snd w)
    /\ ntrpRNG.minEvents (snd (dispatch_all evs w)) = ntrpRNG.minEvents (snd w).
Proof.
  unfold dispatch_all.
  induction evs as [| ev evs IH]; intros w; cbn [fold_left]; [now split |].
  destruct (IH (after (handle ev) w)) as [Htimer Hmin].
  rewrite Htimer, Hmin. unfold after.
  now rewrite (handle_keeps_timerDeltas ev w), (handle_keeps_threshold ev w).
Qed.

(** X8.  User events alone never make an instance ready.  The handlers
    write to the behavioural pool and the counters only; the timer pool is
    filled by the timer callbacks.  So on a new instance, after any
    sequence of events and before the first timer callback has run, the
    timer pool is empty, [hasMinimumEntropy()] returns false and
    [generateSeed()] rejects with the insufficient-entropy error reporting
    [Timer: 0], however large the weighted total, which [getProgress()]
    reports as ready from 500 on. *)
Theorem X8_events_alone_are_not_enough :
  forall (crypto : WebCrypto) (options : Options.t) (h : Host)
         (evs : list Event),
    exists o h',
      ntrpRNG.constructor builtin options h = (Normal o, h')
      /\ let w := dispatch_all evs (h', o) in
         ntrpRNG.timerDeltas (snd w) = []
         /\ fst (ntrpRNG.hasMinimumEntropy builtin w) = Normal false
         /\ fst (ntrpRNG.generateSeed builtin false w)
            = Throw (Error (insufficient_entropy_message
                              (weighted_sum evs)
                              (len (ntrpRNG.entropyPool (snd w))) 0))
         /\ fst (ntrpRNG.getProgress w)
            = Normal {| Progress.currentEvents := weighted_sum evs;
                        Progress.requiredEvents := 500;
                        Progress.percentage :=
                          Math_min (num 100)
                            (num_mul (num_div (num (weighted_sum evs))
                                              (num 500)) (num 100));
                        Progress.ready := 500 <=? weighted_sum evs |}.
Proof.
  intros crypto options h evs.
  destruct (constructor_returns builtin options h eq_refl)
    as (o & h' & Hnew & Hmin & _ & _ & _ & Htimer & Hcount & _).
  exists o, h'. split; [exact Hnew |]. cbv zeta.
  destruct (dispatch_all_keeps evs (h', o)) as [Htimer' Hmin'].
  cbn [snd] in Htimer', Hmin'. rewrite Htimer in Htimer'. rewrite Hmin in Hmin'.
  pose proof (dispatch_all_weight evs (h', o)) as Hweight.
  cbn [snd] in Hweight.
  assert (Hzero : weightedTotal o = 0)
    by (unfold weightedTotal; rewrite Hcount; reflexivity).
  rewrite Hzero, Z.add_0_l in Hweight.
  assert (Hnot : enough (snd (dispatch_all evs (h', o))) = false).
  { unfold enough. rewrite Htimer'. apply andb_false_r. }
  split; [exact Htimer' |]. split; [| split].
  - rewrite hasMinimumEntropy_run, Hmin', Hnot. reflexivity.
  - destruct (dispatch_all evs (h', o)) as [h2 o2]. cbn [snd] in *.
    rewrite generateSeed_run by (reflexivity || assumption).
    rewrite Hnot, Hweight, Htimer'. reflexivity.
  - rewrite getProgress_run, Hweight. reflexivity.
Qed.

(** ** A collection session: the instance and its host *)

Lemma in_step_of_view (w w' : Host * ntrpRNG.t) :
  (listeners (fst w'), timers (fst w'), hasDeviceMotionEvent (fst w'),
   ntrpRNG.isCollecting (snd w'), ntrpRNG.rafId (snd w'),
   ntrpRNG.timerId1 (snd w'), ntrpRNG.timerId2 (snd w'))
  = (listeners (fst w), timers (fst w), hasDeviceMotionEvent (fst w),
     ntrpRNG.isCollecting (snd w), ntrpRNG.rafId (snd w),
     ntrpRNG.timerId1 (snd w), ntrpRNG.timerId2 (snd w)) ->
  in_step w -> in_step w'.
Proof.
  intros Heq. injection Heq as Hl Ht Hd Hc Hr H1 H2.
  unfold in_step, session_listeners. cbv zeta.
  now rewrite Hl, Ht, Hd, Hc, Hr, H1, H2.
Qed.

Lemma maintains_in_step {A} (c : JS ntrpRNG.t A) :
  stable (fun w : Host * ntrpRNG.t =>
            (listeners (fst w), timers (fst w), hasDeviceMotionEvent (fst w),
             ntrpRNG.isCollecting (snd w), ntrpRNG.rafId (snd w),
             ntrpRNG.timerId1 (snd w), ntrpRNG.timerId2 (snd w))) c ->
  maintains in_step c.
Proof. intros Hc w Hw. exact (in_step_of_view w _ (Hc w) Hw). Qed.

Lemma iterate_keeps_session `{WebCrypto} algorithm rounds :
  forall i hash,
    stable (fun w : Host * ntrpRNG.t =>
              (listeners (fst w), timers (fst w), hasDeviceMotionEvent (fst w),
               ntrpRNG.isCollecting (snd w), ntrpRNG.rafId (snd w),
               ntrpRNG.timerId1 (snd w), ntrpRNG.timerId2 (snd w)))
      (ntrpRNG.iterate algorithm rounds i hash).
Proof.
  induction rounds as [| rounds IH]; intros i hash; cbn [ntrpRNG.iterate].
  - apply stable_ret.
  - frame.
Qed.
#[local] Hint Resolve iterate_keeps_session : frame.

Lemma handle_in_step ev : maintains in_step (handle ev).
Proof. apply maintains_in_step. destruct ev; cbn [handle]; frame. Qed.

Lemma _collectTimerDelta_in_step : maintains in_step ntrpRNG._collectTimerDelta.
Proof. apply maintains_in_step. frame. Qed.

Lemma methods_in_step `{WebCrypto} op :
  from_host op = false -> op <> StartCollecting -> op <> StopCollecting ->
  maintains in_step (perform op).
Proof.
  intros Hhost Hstart Hstop.
  destruct op; cbn [perform]; try discriminate; try congruence;
    apply maintains_in_step.
  - frame.
  - frame.
  - apply stable_discard. intros w. now rewrite combineEntropy_run.
  - frame.
  - frame.
  - frame.
  - apply stable_discard. unfold ntrpRNG.generateSeed, ntrpRNG._iterativeHash.
    frame.
Qed.

Lemma startCollecting_in_step : maintains in_step ntrpRNG.startCollecting.
Proof.
  intros [h o] Hw. unfold in_step in Hw. cbn [fst snd] in Hw.
  unfold ntrpRNG.startCollecting. unfold bind at 1, gets. cbn [fst snd].
  destruct (ntrpRNG.isCollecting o) eqn:Hcoll.
  - unfold ret, in_step. cbn [fst snd]. now rewrite Hcoll.
  - destruct Hw as [Hlis Htim].
    destruct h; cbn [listeners timers] in Hlis, Htim; subst.
    unfold in_step, session_listeners.
    destruct hasDeviceMotionEvent0; cbn.
    + repeat (split; [reflexivity |]).
      intros kind id. destruct kind; cbn; split; intros Hin;
        repeat match goal with
               | H : _ \/ _ |- _ => destruct H
               | H : (_, _) = (_, _) |- _ => injection H as ?; subst
               | H : Some _ = Some _ |- _ => injection H as ?; subst
               end;
        try discriminate; try contradiction; try reflexivity; auto.
    + repeat (split; [reflexivity |]).
      intros kind id. destruct kind; cbn; split; intros Hin;
        repeat match goal with
               | H : _ \/ _ |- _ => destruct H
               | H : (_, _) = (_, _) |- _ => injection H as ?; subst
               | H : Some _ = Some _ |- _ => injection H as ?; subst
               end;
        try discriminate; try contradiction; try reflexivity; auto.
Qed.

Lemma eq_timer_refl t : eq_timer t t = true.
Proof. destruct t as [[| |] id]; cbn; apply Nat.eqb_refl. Qed.

Lemma eq_timer_eq a b : eq_timer a b = true -> a = b.
Proof.
  destruct a as [[| |] x], b as [[| |] y]; cbn; try discriminate;
    intros Heq; apply Nat.eqb_eq in Heq; now subst.
Qed.

Lemma filter_none {A} (f : A -> bool) (l : list A) :
  (forall x, In x l -> f x = false) -> filter f l = [].
Proof.
  induction l as [| x l IH]; intros Hall; cbn [filter]; [reflexivity |].
  rewrite (Hall x (or_introl eq_refl)). apply IH.
  intros y Hy. apply Hall. now right.
Qed.

Lemma stopCollecting_in_step : maintains in_step ntrpRNG.stopCollecting.
Proof.
  intros [h o] Hw. unfold in_step in Hw. cbn [fst snd] in Hw.
  unfold ntrpRNG.stopCollecting. unfold bind at 1, gets. cbn [fst snd].
  destruct (ntrpRNG.isCollecting o) eqn:Hcoll; cbn [negb].
  2:{ unfold ret, in_step. cbn [fst snd]. now rewrite Hcoll. }
  destruct Hw as (Hlis & Hraf & Hid1 & Hid2 & Htimers).
  destruct (ntrpRNG.rafId o) as [[| raf] |] eqn:Eraf; try discriminate.
  destruct (ntrpRNG.timerId1 o) as [[| id1] |] eqn:Eid1; try discriminate.
  destruct (ntrpRNG.timerId2 o) as [[| id2] |] eqn:Eid2; try discriminate.
  assert (Hnone :
    filter (fun t => negb (eq_timer (AnimationFrame, S raf) t))
      (filter (fun t => negb (eq_timer (Timeout, S id2) t))
         (filter (fun t => negb (eq_timer (Interval, S id1) t)) (timers h)))
    = []).
  { apply filter_none. intros [kind id] Hin.
    apply filter_In in Hin. destruct Hin as [Hin Hk2].
    apply filter_In in Hin. destruct Hin as [Hin Hk1].
    apply Htimers in Hin.
    destruct kind; injection Hin as <-.
    - now rewrite eq_timer_refl.
    - now rewrite eq_timer_refl in Hk1.
    - now rewrite eq_timer_refl in Hk2. }
  unfold session_listeners in Hlis.
  destruct h, o.
  cbn [listeners timers ntrpRNG.rafId ntrpRNG.timerId1 ntrpRNG.timerId2
       ntrpRNG.isCollecting hasDeviceMotionEvent] in *.
  subst.
  unfold in_step.
  destruct hasDeviceMotionEvent0; cbn; (split; [reflexivity | exact Hnone]).
Qed.

Lemma pending_in kind id rest h :
  pending kind h = id :: rest -> In (kind, id) (timers h).
Proof.
  unfold pending. intros Hp.
  assert (Hin : In id (map snd (filter (fun t => eq_timer (kind, snd t) t)
                                  (timers h))))
    by (rewrite Hp; now left).
  apply in_map_iff in Hin. destruct Hin as ([k x] & Hx & Hin).
  cbn [snd] in Hx. subst x.
  apply filter_In in Hin. destruct Hin as [Hin Heq].
  cbn [snd] in Heq. apply eq_timer_eq in Heq.
  injection Heq as <-. exact Hin.
Qed.

Lemma fire_in_step kind : maintains in_step (fire kind).
Proof.
  intros [h o] Hw. unfold fire. unfold bind at 1, host_gets. cbn [fst snd].
  destruct (pending kind h) as [| id rest] eqn:Hp; [exact Hw |].
  apply pending_in in Hp.
  unfold in_step in Hw. cbn [fst snd] in Hw.
  destruct (ntrpRNG.isCollecting o) eqn:Hcoll.
  2:{ destruct Hw as [_ Hnil]. rewrite Hnil in Hp. contradiction. }
  destruct Hw as (Hlis & Hraf & Hid1 & Hid2 & Htimers).
  pose proof (proj1 (Htimers kind id) Hp) as Hid.
  destruct kind.
  - unfold bind at 1, cancel, host_modify. cbn [fst snd].
    unfold ntrpRNG.rafCollect. unfold bind at 1, gets. cbn [fst snd].
    rewrite Hcoll. cbn [negb]. unfold bind at 1.
    rewrite _collectTimerDelta_run. cbv zeta.
    unfold schedule, bind, host_gets, host_modify, modify, ret.
    cbn [fst snd]. unfold in_step. cbn [fst snd].
    destruct h, o.
    cbn [listeners timers ntrpRNG.rafId ntrpRNG.timerId1 ntrpRNG.timerId2
         ntrpRNG.isCollecting hasDeviceMotionEvent session_listeners
         set_timers set_dateReads set_performanceReads nextHandle
         ntrpRNG.set_rafId ntrpRNG.set_timerDeltas ntrpRNG.set_lastTimestamp
         ntrpRNG.truthy] in *.
    subst. repeat (split; [assumption || reflexivity |]).
    intros k x. rewrite in_app_iff, filter_In, Htimers.
    destruct k; cbn [In eq_timer fst snd negb]; split.
    + intros [[Hx Hne] | [Hx | []]].
      * injection Hx as ->. now rewrite Nat.eqb_refl in Hne.
      * now injection Hx as ->.
    + intros [= <-]. right. now left.
    + intros [[Hx _] | [Hx | []]]; [exact Hx | discriminate].
    + intros Hx. left. now split.
    + intros [[Hx _] | [Hx | []]]; [exact Hx | discriminate].
    + intros Hx. left. now split.
  - unfold ntrpRNG.intervalCollect. unfold bind, gets. cbn [fst snd].
    rewrite Hcoll. cbn [when].
    apply _collectTimerDelta_in_step.
    unfold in_step. cbn [fst snd]. rewrite Hcoll.
    repeat (split; [assumption |]). assumption.
  - unfold bind at 1, cancel, host_modify. cbn [fst snd].
    unfold ntrpRNG.recursiveTimeout. unfold bind at 1, gets. cbn [fst snd].
    rewrite Hcoll. cbn [negb]. unfold bind at 1.
    rewrite _collectTimerDelta_run. cbv zeta.
    unfold schedule, bind, host_gets, host_modify, modify, ret.
    cbn [fst snd]. unfold in_step. cbn [fst snd].
    destruct h, o.
    cbn [listeners timers ntrpRNG.rafId ntrpRNG.timerId1 ntrpRNG.timerId2
         ntrpRNG.isCollecting hasDeviceMotionEvent session_listeners
         set_timers set_dateReads set_performanceReads nextHandle
         ntrpRNG.set_timerId2 ntrpRNG.set_timerDeltas ntrpRNG.set_lastTimestamp
         ntrpRNG.truthy] in *.
    subst. repeat (split; [assumption || reflexivity |]).
    intros k x. rewrite in_app_iff, filter_In, Htimers.
    destruct k; cbn [In eq_timer fst snd negb]; split.
    + intros [[Hx _] | [Hx | []]]; [exact Hx | discriminate].
    + intros Hx. left. now split.
    + intros [[Hx _] | [Hx | []]]; [exact Hx | discriminate].
    + intros Hx. left. now split.
    + intros [[Hx Hne] | [Hx | []]].
      * injection Hx as ->. now rewrite Nat.eqb_refl in Hne.
      * now injection Hx as ->.
    + intros [= <-]. right. now left.
Qed.

Lemma deliver_in_step ev : maintains in_step (deliver ev).
Proof.
  intros w Hw. unfold deliver. unfold bind, host_gets. cbn [fst snd].
  destruct (existsb _ _); [now apply handle_in_step | exact Hw].
Qed.

Lemma happen_in_step `{WebCrypto} op : maintains in_step (happen op).
Proof.
  destruct op;
    try (apply methods_in_step; [reflexivity | discriminate | discriminate]).
  - apply deliver_in_step.
  - apply fire_in_step.
  - apply fire_in_step.
  - apply fire_in_step.
  - apply startCollecting_in_step.
  - apply stopCollecting_in_step.
Qed.

Lemma happen_all_in_step `{WebCrypto} ops :
  forall w, in_step w -> in_step (happen_all ops w).
Proof.
  unfold happen_all.
  induction ops as [| op ops IH]; intros w Hw; cbn [fold_left]; [exact Hw |].
  apply IH. unfold after. now apply happen_in_step.
Qed.

Lemma stopCollecting_stops w :
  ntrpRNG.isCollecting (snd (after ntrpRNG.stopCollecting w)) = false.
Proof.
  unfold after, ntrpRNG.stopCollecting. unfold bind at 1, gets. cbn [fst snd].
  destruct (ntrpRNG.isCollecting (snd w)) eqn:Hcoll; cbn [negb];
    [| exact Hcoll].
  unfold bind at 1, modify. cbn [fst snd].
  match goal with
  | |- ntrpRNG.isCollecting (snd (snd (?c ?w0))) = _ =>
      assert (Hst : stable (fun w => ntrpRNG.isCollecting (snd w)) c) by frame;
      pose proof (Hst w0) as Hsame
  end.
  cbv beta in Hsame. rewrite Hsame. reflexivity.
Qed.

Lemma stopped_is_deaf `{WebCrypto} op w :
  in_step w -> ntrpRNG.isCollecting (snd w) = false ->
  from_host op = true -> after (happen op) w = w.
Proof.
  intros Hw Hcoll Hop. unfold in_step in Hw. rewrite Hcoll in Hw.
  destruct Hw as [Hlis Htim].
  destruct op; try discriminate; unfold after; cbn [happen].
  - unfold deliver, bind, host_gets. cbn [fst snd]. now rewrite Hlis.
  - unfold fire, bind, host_gets, pending. cbn [fst snd]. now rewrite Htim.
  - unfold fire, bind, host_gets, pending. cbn [fst snd]. now rewrite Htim.
  - unfold fire, bind, host_gets, pending. cbn [fst snd]. now rewrite Htim.
Qed.

Lemma constructor_in_step options h o h' :
  listeners h = [] -> timers h = [] ->
  ntrpRNG.constructor builtin options h = (Normal o, h') ->
  in_step (h', o)
  /\ ntrpRNG.isCollecting o
     = match Options.autoCollect options with
       | Some false => false
       | _ => true
       end.
Proof.
  intros Hlis Htim. unfold ntrpRNG.constructor.
  cbn [constants_disagree builtin].
  change (constants_disagree builtin) with false. cbv iota.
  assert (Hstart : in_step (h, ntrpRNG.fields options))
    by (unfold in_step; cbn [fst snd ntrpRNG.fields ntrpRNG.isCollecting];
        now split).
  assert (Hbody : maintains in_step (ntrpRNG.constructor_body options)).
  { unfold ntrpRNG.constructor_body.
    apply maintains_bind; [apply maintains_in_step; frame | intros _].
    apply maintains_bind; [apply maintains_in_step; frame | intros now].
    apply maintains_bind; [apply maintains_in_step; frame | intros _].
    apply maintains_bind; [apply maintains_in_step; frame | intros auto].
    apply maintains_when, startCollecting_in_step. }
  specialize (Hbody _ Hstart).
  assert (Hflag :
    ntrpRNG.isCollecting
      (snd (snd (ntrpRNG.constructor_body options (h, ntrpRNG.fields options))))
    = ntrpRNG.autoCollect (ntrpRNG.fields options)).
  { unfold ntrpRNG.constructor_body.
    destruct (ntrpRNG.override_requested options);
      erewrite bind_normal by reflexivity;
      erewrite bind_normal by reflexivity;
      erewrite bind_normal by reflexivity;
      erewrite bind_normal by reflexivity;
      cbn [fst snd ntrpRNG.autoCollect ntrpRNG.set_lastTimestamp];
      (destruct (ntrpRNG.autoCollect (ntrpRNG.fields options)) eqn:Hauto;
       cbn [when];
       [ unfold ntrpRNG.startCollecting; unfold bind at 1, gets;
         cbn [fst snd ntrpRNG.isCollecting ntrpRNG.set_lastTimestamp
              ntrpRNG.fields];
         unfold bind at 1, modify; cbn [fst snd];
         match goal with
         | |- ntrpRNG.isCollecting (snd (snd (?c ?w0))) = _ =>
             assert (Hst : stable (fun w => ntrpRNG.isCollecting (snd w)) c)
               by frame;
             pose proof (Hst w0) as Hsame
         end;
         cbv beta in Hsame; rewrite Hsame; reflexivity
       | reflexivity ]). }
  destruct (ntrpRNG.constructor_body options (h, ntrpRNG.fields options))
    as [[u | e] [h2 o2]]; [| discriminate].
  intros [= <- <-]. cbn [fst snd] in *. split; [exact Hbody |].
  rewrite Hflag. reflexivity.
Qed.

Lemma startCollecting_twice w :
  after ntrpRNG.startCollecting (after ntrpRNG.startCollecting w)
  = after ntrpRNG.startCollecting w.
Proof.
  assert (Hon : ntrpRNG.isCollecting (snd (after ntrpRNG.startCollecting w))
                = true).
  { unfold after, ntrpRNG.startCollecting. unfold bind at 1, gets.
    cbn [fst snd].
    destruct (ntrpRNG.isCollecting (snd w)) eqn:Hcoll; [exact Hcoll |].
    unfold bind at 1, modify. cbn [fst snd].
    match goal with
    | |- ntrpRNG.isCollecting (snd (snd (?c ?w0))) = _ =>
        assert (Hst : stable (fun w => ntrpRNG.isCollecting (snd w)) c)
          by frame;
        pose proof (Hst w0) as Hsame
    end.
    cbv beta in Hsame. rewrite Hsame. reflexivity. }
  unfold after at 1. unfold ntrpRNG.startCollecting at 1.
  unfold bind at 1, gets. cbn [fst snd]. now rewrite Hon.
Qed.

Lemma stopCollecting_twice w :
  after ntrpRNG.stopCollecting (after ntrpRNG.stopCollecting w)
  = after ntrpRNG.stopCollecting w.
Proof.
  pose proof (stopCollecting_stops w) as Hoff.
  unfold after at 1. unfold ntrpRNG.stopCollecting at 1.
  unfold bind at 1, gets. cbn [fst snd]. now rewrite Hoff.
Qed.

(** X9.  On a host where nothing is registered or pending, the constructor
    returns an instance that collects unless [autoCollect] was [false],
    and from then on, through any sequence of delivered events, fired
    timer callbacks and method calls, instance and host stay in step:
    while the instance collects, its seven listeners (six without
    [DeviceMotionEvent]) are registered and the pending timers are exactly
    the three whose handles it holds; otherwise nothing is registered and
    nothing is pending.  [stopCollecting()] therefore leaves no listener
    and no timer behind, and no event or timer callback changes a stopped
    instance or its host.  Calling [startCollecting()] or
    [stopCollecting()] a second time changes nothing. *)
Theorem X9_collection_session :
  forall (crypto : WebCrypto) (options : Options.t) (h : Host),
    listeners h = [] -> timers h = [] ->
    exists o h',
      ntrpRNG.constructor builtin options h = (Normal o, h')
      /\ ntrpRNG.isCollecting o
         = match Options.autoCollect options with
           | Some false => false
           | _ => true
           end
      /\ forall ops : list Operation,
           let w := happen_all ops (h', o) in
           let stopped := after ntrpRNG.stopCollecting w in
           in_step w
           /\ ntrpRNG.isCollecting (snd stopped) = false
           /\ listeners (fst stopped) = []
           /\ timers (fst stopped) = []
           /\ (forall op, from_host op = true ->
                 after (happen op) stopped = stopped)
           /\ after ntrpRNG.startCollecting (after ntrpRNG.startCollecting w)
              = after ntrpRNG.startCollecting w
           /\ after ntrpRNG.stopCollecting stopped = stopped.
Proof.
  intros crypto options h Hlis Htim.
  destruct (constructor_returns builtin options h eq_refl)
    as (o & h' & Hnew & _).
  exists o, h'. split; [exact Hnew |].
  destruct (constructor_in_step options h o h' Hlis Htim Hnew)
    as [Hstep Hflag].
  split; [exact Hflag |].
  intros ops. cbv zeta.
  pose proof (happen_all_in_step ops _ Hstep) as Hw.
  pose proof (stopCollecting_in_step _ Hw) as Hstopped.
  pose proof (stopCollecting_stops (happen_all ops (h', o))) as Hoff.
  split; [exact Hw |]. split; [exact Hoff |].
  assert (Hclean : in_step (after ntrpRNG.stopCollecting
                              (happen_all ops (h', o)))) by exact Hstopped.
  unfold in_step in Hstopped. cbv zeta in Hstopped.
  unfold after in Hoff. rewrite Hoff in Hstopped.
  destruct Hstopped as [Hnol Hnot].
  split; [exact Hnol |]. split; [exact Hnot |].
  split; [| split].
  - intros op Hop. now apply stopped_is_deaf.
  - apply startCollecting_twice.
  - apply stopCollecting_twice.
Qed.

Lemma X9_collection_session_witness :
  exists o h',
    ntrpRNG.constructor builtin
      {| Options.iterations := None; Options.saltSize := None;
         Options.autoCollect := None; Options.minEvents := None |}
      sample_host = (Normal o, h')
    /\ ntrpRNG.isCollecting o = true
    /\ in_step (@happen_all toy_crypto
                  [Dispatch Scroll; FrameCallback; StopCollecting;
                   TimeoutCallback; StartCollecting] (h', o)).
Proof.
  destruct (X9_collection_session toy_crypto
              {| Options.iterations := None; Options.saltSize := None;
                 Options.autoCollect := None; Options.minEvents := None |}
              sample_host eq_refl eq_refl)
    as (o & h' & Hnew & Hflag & Hall).
  exists o, h'. split; [exact Hnew |]. split; [exact Hflag |].
  exact (proj1 (Hall [Dispatch Scroll; FrameCallback; StopCollecting;
                      TimeoutCallback; StartCollecting])).
Defined.

(** ** [getStats] and [generateSalt] *)

(** X10.  [getStats()] is guarded through its call of
    [hasMinimumEntropy()]: it throws the integrity error exactly when the
    constants are not all equal or the [minEvents] field is not 500, while
    [getProgress()] returns in every state.  When [getStats()] returns,
    its [totalEvents] is [getProgress()]'s [currentEvents], its
    [hasMinimumEntropy] is what [hasMinimumEntropy()] returns, its
    [minEvents] is 500, and the sizes, the flag and the counters are those
    of the instance.  Neither call changes the instance or the host. *)
Theorem X10_getStats_guarded :
  forall (K : Consts) (w : Host * ntrpRNG.t),
    (fst (ntrpRNG.getStats K w) = Throw integrity_error
     <-> ~ (REQUIRED_MIN_EVENTS K = _VERIFY_A K
            /\ REQUIRED_MIN_EVENTS K = _VERIFY_B K
            /\ REQUIRED_MIN_EVENTS K = _VERIFY_C K)
         \/ ntrpRNG.minEvents (snd w) <> 500)
    /\ (forall stats,
          fst (ntrpRNG.getStats K w) = Normal stats ->
          exists progress,
            fst (ntrpRNG.getProgress w) = Normal progress
            /\ Stats.totalEvents stats = Progress.currentEvents progress
            /\ fst (ntrpRNG.hasMinimumEntropy K w)
               = Normal (Stats.hasMinimumEntropy stats)
            /\ Stats.minEvents stats = 500
            /\ Stats.entropyPoolSize stats = len (ntrpRNG.entropyPool (snd w))
            /\ Stats.timerDeltasSize stats = len (ntrpRNG.timerDeltas (snd w))
            /\ Stats.isCollecting stats = ntrpRNG.isCollecting (snd w)
            /\ Stats.eventCount stats = ntrpRNG.eventCount (snd w))
    /\ (exists progress, ntrpRNG.getProgress w = (Normal progress, w))
    /\ snd (ntrpRNG.getStats K w) = w.
Proof.
  intros K w.
  assert (Hbad : constants_disagree K
                 || negb (ntrpRNG.minEvents (snd w) =? 500) = true ->
                 ntrpRNG.getStats K w = (Throw integrity_error, w)).
  { intros Hbad. unfold ntrpRNG.getStats.
    do 6 (erewrite bind_normal by reflexivity).
    unfold bind. now rewrite hasMinimumEntropy_run, Hbad. }
  rewrite <- constants_disagree_iff, <- guard_fails_iff.
  destruct (guard_cases K (snd w)) as [[HK Hmin] | Hguard].
  - rewrite getStats_run by assumption. cbn [fst snd].
    rewrite HK, Hmin. cbn [orb negb Z.eqb Pos.eqb].
    split; [split; discriminate |]. split; [| split; [| reflexivity]].
    + intros stats [= <-]. rewrite getProgress_run, hasMinimumEntropy_run.
      rewrite HK, Hmin. cbn [orb negb Z.eqb Pos.eqb fst].
      eexists. split; [reflexivity |]. cbn. now repeat split.
    + rewrite getProgress_run. now eexists.
  - rewrite (Hbad Hguard), Hguard. cbn [fst snd].
    split; [now split |]. split; [discriminate |]. split; [| reflexivity].
    rewrite getProgress_run. now eexists.
Qed.


(** ** v1.2.1 beside v1.3.0 *)

Lemma alike_bind {A B} (c1 c2 : JS ntrpRNG.t A) (k1 k2 : A -> JS ntrpRNG.t B) :
  alike c1 c2 -> (forall a, alike (k1 a) (k2 a)) ->
  alike (bind c1 k1) (bind c2 k2).
Proof.
  intros Hc Hk w1 w2 Hw. unfold bind.
  destruct (Hc w1 w2 Hw) as [Hr Hs].
  destruct (c1 w1) as [[a1 | e1] u1], (c2 w2) as [[a2 | e2] u2];
    cbn [fst snd] in *; try discriminate.
  - injection Hr as <-. now apply Hk.
  - injection Hr as <-. split; [reflexivity | exact Hs].
Qed.

Lemma alike_ret {A} (a : A) : alike (ret a) (ret a).
Proof. intros w1 w2 Hw. now split. Qed.

Lemma alike_host_gets {A} (f : Host -> A) : alike (host_gets f) (host_gets f).
Proof.
  intros w1 w2 [Hh Ho]. unfold host_gets. cbn [fst snd].
  rewrite Hh. now repeat split.
Qed.

Lemma alike_host_modify (g : Host -> Host) :
  alike (host_modify g) (host_modify g).
Proof.
  intros w1 w2 [Hh Ho]. unfold host_modify. cbn [fst snd].
  rewrite Hh. now repeat split.
Qed.

Lemma alike_gets {A} (f : ntrpRNG.t -> A) :
  (forall o, f (besides_counters o) = f o) -> alike (gets f) (gets f).
Proof.
  intros Hf w1 w2 [Hh Ho]. unfold gets. cbn [fst snd].
  rewrite <- (Hf (snd w1)), <- (Hf (snd w2)), Ho. now repeat split.
Qed.

Lemma alike_modify (g : ntrpRNG.t -> ntrpRNG.t) :
  (forall o, besides_counters (g o) = besides_counters (g (besides_counters o))) ->
  alike (modify g) (modify g).
Proof.
  intros Hg w1 w2 [Hh Ho]. unfold modify. cbn [fst snd].
  split; [reflexivity |]. split; [exact Hh |]. cbn [snd].
  now rewrite (Hg (snd w1)), (Hg (snd w2)), Ho.
Qed.

Lemma alike_bump (f g : EventCount.t -> EventCount.t) :
  alike (ntrpRNG.bump f) (ntrpRNG.bump g).
Proof.
  intros w1 w2 [Hh Ho]. unfold ntrpRNG.bump, modify. cbn [fst snd].
  split; [reflexivity |]. split; [exact Hh | exact Ho].
Qed.

Lemma alike_when b (c1 c2 : JS ntrpRNG.t unit) :
  alike c1 c2 -> alike (when b c1) (when b c2).
Proof. intros Hc. destruct b; [exact Hc | apply alike_ret]. Qed.

Lemma alike_forEach {A} (l : list A) (body1 body2 : A -> JS ntrpRNG.t unit) :
  (forall x, alike (body1 x) (body2 x)) ->
  alike (forEach l body1) (forEach l body2).
Proof.
  intros Hb. induction l as [| x l IH]; cbn [forEach].
  - apply alike_ret.
  - apply alike_bind; [apply Hb | intros _; exact IH].
Qed.

Ltac alike_steps :=
  repeat first
    [ progress intros
    | match goal with
      | |- alike (ret _) (ret _) => apply alike_ret
      | |- alike (bind _ _) (bind _ _) => apply alike_bind
      | |- alike (forEach _ _) (forEach _ _) => apply alike_forEach
      | |- alike (when _ _) (when _ _) => apply alike_when
      | |- alike (host_gets _) (host_gets _) => apply alike_host_gets
      | |- alike (host_modify _) (host_modify _) => apply alike_host_modify
      | |- alike (gets _) (gets _) => apply alike_gets; reflexivity
      | |- alike (modify _) (modify _) => apply alike_modify; reflexivity
      | |- alike (ntrpRNG.bump _) (ntrpRNG.bump _) => apply alike_bump
      | |- alike performance_now performance_now => unfold performance_now
      | |- alike (ntrpRNG._addEntropy _) (ntrpRNG._addEntropy _) =>
          unfold ntrpRNG._addEntropy
      end ].

Lemma handle_alike ev : alike (ntrpRNG_1_2_1.handle ev) (handle ev).
Proof.
  destruct ev; cbn [ntrpRNG_1_2_1.handle handle];
    [ unfold ntrpRNG_1_2_1._onMouseMove, ntrpRNG._onMouseMove
    | unfold ntrpRNG_1_2_1._onMouseDown, ntrpRNG._onMouseDown
    | unfold ntrpRNG_1_2_1._onKeyDown, ntrpRNG._onKeyDown
    | unfold ntrpRNG_1_2_1._onTouchStart, ntrpRNG._onTouchStart
    | unfold ntrpRNG_1_2_1._onTouchMove, ntrpRNG._onTouchMove
    | unfold ntrpRNG_1_2_1._onScroll, ntrpRNG._onScroll
    | unfold ntrpRNG_1_2_1._onDeviceMotion, ntrpRNG._onDeviceMotion ];
    try (destruct (DeviceMotionEvent.accelerationIncludingGravity e));
    alike_steps.
Qed.

Lemma dispatch_all_alike evs :
  forall w1 w2,
    same_recording w1 w2 ->
    same_recording (ntrpRNG_1_2_1.dispatch_all evs w1) (dispatch_all evs w2).
Proof.
  unfold ntrpRNG_1_2_1.dispatch_all, dispatch_all.
  induction evs as [| ev evs IH]; intros w1 w2 Hw; cbn [fold_left];
    [exact Hw |].
  apply IH. unfold after. now apply handle_alike.
Qed.

Lemma handle_counts_1_2_1 ev w :
  ntrpRNG.eventCount (snd (after (ntrpRNG_1_2_1.handle ev) w))
  = match ev with
    | MouseMove _ | MouseDown _ => ntrpRNG.add_mouse 1
    | KeyDown _ => ntrpRNG.add_keyboard 1
    | TouchStart _ | TouchMove _ => ntrpRNG.add_touch 1
    | Scroll => ntrpRNG.add_scroll 1
    | DeviceMotion e =>
        match DeviceMotionEvent.accelerationIncludingGravity e with
        | Some _ => ntrpRNG.add_other 1
        | None => fun c => c
        end
    end (ntrpRNG.eventCount (snd w)).
Proof.
  unfold after. revert w.
  destruct ev; cbn [ntrpRNG_1_2_1.handle];
    [ unfold ntrpRNG_1_2_1._onMouseMove | unfold ntrpRNG_1_2_1._onMouseDown
    | unfold ntrpRNG_1_2_1._onKeyDown | unfold ntrpRNG_1_2_1._onTouchStart
    | unfold ntrpRNG_1_2_1._onTouchMove | unfold ntrpRNG_1_2_1._onScroll
    | unfold ntrpRNG_1_2_1._onDeviceMotion ]; try counts.
  destruct (DeviceMotionEvent.accelerationIncludingGravity e); [counts |].
  reflexivity.
Qed.

Lemma recorded_events_cons ev evs :
  recorded_events (ev :: evs) = recorded_events [ev] + recorded_events evs.
Proof.
  unfold recorded_events, categories. cbn [fold_right].
  rewrite !(occurrences_cons _ ev evs), !(occurrences_cons _ ev []).
  unfold occurrences at 8 9 10 11 12 13 14. cbn [filter len length Z.of_nat].
  lia.
Qed.

Lemma handle_count_1_2_1 ev w :
  weightedTotal (snd (after (ntrpRNG_1_2_1.handle ev) w))
  = weightedTotal (snd w) + recorded_events [ev].
Proof.
  unfold weightedTotal. rewrite handle_counts_1_2_1.
  destruct ev as [e | e | e | e | e | | e]; cbn; try lia.
  unfold occurrences. cbn [filter recorded_as].
  destruct (DeviceMotionEvent.accelerationIncludingGravity e); cbn; lia.
Qed.

Lemma dispatch_all_count_1_2_1 evs :
  forall w, weightedTotal (snd (ntrpRNG_1_2_1.dispatch_all evs w))
            = weightedTotal (snd w) + recorded_events evs.
Proof.
  unfold ntrpRNG_1_2_1.dispatch_all.
  induction evs as [| ev evs IH]; intros w; cbn [fold_left].
  - cbn. lia.
  - rewrite IH, handle_count_1_2_1, (recorded_events_cons ev evs). lia.
Qed.

Lemma occurrences_nonneg c evs : 0 <= occurrences c evs.
Proof. unfold occurrences, len. lia. Qed.

(** X12.  v1.2.1 and v1.3.0 record alike.  From the same state, the same
    events leave the same host and the same instance in both versions, the
    counters apart: the behavioural pool holds the same values.  v1.2.1
    counts each recorded event once, v1.3.0 by its weight, so the total of
    v1.3.0 lies between the total of v1.2.1 and three times it. *)
Theorem X12_versions_record_alike :
  forall (evs : list Event) (w : Host * ntrpRNG.t),
    let old := ntrpRNG_1_2_1.dispatch_all evs w in
    let new := dispatch_all evs w in
    fst old = fst new
    /\ besides_counters (snd old) = besides_counters (snd new)
    /\ ntrpRNG.entropyPool (snd old) = ntrpRNG.entropyPool (snd new)
    /\ fst (ntrpRNG_1_2_1.totalEvents old)
       = Normal (weightedTotal (snd w) + recorded_events evs)
    /\ fst (ntrpRNG._getWeightedEventCount new)
       = Normal (weightedTotal (snd w) + weighted_sum evs)
    /\ recorded_events evs <= weighted_sum evs <= 3 * recorded_events evs.
Proof.
  intros evs w. cbv zeta.
  destruct (dispatch_all_alike evs w w (conj eq_refl eq_refl)) as [Hh Ho].
  split; [exact Hh |]. split; [exact Ho |]. split; [| split; [| split]].
  - change (ntrpRNG.entropyPool
              (besides_counters (snd (ntrpRNG_1_2_1.dispatch_all evs w)))
            = ntrpRNG.entropyPool (besides_counters (snd (dispatch_all evs w)))).
    now rewrite Ho.
  - pose proof (dispatch_all_count_1_2_1 evs w) as Hcount.
    unfold ntrpRNG_1_2_1.totalEvents, bind, gets, ret. cbn [fst snd fold_left].
    f_equal. rewrite <- Hcount. unfold weightedTotal. cbv zeta. lia.
  - rewrite _getWeightedEventCount_run. cbn [fst]. f_equal.
    apply dispatch_all_weight.
  - unfold recorded_events, weighted_sum, categories.
    cbn [fold_right weight].
    pose proof (occurrences_nonneg keydown evs).
    pose proof (occurrences_nonneg mousedown evs).
    pose proof (occurrences_nonneg touchstart evs).
    pose proof (occurrences_nonneg devicemotion evs).
    pose proof (occurrences_nonneg mousemove evs).
    pose proof (occurrences_nonneg touchmove evs).
    pose proof (occurrences_nonneg scroll_ evs).
    lia.
Qed.

(** ** Seed generation in v1.2.1 *)

Lemma totalEvents_run w :
  ntrpRNG_1_2_1.totalEvents w = (Normal (weightedTotal (snd w)), w).
Proof.
  unfold ntrpRNG_1_2_1.totalEvents, bind, gets, ret, weightedTotal.
  cbn [fst snd fold_left]. reflexivity.
Qed.

Lemma hasMinimumEntropy_1_2_1_run w :
  ntrpRNG_1_2_1.hasMinimumEntropy w
  = (Normal ((ntrpRNG.minEvents (snd w) <=? weightedTotal (snd w))
             && (0 <? len (ntrpRNG.entropyPool (snd w)))
             && (0 <? len (ntrpRNG.timerDeltas (snd w)))), w).
Proof.
  unfold ntrpRNG_1_2_1.hasMinimumEntropy.
  erewrite bind_normal by (apply totalEvents_run). reflexivity.
Qed.

Lemma getStats_1_2_1_run w :
  exists stats,
    ntrpRNG_1_2_1.getStats w = (Normal stats, w)
    /\ Stats.totalEvents stats = weightedTotal (snd w).
Proof.
  unfold ntrpRNG_1_2_1.getStats.
  do 4 (erewrite bind_normal by reflexivity).
  erewrite bind_normal by (apply totalEvents_run).
  erewrite bind_normal by reflexivity.
  erewrite bind_normal by (apply hasMinimumEntropy_1_2_1_run).
  eexists. split; reflexivity.
Qed.

Lemma _iterativeHash_1_2_1_sha256 `{WebCrypto} {T} data iterations (w : Host * T) :
  ntrpRNG_1_2_1._iterativeHash data "SHA-256" iterations w
  = (Normal (hash_chain sha256 (Z.to_nat iterations) data), w).
Proof.
  unfold ntrpRNG_1_2_1._iterativeHash.
  now rewrite unbatched_run, digest_chain_sha256.
Qed.

Lemma _iterativeHash_1_2_1_sha512 `{WebCrypto} {T} data iterations (w : Host * T) :
  ntrpRNG_1_2_1._iterativeHash data "SHA-512" iterations w
  = (Normal (hash_chain sha512 (Z.to_nat iterations) data), w).
Proof.
  unfold ntrpRNG_1_2_1._iterativeHash.
  now rewrite unbatched_run, digest_chain_sha512.
Qed.

Lemma generateSeed_1_2_1_run `{WebCrypto} skip h o :
  ntrpRNG_1_2_1.generateSeed skip (h, o)
  = if negb skip
       && negb ((ntrpRNG.minEvents o <=? weightedTotal o)
                && (0 <? len (ntrpRNG.entropyPool o))
                && (0 <? len (ntrpRNG.timerDeltas o)))
    then (Throw (Error (ntrpRNG_1_2_1.insufficient_entropy_message
                          (weightedTotal o) (ntrpRNG.minEvents o)
                          (len (ntrpRNG.entropyPool o))
                          (len (ntrpRNG.timerDeltas o)))), (h, o))
    else
      match new_Uint8Array (arrayLimit h) (ntrpRNG.saltSize o) with
      | Throw e => (Throw e, (h, o))
      | Normal blank =>
          if 65536 <? len blank then (Throw QuotaExceededError, (h, o))
          else
            (Normal (derived_seed_1_2_1 (ntrpRNG.entropyPool o)
                       (ntrpRNG.timerDeltas o)
                       (next_random h (length blank))
                       (ntrpRNG.iterations o)),
             (set_randomDrawn (randomDrawn h + length blank) h, o))
      end.
Proof.
  unfold ntrpRNG_1_2_1.generateSeed.
  assert (Hderive :
    forall w0 : Host * ntrpRNG.t, w0 = (h, o) ->
    (salt <- ntrpRNG.generateSalt ;;
     combined <- ntrpRNG.combineEntropy salt ;;
     preHash <- subtle_digest "SHA-256" combined ;;
     rounds <- gets ntrpRNG.iterations ;;
     hash256 <- ntrpRNG_1_2_1._iterativeHash preHash "SHA-256" rounds ;;
     rounds0 <- gets ntrpRNG.iterations ;;
     hash512Full <- ntrpRNG_1_2_1._iterativeHash preHash "SHA-512" rounds0 ;;
     finalInput <-
       lift (Uint8Array_set
               (zeros (length (ntrpRNG._xorArrays hash256
                                 (ntrpRNG._truncate512 hash512Full))
                       + length hash256
                       + length (ntrpRNG._truncate512 hash512Full)))
               (ntrpRNG._xorArrays hash256 (ntrpRNG._truncate512 hash512Full))
               0) ;;
     finalInput0 <-
       lift (Uint8Array_set finalInput hash256
               (0 + length (ntrpRNG._xorArrays hash256
                              (ntrpRNG._truncate512 hash512Full)))) ;;
     finalInput1 <-
       lift (Uint8Array_set finalInput0 (ntrpRNG._truncate512 hash512Full)
               (0 + length (ntrpRNG._xorArrays hash256
                              (ntrpRNG._truncate512 hash512Full))
                + length hash256)) ;;
     finalSeed <- subtle_digest "SHA-512" finalInput1 ;;
     ret finalSeed) w0
    = match new_Uint8Array (arrayLimit h) (ntrpRNG.saltSize o) with
      | Throw e => (Throw e, (h, o))
      | Normal blank =>
          if 65536 <? len blank then (Throw QuotaExceededError, (h, o))
          else
            (Normal (derived_seed_1_2_1 (ntrpRNG.entropyPool o)
                       (ntrpRNG.timerDeltas o)
                       (next_random h (length blank))
                       (ntrpRNG.iterations o)),
             (set_randomDrawn (randomDrawn h + length blank) h, o))
      end).
  { intros w0 ->. unfold bind at 1. rewrite generateSalt_run.
    destruct (new_Uint8Array _) as [blank | e]; [| reflexivity].
    destruct (65536 <? len blank); [reflexivity |].
    erewrite bind_normal by (apply combineEntropy_run).
    erewrite bind_normal by (apply subtle_digest_sha256).
    erewrite bind_normal by reflexivity.
    erewrite bind_normal by (apply _iterativeHash_1_2_1_sha256).
    erewrite bind_normal by reflexivity.
    erewrite bind_normal by (apply _iterativeHash_1_2_1_sha512).
    cbn [Nat.add]. rewrite set_three.
    erewrite bind_normal by (apply subtle_digest_sha512).
    reflexivity. }
  destruct skip; cbn [negb andb].
  - erewrite bind_normal by reflexivity. cbv iota. now apply Hderive.
  - erewrite bind_normal
      by (erewrite bind_normal by (apply hasMinimumEntropy_1_2_1_run);
          reflexivity).
    cbn [snd].
    destruct ((ntrpRNG.minEvents o <=? weightedTotal o)
              && (0 <? len (ntrpRNG.entropyPool o))
              && (0 <? len (ntrpRNG.timerDeltas o))); cbn [negb].
    + now apply Hderive.
    + destruct (getStats_1_2_1_run (h, o)) as (stats & Hstats & Htotal).
      erewrite bind_normal by (exact Hstats).
      do 3 (erewrite bind_normal by reflexivity).
      unfold throw. now rewrite Htotal.
Qed.

Lemma constructor_1_2_1_returns options h :
  exists o h',
    ntrpRNG_1_2_1.constructor options h = (Normal o, h')
    /\ ntrpRNG.minEvents o = ntrpRNG.or_default (Options.minEvents options) 0
    /\ ntrpRNG.entropyPool o = []
    /\ ntrpRNG.timerDeltas o = []
    /\ ntrpRNG.eventCount o = EventCount.zero.
Proof.
  unfold ntrpRNG_1_2_1.constructor.
  assert (Hret : never_throws ntrpRNG_1_2_1.constructor_body)
    by (unfold ntrpRNG_1_2_1.constructor_body; returns).
  assert (Hkeep :
    stable (fun w : Host * ntrpRNG.t =>
              (ntrpRNG.minEvents (snd w), ntrpRNG.entropyPool (snd w),
               ntrpRNG.timerDeltas (snd w), ntrpRNG.eventCount (snd w)))
      ntrpRNG_1_2_1.constructor_body)
    by (unfold ntrpRNG_1_2_1.constructor_body; frame).
  destruct (Hret (h, ntrpRNG_1_2_1.fields options)) as [u Hu].
  specialize (Hkeep (h, ntrpRNG_1_2_1.fields options)).
  destruct (ntrpRNG_1_2_1.constructor_body (h, ntrpRNG_1_2_1.fields options))
    as [r [h' o]].
  cbn [fst snd] in *. subst r.
  exists o, h'. injection Hkeep as -> -> -> ->.
  repeat split.
Qed.

(** X13.  [generateSeed] of v1.2.1.  Unless validation is skipped it
    rejects, with the message that reports the unweighted total against
    the instance's own [minEvents], exactly when [hasMinimumEntropy()] is
    false; a rejected call changes nothing.  A call that resolves returns
    64 bytes: SHA-512 of the XOR of the two iterated hashes followed by
    the two hashes themselves.  It draws from the hardware random source
    the salt only, and changes nothing else.  A new instance rejects
    whatever its threshold, 0 by default, because both pools are empty. *)
Theorem X13_generateSeed_1_2_1 :
  forall (crypto : WebCrypto) (skipValidation : bool) (h : Host)
         (o : ntrpRNG.t),
    let r := ntrpRNG_1_2_1.generateSeed skipValidation (h, o) in
    (fst r = Throw (Error (ntrpRNG_1_2_1.insufficient_entropy_message
                             (weightedTotal o) (ntrpRNG.minEvents o)
                             (len (ntrpRNG.entropyPool o))
                             (len (ntrpRNG.timerDeltas o))))
     <-> skipValidation = false
         /\ fst (ntrpRNG_1_2_1.hasMinimumEntropy (h, o)) = Normal false)
    /\ (forall seed,
          fst r = Normal seed ->
          seed = derived_seed_1_2_1 (ntrpRNG.entropyPool o)
                   (ntrpRNG.timerDeltas o)
                   (next_random h (Z.to_nat (ntrpRNG.saltSize o)))
                   (ntrpRNG.iterations o)
          /\ length seed = 64%nat
          /\ snd r
             = (set_randomDrawn
                  (randomDrawn h + Z.to_nat (ntrpRNG.saltSize o)) h, o))
    /\ (forall e, fst r = Throw e -> snd r = (h, o))
    /\ (forall (options : Options.t) (h0 : Host),
          exists o' h',
            ntrpRNG_1_2_1.constructor options h0 = (Normal o', h')
            /\ ntrpRNG.minEvents o'
               = ntrpRNG.or_default (Options.minEvents options) 0
            /\ fst (ntrpRNG_1_2_1.generateSeed false (h', o'))
               = Throw (Error (ntrpRNG_1_2_1.insufficient_entropy_message
                                 0 (ntrpRNG.minEvents o') 0 0))).
Proof.
  intros crypto skip h o. cbv zeta.
  rewrite generateSeed_1_2_1_run, hasMinimumEntropy_1_2_1_run. cbn [fst snd].
  split; [| split; [| split]].
  - destruct skip; cbn [negb andb].
    + split; [| intros [Hskip _]; discriminate].
      allocation; [| discriminate].
      destruct (65536 <? len _); discriminate.
    + destruct ((ntrpRNG.minEvents o <=? weightedTotal o)
                && (0 <? len (ntrpRNG.entropyPool o))
                && (0 <? len (ntrpRNG.timerDeltas o))); cbn [negb fst].
      * split; [| intros [_ Hno]; discriminate].
        allocation; [| discriminate].
        destruct (65536 <? len _); discriminate.
      * now split.
  - intros seed.
    destruct (negb skip && negb _); [discriminate |].
    destruct (new_Uint8Array (arrayLimit h) (ntrpRNG.saltSize o)) as [blank | e] eqn:Hnew;
      [| discriminate].
    destruct (65536 <? len blank); [discriminate |].
    cbn [fst snd]. intros [= <-].
    rewrite (new_Uint8Array_length _ _ _ Hnew).
    split; [reflexivity |]. split; [| reflexivity].
    unfold derived_seed_1_2_1. apply sha512_length.
  - intros e.
    destruct (negb skip && negb _); [reflexivity |].
    destruct (new_Uint8Array (arrayLimit h) (ntrpRNG.saltSize o)) as [blank | e'];
      [| reflexivity].
    destruct (65536 <? len blank); [reflexivity | discriminate].
  - intros options h0.
    destruct (constructor_1_2_1_returns options h0)
      as (o' & h' & Hnew & Hmin & Hpool & Htimer & Hcount).
    exists o', h'. split; [exact Hnew |]. split; [exact Hmin |].
    rewrite generateSeed_1_2_1_run. rewrite Hpool, Htimer.
    assert (Hzero : weightedTotal o' = 0)
      by (unfold weightedTotal; rewrite Hcount; reflexivity).
    rewrite Hzero. cbn [len length Z.of_nat Z.ltb Z.compare].
    rewrite andb_false_r. reflexivity.
Qed.

(** ** The baseline's encoded seeds *)

Lemma baseline_call_keeps_host c :
  stable (fun w : Host * cgRNDV.t =>
            (listeners (fst w), timers (fst w), warnings (fst w),
             performanceReads (fst w), dateReads (fst w), yields (fst w)))
    (cgRNDV.perform c).
Proof.
  destruct c; cbn [cgRNDV.perform];
    [ unfold cgRNDV.startCollecting | unfold cgRNDV.stopCollecting
    | unfold cgRNDV.generateSalt | unfold cgRNDV.combineEntropy
    | unfold cgRNDV.hasMinimumEntropy | unfold cgRNDV.generateSeed
    | unfold cgRNDV.getStats | unfold cgRNDV.clearEntropy ];
    unfold getRandomValues; frame.
Qed.

(** X14.  The baseline's [generateSeedHex] and [generateSeedBase64]
    always resolve, with either flag and in every state: with the 128
    hexadecimal digits, respectively the 88 base64 characters, of the next
    64 bytes of the hardware random source, which decode to those bytes.
    Each call moves the source on by 64 and changes nothing else.  No
    sequence of calls on the baseline registers a listener, starts a
    timer, writes to the console, reads a clock or yields. *)
Theorem X14_baseline_encoded_seeds :
  forall (skipValidation : bool) (w : Host * cgRNDV.t),
    let bytes := next_random (fst w) 64 in
    let w' := (set_randomDrawn (randomDrawn (fst w) + 64) (fst w), snd w) in
    cgRNDV.generateSeedHex skipValidation w = (Normal (cgRNDV.toHex bytes), w')
    /\ String.length (cgRNDV.toHex bytes) = 128%nat
    /\ fromHex (cgRNDV.toHex bytes) = Some bytes
    /\ cgRNDV.generateSeedBase64 skipValidation w
       = (Normal (base64_text bytes), w')
    /\ String.length (base64_text bytes) = 88%nat
    /\ fromBase64 (base64_text bytes) = Some bytes
    /\ forall calls : list cgRNDV.Call,
         let after_calls := fst (cgRNDV.perform_all calls w) in
         listeners after_calls = listeners (fst w)
         /\ timers after_calls = timers (fst w)
         /\ warnings after_calls = warnings (fst w)
         /\ performanceReads after_calls = performanceReads (fst w)
         /\ dateReads after_calls = dateReads (fst w)
         /\ yields after_calls = yields (fst w).
Proof.
  intros skip [h o]. cbv zeta. cbn [fst snd].
  assert (Hrun : cgRNDV.generateSeed skip (h, o)
                 = (Normal (next_random h 64),
                    (set_randomDrawn (randomDrawn h + 64) h, o)))
    by (unfold cgRNDV.generateSeed; now rewrite getRandomValues_run).
  split; [| split; [| split; [| split; [| split; [| split]]]]].
  - unfold cgRNDV.generateSeedHex.
    erewrite bind_normal by (exact Hrun). reflexivity.
  - unfold cgRNDV.toHex. now rewrite toHex_length, next_random_length.
  - apply fromHex_toHex.
  - unfold cgRNDV.generateSeedBase64.
    erewrite bind_normal by (exact Hrun).
    unfold cgRNDV.toBase64. rewrite toBase64_run. unfold len.
    rewrite next_random_length. cbn [fst].
    pose proof (argumentLimit_floor (set_randomDrawn (randomDrawn h + 64) h))
      as Hfloor.
    destruct (Z.ltb_spec
                (argumentLimit (set_randomDrawn (randomDrawn h + 64) h))
                (Z.of_nat 64)); [lia | reflexivity].
  - now rewrite toBase64_length, next_random_length.
  - apply fromBase64_toBase64.
  - intros calls.
    assert (Hall : forall w0 : Host * cgRNDV.t,
      (listeners (fst (cgRNDV.perform_all calls w0)),
       timers (fst (cgRNDV.perform_all calls w0)),
       warnings (fst (cgRNDV.perform_all calls w0)),
       performanceReads (fst (cgRNDV.perform_all calls w0)),
       dateReads (fst (cgRNDV.perform_all calls w0)),
       yields (fst (cgRNDV.perform_all calls w0)))
      = (listeners (fst w0), timers (fst w0), warnings (fst w0),
         performanceReads (fst w0), dateReads (fst w0), yields (fst w0))).
    { unfold cgRNDV.perform_all.
      induction calls as [| c calls IH]; intros w0; cbn [fold_left];
        [reflexivity |].
      rewrite IH. unfold after. apply (baseline_call_keeps_host c w0). }
    specialize (Hall (h, o)). cbn [fst] in Hall.
    injection Hall as -> -> -> -> -> ->. now repeat split.
Qed.

(** ** The serialiser loses nothing *)

Lemma float64_bits_range x :
  valid_binary prec emax x = true -> 0 <= float64_bits x < 2 ^ 64.
Proof.
  destruct x as [s | s | | s m e]; intros Hvalid.
  - destruct s; cbn; lia.
  - destruct s; cbn; lia.
  - cbn. lia.
  - assert (Hsb : 0 <= sign_bit s <= 1) by (destruct s; cbn; lia).
    unfold float64_bits.
    destruct (valid_finite_cases s m e Hvalid) as [[Hm He] | [Hm He]].
    + destruct (Z.leb_spec (2 ^ 52) (Zpos m)) as [_ | Hlt]; [| lia].
      rewrite (lor_shiftl_add (e + 1075) 52) by lia.
      rewrite (lor_shiftl_add (sign_bit s) 63).
      2: lia.
      2: { change (2 ^ 63) with (2 ^ 11 * 2 ^ 52).
           change (2 ^ 53) with (2 * 2 ^ 52) in Hm. nia. }
      change (2 ^ 64) with (2 * 2 ^ 63).
      change (2 ^ 63) with (2048 * 2 ^ 52).
      change (2 ^ 53) with (2 * 2 ^ 52) in Hm. nia.
    + destruct (Z.leb_spec (2 ^ 52) (Zpos m)) as [Hge | _]; [lia |].
      rewrite (lor_shiftl_add (sign_bit s) 63).
      2: lia.
      2: { change (2 ^ 63) with (2 ^ 11 * 2 ^ 52). lia. }
      change (2 ^ 64) with (2 * 2 ^ 63).
      change (2 ^ 63) with (2048 * 2 ^ 52). nia.
Qed.

Lemma read_floats_cons x rest :
  valid_binary prec emax x = true ->
  read_floats (float64_be x ++ rest) = x :: read_floats rest.
Proof.
  intros Hvalid.
  pose proof (be_decode_be_bytes_8 (float64_bits x)) as Hdecode.
  rewrite Z.mod_small in Hdecode by now apply float64_bits_range.
  unfold float64_be in *. unfold be_bytes in *.
  cbn [seq map app] in *. cbn [read_floats].
  now rewrite Hdecode, float64_of_bits_of_float64.
Qed.

Lemma read_floats_serialize_spec floats :
  Forall (fun x => valid_binary prec emax x = true) floats ->
  read_floats (serialize_spec floats) = floats.
Proof.
  unfold serialize_spec.
  induction 1 as [| x floats Hx _ IH]; cbn [flat_map]; [reflexivity |].
  now rewrite read_floats_cons, IH.
Qed.

(** X15.  [_serializeFloats] loses nothing.  For an array of Numbers
    (binary64 values, NaN included) it returns eight bytes for each, and
    reading the bytes back eight at a time as big-endian binary64 gives the
    array again; so two different arrays are never serialised to the same
    bytes. *)
Theorem X15_serializeFloats_lossless :
  forall floats : list Number,
    Forall (fun x => valid_binary prec emax x = true) floats ->
    exists bytes,
      _serializeFloats floats = Normal bytes
      /\ length bytes = (8 * length floats)%nat
      /\ read_floats bytes = floats
      /\ forall other,
           Forall (fun x => valid_binary prec emax x = true) other ->
           _serializeFloats other = Normal bytes -> other = floats.
Proof.
  intros floats Hvalid. exists (serialize_spec floats).
  split; [apply _serializeFloats_ok |]. split; [| split].
  - unfold serialize_spec.
    induction floats as [| x floats IH]; [reflexivity |].
    cbn [flat_map length]. rewrite length_app, float64_be_length, IH.
    + lia.
    + now inversion Hvalid.
  - now apply read_floats_serialize_spec.
  - intros other Hother Hsame. rewrite _serializeFloats_ok in Hsame.
    injection Hsame as Hsame.
    rewrite <- (read_floats_serialize_spec other Hother), Hsame.
    now apply read_floats_serialize_spec.
Qed.

Lemma X15_serializeFloats_lossless_witness :
  exists bytes,
    _serializeFloats [num 1; NaN; num_div (num 1) (num 10); SFopp (num 0)]
    = Normal bytes
    /\ read_floats bytes
       = [num 1; NaN; num_div (num 1) (num 10); SFopp (num 0)].
Proof.
  assert (Hvalid : Forall (fun x => valid_binary prec emax x = true)
                     [num 1; NaN; num_div (num 1) (num 10); SFopp (num 0)])
    by (repeat constructor).
  destruct (X15_serializeFloats_lossless _ Hvalid)
    as (bytes & Hrun & _ & Hback & _).
  exists bytes. split; [exact Hrun | exact Hback].
Defined.

(** ** The dashboard's CSV rows *)

Lemma append_assoc (a b c : string) :
  String.append (String.append a b) c = String.append a (String.append b c).
Proof. induction a as [| x a IH]; cbn; [reflexivity | now rewrite IH]. Qed.

Lemma append_empty_r (a : string) : String.append a EmptyString = a.
Proof. induction a as [| x a IH]; cbn; [reflexivity | now rewrite IH]. Qed.

Lemma read_row_field field :
  forall seen tail done,
    read_row (String.append (dashboard.double_quotes field)
                (String dashboard.quote tail)) (InField seen) done
    = read_row tail
        (AfterQuote (rev (list_ascii_of_string field) ++ seen)) done.
Proof.
  induction field as [| c field IH]; intros seen tail done.
  - cbn. reflexivity.
  - cbn [dashboard.double_quotes list_ascii_of_string rev].
    rewrite <- app_assoc. cbn [app].
    destruct (Ascii.eqb c dashboard.quote) eqn:Hc.
    + apply Ascii.eqb_eq in Hc. subst c.
      cbn [String.append read_row]. rewrite Ascii.eqb_refl.
      apply IH.
    + cbn [String.append read_row]. rewrite Hc. apply IH.
Qed.

Lemma read_row_escaped field tail done :
  read_row (String.append (dashboard.escapeCsvField field) tail)
    FieldStart done
  = read_row tail (AfterQuote (rev (list_ascii_of_string field))) done.
Proof.
  unfold dashboard.escapeCsvField.
  cbn [String.append read_row]. rewrite Ascii.eqb_refl.
  rewrite append_assoc. cbn [String.append].
  rewrite read_row_field. now rewrite app_nil_r.
Qed.

Lemma read_row_fields fields :
  forall field done,
    read_row (dashboard.row (field :: fields)) FieldStart done
    = Some (rev done ++ field :: fields).
Proof.
  unfold dashboard.row.
  induction fields as [| next fields IH]; intros field done.
  - cbn [map dashboard.join].
    rewrite <- (append_empty_r (dashboard.escapeCsvField field)) at 1.
    rewrite read_row_escaped. cbn [read_row].
    now rewrite rev_involutive, string_of_list_ascii_of_string.
  - cbn [map] in *.
    change (dashboard.join ","
              (dashboard.escapeCsvField field
               :: dashboard.escapeCsvField next
               :: map dashboard.escapeCsvField fields))
      with (String.append (dashboard.escapeCsvField field)
              (String.append ","
                 (dashboard.join ","
                    (dashboard.escapeCsvField next
                     :: map dashboard.escapeCsvField fields)))).
    rewrite read_row_escaped.
    cbn [String.append read_row Ascii.eqb Bool.eqb dashboard.quote].
    rewrite IH, rev_involutive, string_of_list_ascii_of_string.
    cbn [rev]. now rewrite <- app_assoc.
Qed.

(** X16.  A row of the CSV export can be read back.  [escapeCsvField]
    puts the field between quotes and doubles the quotes inside it; a
    reader of quoted CSV fields gets from the row of any fields, joined by
    commas, exactly those fields again, whatever they contain (commas,
    quotes, line breaks); two different lists of fields never give the
    same row. *)
Theorem X16_csv_row_round_trip :
  forall (field : string) (fields : list string),
    read_row (dashboard.row (field :: fields)) FieldStart []
    = Some (field :: fields)
    /\ (forall other others,
          dashboard.row (other :: others) = dashboard.row (field :: fields) ->
          other :: others = field :: fields).
Proof.
  intros field fields. split; [apply read_row_fields |].
  intros other others Hsame.
  pose proof (read_row_fields others other []) as Hother.
  rewrite Hsame, read_row_fields in Hother. cbn [rev app] in Hother.
  congruence.
Qed.

(** ** From construction to a seed *)

Lemma deliver_key e w :
  listeners (fst w) = session_listeners (fst w) ->
  deliver (KeyDown e) w = handle (KeyDown e) w.
Proof.
  intros Hlis. unfold deliver, bind, host_gets. cbn [fst snd].
  rewrite Hlis. unfold session_listeners.
  destruct (hasDeviceMotionEvent (fst w)); reflexivity.
Qed.

Lemma _onKeyDown_fills e w :
  ntrpRNG.entropyPool (snd (after (ntrpRNG._onKeyDown e) w)) <> [].
Proof.
  destruct w as [h o]. unfold after, ntrpRNG._onKeyDown.
  erewrite bind_normal by reflexivity.
  erewrite bind_normal by (apply _addEntropy_run).
  unfold ntrpRNG.bump, modify.
  cbn [fst snd ntrpRNG.entropyPool ntrpRNG.set_eventCount
       ntrpRNG.set_entropyPool].
  apply trimmed_nonempty; [lia |].
  destruct (ntrpRNG.entropyPool o); discriminate.
Qed.

Lemma handle_keeps_collecting ev :
  stable (fun w => ntrpRNG.isCollecting (snd w)) (handle ev).
Proof. destruct ev; cbn [handle]; frame. Qed.

Lemma keys_recorded `{WebCrypto} (keys : list KeyboardEvent.t) :
  forall w,
    in_step w -> ntrpRNG.isCollecting (snd w) = true ->
    let w' := happen_all (map (fun e => Dispatch (KeyDown e)) keys) w in
    in_step w'
    /\ ntrpRNG.isCollecting (snd w') = true
    /\ ntrpRNG.minEvents (snd w') = ntrpRNG.minEvents (snd w)
    /\ weightedTotal (snd w') = weightedTotal (snd w) + 3 * len keys
    /\ (keys <> [] -> ntrpRNG.entropyPool (snd w') <> []).
Proof.
  unfold happen_all.
  induction keys as [| e keys IH]; intros w Hstep Hcoll; cbv zeta;
    cbn [map fold_left].
  - repeat split; try assumption; [cbn; lia | congruence].
  - assert (Hlis : listeners (fst w) = session_listeners (fst w)).
    { unfold in_step in Hstep. cbv zeta in Hstep. rewrite Hcoll in Hstep.
      apply Hstep. }
    assert (Hrun : after (happen (Dispatch (KeyDown e))) w
                   = after (handle (KeyDown e)) w).
    { unfold after. cbn [happen]. now rewrite deliver_key. }
    rewrite Hrun.
    assert (Hstep' : in_step (after (handle (KeyDown e)) w))
      by (now apply handle_in_step).
    assert (Hcoll' : ntrpRNG.isCollecting (snd (after (handle (KeyDown e)) w))
                     = true)
      by (unfold after; now rewrite (handle_keeps_collecting (KeyDown e) w)).
    destruct (IH _ Hstep' Hcoll') as (Hs & Hc & Hm & Hw & Hp).
    split; [exact Hs |]. split; [exact Hc |].
    split; [| split].
    + rewrite Hm. unfold after. apply (handle_keeps_threshold (KeyDown e) w).
    + rewrite Hw, handle_weight. unfold len. cbn [length].
      unfold weighted_sum, categories, occurrences.
      cbn [fold_right filter recorded_as len length weight Z.of_nat].
      lia.
    + intros _. destruct keys as [| e' keys'].
      * cbn [map fold_left]. apply (_onKeyDown_fills e w).
      * apply Hp. discriminate.
Qed.

Lemma pending_of kind id h :
  In (kind, id) (timers h) -> pending kind h <> [].
Proof.
  intros Hin. unfold pending.
  assert (Hp : In id (map snd (filter (fun t => eq_timer (kind, snd t) t)
                                 (timers h)))).
  { apply in_map_iff. exists (kind, id). split; [reflexivity |].
    apply filter_In. split; [exact Hin | apply eq_timer_refl]. }
  intros Hnil. now rewrite Hnil in Hp.
Qed.

Lemma tick_fills kind :
  forall w,
    in_step w -> ntrpRNG.isCollecting (snd w) = true ->
    ntrpRNG.timerDeltas (snd (after (fire kind) w)) <> [].
Proof.
  intros [h o] Hstep Hcoll. cbn [snd] in Hcoll.
  unfold in_step in Hstep. cbn [fst snd] in Hstep. rewrite Hcoll in Hstep.
  destruct Hstep as (_ & Hraf & Hid1 & Hid2 & Htimers).
  assert (Hfilled : forall pool (extra : list Number),
            extra <> [] -> trimmed 1000 500 (pool ++ extra) <> []).
  { intros pool extra Hextra. apply trimmed_nonempty; [lia |].
    destruct pool, extra; try discriminate. congruence. }
  assert (Hpending : pending kind h <> []).
  { destruct kind.
    - destruct (ntrpRNG.rafId o) as [id |] eqn:E; [| discriminate].
      apply (pending_of AnimationFrame id), (Htimers AnimationFrame id). reflexivity.
    - destruct (ntrpRNG.timerId1 o) as [id |] eqn:E; [| discriminate].
      apply (pending_of Interval id), (Htimers Interval id). reflexivity.
    - destruct (ntrpRNG.timerId2 o) as [id |] eqn:E; [| discriminate].
      apply (pending_of Timeout id), (Htimers Timeout id). reflexivity. }
  unfold after, fire. unfold bind at 1, host_gets. cbn [fst snd].
  destruct (pending kind h) as [| id rest]; [congruence |].
  destruct kind.
  - unfold bind at 1, cancel, host_modify. cbn [fst snd].
    unfold ntrpRNG.rafCollect. unfold bind at 1, gets. cbn [fst snd].
    rewrite Hcoll. cbn [negb]. unfold bind at 1.
    rewrite _collectTimerDelta_run. cbv zeta.
    unfold schedule, bind, host_gets, host_modify, modify, ret.
    cbn [fst snd ntrpRNG.timerDeltas ntrpRNG.set_rafId
         ntrpRNG.set_timerDeltas].
    apply Hfilled. discriminate.
  - unfold ntrpRNG.intervalCollect. unfold bind, gets. cbn [fst snd].
    rewrite Hcoll. cbn [when].
    rewrite _collectTimerDelta_run. cbv zeta.
    cbn [fst snd ntrpRNG.timerDeltas ntrpRNG.set_timerDeltas].
    apply Hfilled. discriminate.
  - unfold bind at 1, cancel, host_modify. cbn [fst snd].
    unfold ntrpRNG.recursiveTimeout. unfold bind at 1, gets. cbn [fst snd].
    rewrite Hcoll. cbn [negb]. unfold bind at 1.
    rewrite _collectTimerDelta_run. cbv zeta.
    unfold schedule, bind, host_gets, host_modify, modify, ret.
    cbn [fst snd ntrpRNG.timerDeltas ntrpRNG.set_timerId2
         ntrpRNG.set_timerDeltas].
    apply Hfilled. discriminate.
Qed.

Lemma fire_keeps_recorded kind :
  stable (fun w : Host * ntrpRNG.t =>
            (ntrpRNG.entropyPool (snd w), ntrpRNG.eventCount (snd w),
             ntrpRNG.minEvents (snd w), ntrpRNG.saltSize (snd w)))
    (fire kind).
Proof. unfold fire. destruct kind; frame. Qed.

Lemma handle_keeps_saltSize ev :
  stable (fun w => ntrpRNG.saltSize (snd w)) (handle ev).
Proof. destruct ev; cbn [handle]; frame. Qed.

Lemma keys_keep_saltSize `{WebCrypto} (keys : list KeyboardEvent.t) :
  forall w,
    ntrpRNG.saltSize
      (snd (happen_all (map (fun e => Dispatch (KeyDown e)) keys) w))
    = ntrpRNG.saltSize (snd w).
Proof.
  unfold happen_all.
  induction keys as [| e keys IH]; intros w; cbn [map fold_left];
    [reflexivity |].
  rewrite IH. unfold after. cbn [happen]. unfold deliver, bind, host_gets.
  cbn [fst snd]. destruct (existsb _ _); [| reflexivity].
  apply (handle_keeps_saltSize (KeyDown e) w).
Qed.

(** X17.  From construction to a seed.  An instance constructed with
    [autoCollect] on a host where nothing is registered, once at least 167
    key events have been delivered to it and one of its three timer
    callbacks has run, is ready: [hasMinimumEntropy()] returns true and
    [generateSeed()], with validation, resolves with 64 bytes, provided
    the salt size is one the host can serve. *)
Theorem X17_ready_after_keys_and_a_tick :
  forall (crypto : WebCrypto) (options : Options.t) (h : Host)
         (keys : list KeyboardEvent.t) (tick : TimerKind),
    listeners h = [] -> timers h = [] ->
    Options.autoCollect options <> Some false ->
    500 <= 3 * len keys ->
    0 <= ntrpRNG.or_default (Options.saltSize options) 32 <= 65536 ->
    exists o h',
      ntrpRNG.constructor builtin options h = (Normal o, h')
      /\ let w := after (fire tick)
                    (happen_all (map (fun e => Dispatch (KeyDown e)) keys)
                       (h', o)) in
         fst (ntrpRNG.hasMinimumEntropy builtin w) = Normal true
         /\ exists seed,
              fst (ntrpRNG.generateSeed builtin false w) = Normal seed
              /\ length seed = 64%nat.
Proof.
  intros crypto options h keys tick Hlis Htim Hauto Hkeys Hsalt.
  destruct (constructor_returns builtin options h eq_refl)
    as (o & h' & Hnew & Hmin & _ & Hsize & Hpool & Htimer & Hcount & _).
  exists o, h'. split; [exact Hnew |].
  destruct (constructor_in_step options h o h' Hlis Htim Hnew)
    as [Hstep Hflag].
  assert (Hcoll : ntrpRNG.isCollecting o = true).
  { rewrite Hflag. destruct (Options.autoCollect options) as [[|] |];
      congruence. }
  destruct (keys_recorded keys (h', o) Hstep Hcoll)
    as (Hs & Hc & Hm & Hw & Hp).
  cbn [snd] in Hm, Hw.
  set (w1 := happen_all (map (fun e => Dispatch (KeyDown e)) keys) (h', o))
    in *.
  assert (Hsize1 : ntrpRNG.saltSize (snd w1) = ntrpRNG.saltSize o)
    by (subst w1; apply (keys_keep_saltSize keys (h', o))).
  cbv zeta.
  pose proof (tick_fills tick w1 Hs Hc) as Hfilled.
  pose proof (fire_keeps_recorded tick w1) as Hkept. cbv beta in Hkept.
  unfold after in *.
  destruct (fire tick w1) as [r [h2 o2]]. cbn [fst snd] in *.
  injection Hkept as Hpool2 Hcount2 Hmin2 Hsize2.
  assert (Hkeys_some : keys <> []).
  { intros ->. cbn in Hkeys. lia. }
  assert (Henough : enough o2 = true).
  { apply enough_spec. split; [| split].
    - unfold weightedTotal in *. rewrite Hcount2. cbv zeta in Hw.
      assert (Hzero : weightedTotal o = 0)
        by (unfold weightedTotal; rewrite Hcount; reflexivity).
      unfold weightedTotal in Hzero. cbv zeta in Hzero. lia.
    - rewrite Hpool2. now apply Hp.
    - exact Hfilled. }
  assert (Hmin' : ntrpRNG.minEvents o2 = 500) by congruence.
  split.
  - rewrite hasMinimumEntropy_run. cbn [snd fst]. rewrite Hmin', Henough.
    reflexivity.
  - rewrite generateSeed_run by (reflexivity || exact Hmin').
    rewrite Henough. cbn [negb andb].
    assert (Hsize' : ntrpRNG.saltSize o2
                     = ntrpRNG.or_default (Options.saltSize options) 32)
      by congruence.
    rewrite Hsize'. rewrite new_Uint8Array_ok by exact Hsalt.
    rewrite len_zeros by lia.
    destruct (Z.ltb_spec 65536
                (ntrpRNG.or_default (Options.saltSize options) 32)); [lia |].
    cbv zeta. cbn [fst]. eexists. split; [reflexivity |].
    apply derived_seed_length.
Qed.

Lemma X17_ready_after_keys_and_a_tick_witness :
  let options := {| Options.iterations := Some 3; Options.saltSize := None;
                    Options.autoCollect := None; Options.minEvents := None |} in
  let key := {| KeyboardEvent.keyCode := num 65; KeyboardEvent.which := num 65;
                KeyboardEvent.repeat := false |} in
  exists o h',
    ntrpRNG.constructor builtin options sample_host = (Normal o, h')
    /\ fst (ntrpRNG.hasMinimumEntropy builtin
              (after (fire Interval)
                 (@happen_all toy_crypto
                    (map (fun e => Dispatch (KeyDown e)) (repeat key 167))
                    (h', o))))
       = Normal true.
Proof.
  intros options key.
  assert (Hauto : Options.autoCollect options <> Some false) by discriminate.
  assert (Hkeys : 500 <= 3 * len (repeat key 167))
    by (unfold len; rewrite repeat_length; lia).
  assert (Hsalt : 0 <= ntrpRNG.or_default (Options.saltSize options) 32 <= 65536)
    by (cbn; lia).
  destruct (X17_ready_after_keys_and_a_tick toy_crypto options sample_host
              (repeat key 167) Interval eq_refl eq_refl Hauto Hkeys Hsalt)
    as (o & h' & Hnew & Hready & _).
  exists o, h'. split; [exact Hnew | exact Hready].
Defined.
